(** * HandForge: job orchestration and encoder process management

    A shallow embedding of [handforge/core/orchestrator.py],
    [handforge/core/models.py] and [handforge/util/ffmpeg.py], with the
    properties of the orchestration core stated and proved over it.

    Conventions of the embedding:
    - Python [str] is [string] (a sequence of bytes; case folding, white
      space and digit classes are the ASCII ones);
    - Python [int] is [Z]; [str(n)] is stdpp's [pretty];
    - Python [float] is [Q] (exact rationals); the decimal rendering of a
      float is a function of the host, see [Host];
    - a [dict] used as a map is a [gmap]; an absent key is [None];
    - a function that can raise returns a [result]. *)

From Stdlib Require Import ZArith QArith Qminmax Ascii String List Sorted Lia Lqa.
From stdpp Require Import base gmap sets list strings pretty.

Local Open Scope Z_scope.

(** ** Python string operations *)

Module PyStr.

Definition is_upper (c : ascii) : bool :=
  let n := N_of_ascii c in ((65 <=? n) && (n <=? 90))%N.

Definition lower_char (c : ascii) : ascii :=
  if is_upper c then ascii_of_N (N_of_ascii c + 32) else c.

(** [s.lower()] *)
Fixpoint lower (s : string) : string :=
  match s with
  | EmptyString => EmptyString
  | String c s' => String (lower_char c) (lower s')
  end.

(** white space of [str.strip()] and of the regular expression class \s *)
Definition is_space (c : ascii) : bool :=
  let n := N_of_ascii c in
  (((9 <=? n) && (n <=? 13)) || ((28 <=? n) && (n <=? 32)))%N.

(** the regular expression class \d *)
Definition is_digit (c : ascii) : bool :=
  let n := N_of_ascii c in ((48 <=? n) && (n <=? 57))%N.

Definition digit_val (c : ascii) : Z := Z.of_N (N_of_ascii c) - 48.

Fixpoint lstrip (s : string) : string :=
  match s with
  | EmptyString => EmptyString
  | String c s' => if is_space c then lstrip s' else s
  end.

Fixpoint rstrip (s : string) : string :=
  match s with
  | EmptyString => EmptyString
  | String c s' =>
      match rstrip s' with
      | EmptyString => if is_space c then EmptyString else String c EmptyString
      | r => String c r
      end
  end.

(** [s.strip()] *)
Definition strip (s : string) : string := rstrip (lstrip s).

(** [s.rstrip(c)] for a one-character argument *)
Fixpoint rstrip_char (c : ascii) (s : string) : string :=
  match s with
  | EmptyString => EmptyString
  | String a s' =>
      match rstrip_char c s' with
      | EmptyString => if Ascii.eqb a c then EmptyString else String a EmptyString
      | r => String a r
      end
  end.

Definition len (s : string) : Z := Z.of_nat (String.length s).

(** [bool(s)]: a string is true when it is not empty *)
Definition truthy (s : string) : bool :=
  match s with EmptyString => false | _ => true end.

(** [bool(o)] for an optional string: [None] and [""] are false *)
Definition truthy_opt (o : option string) : bool :=
  match o with Some s => truthy s | None => false end.

Fixpoint startswith (p s : string) : bool :=
  match p, s with
  | EmptyString, _ => true
  | String a p', String b s' => Ascii.eqb a b && startswith p' s'
  | String _ _, EmptyString => false
  end.

(** [p in s] *)
Fixpoint contains (p s : string) : bool :=
  startswith p s ||
  match s with
  | EmptyString => false
  | String _ s' => contains p s'
  end.

Definition endswith_char (c : ascii) (s : string) : bool :=
  match String.rev s with
  | String a _ => Ascii.eqb a c
  | EmptyString => false
  end.

Fixpoint rfind_go (c : ascii) (s : string) (i last : Z) : Z :=
  match s with
  | EmptyString => last
  | String a s' => rfind_go c s' (i + 1) (if Ascii.eqb a c then i else last)
  end.

(** [s.rfind(c)] for a one-character argument: -1 when absent *)
Definition rfind (c : ascii) (s : string) : Z := rfind_go c s 0 (-1).

Fixpoint find_go (c : ascii) (s : string) (i : Z) : Z :=
  match s with
  | EmptyString => -1
  | String a s' => if Ascii.eqb a c then i else find_go c s' (i + 1)
  end.

(** [s.find(c, start)] for a one-character argument and [0 <= start] *)
Definition find_from (c : ascii) (s : string) (start : Z) : Z :=
  find_go c (String.substring (Z.to_nat start)
               (String.length s - Z.to_nat start) s) start.

(** [s[i:]] and [s[:i]] for [0 <= i] *)
Definition slice_from (i : Z) (s : string) : string :=
  String.substring (Z.to_nat i) (String.length s - Z.to_nat i) s.

Definition slice_to (i : Z) (s : string) : string :=
  String.substring 0 (Z.to_nat i) s.

(** [s[i:i+1]] *)
Definition slice1 (i : Z) (s : string) : string :=
  String.substring (Z.to_nat i) 1 s.

(** [s[-n:]] for [0 < n] *)
Definition slice_last (n : nat) (s : string) : string :=
  String.substring (String.length s - n) n s.

(** [s.replace(a, b)] for one-character arguments *)
Fixpoint replace_char (a b : ascii) (s : string) : string :=
  match s with
  | EmptyString => EmptyString
  | String c s' => String (if Ascii.eqb c a then b else c) (replace_char a b s')
  end.

(** [sep.join(l)] *)
Fixpoint join (sep : string) (l : list string) : string :=
  match l with
  | [] => ""
  | [x] => x
  | x :: l' => x +:+ sep +:+ join sep l'
  end.

(** [l[-n:]] *)
Definition last_n {A} (n : nat) (l : list A) : list A :=
  drop (length l - n) l.

(** [str(n)] for an [int] *)
Definition str_int (n : Z) : string := pretty n.

(** [s] holds decimal digits only *)
Fixpoint digits_only (s : string) : bool :=
  match s with
  | EmptyString => true
  | String c s' => is_digit c && digits_only s'
  end.

End PyStr.

(** ** [os.path] (the POSIX flavour) *)

Module OsPath.
Import PyStr.

(** [os.path.basename] *)
Definition basename (p : string) : string :=
  let i := rfind "/" p + 1 in
  slice_from i p.

(** [os.path.dirname] *)
Definition dirname (p : string) : string :=
  let i := rfind "/" p + 1 in
  let head := slice_to i p in
  if truthy head && negb (String.eqb head (String.concat "" (repeat "/"%string (String.length head))))
  then rstrip_char "/" head else head.

(** the loop of [genericpath._splitext] that skips the leading dots of
    the file name *)
Fixpoint splitext_scan (fuel : nat) (p : string) (filenameIndex dotIndex : Z)
  : option (string * string) :=
  match fuel with
  | O => None
  | S fuel' =>
      if filenameIndex <? dotIndex then
        if negb (String.eqb (slice1 filenameIndex p) ".")
        then Some (slice_to dotIndex p, slice_from dotIndex p)
        else splitext_scan fuel' p (filenameIndex + 1) dotIndex
      else None
  end.

(** [os.path.splitext] *)
Definition splitext (p : string) : string * string :=
  let sepIndex := rfind "/" p in
  let dotIndex := rfind "." p in
  if sepIndex <? dotIndex then
    match splitext_scan (S (String.length p)) p (sepIndex + 1) dotIndex with
    | Some r => r
    | None => (p, "")
    end
  else (p, "").

(** [os.path.join] with two arguments *)
Definition join (a b : string) : string :=
  if startswith "/" b then b
  else if negb (truthy a) || endswith_char "/" a then a +:+ b
  else a +:+ "/" +:+ b.

End OsPath.

(** ** Exceptions and results *)

(** The exceptions the modelled code can raise; each carries [str(e)]. *)
Inductive exn : Type :=
| RuntimeError (msg : string)
| ValueError (msg : string)
| OSError (msg : string)
| IndexError (msg : string)
| NameError (msg : string)
| UnboundLocalError (msg : string).

Definition str_exn (e : exn) : string :=
  match e with
  | RuntimeError m | ValueError m | OSError m | IndexError m | NameError m
  | UnboundLocalError m => m
  end.

(** A computation that returns a value or raises. *)
Inductive result (A : Type) : Type :=
| Ok (a : A)
| Raise (e : exn).
Arguments Ok {A} a.
Arguments Raise {A} e.

#[global] Instance result_ret : MRet result := fun A a => Ok a.
#[global] Instance result_bind : MBind result := fun A B f m =>
  match m with
  | Ok a => f a
  | Raise e => Raise e
  end.

(** ** The data model ([handforge/core/models.py]) *)

Module Models.

Record Job : Type := mkJob {
  src : string;
  dst_dir : string;
  format : string;
  mode : string;
  bitrate : option string;
  vbrq : option string;
  sample_rate : option string;
  channels : option string;
  meta_title : option string;
  meta_artist : option string;
  meta_album : option string;
  meta_year : option string;
  meta_genre : option string;
  meta_track : option string;
  copy_meta : bool;
  strip_meta : bool;
  prefer_external_cover : bool;
  normalize_lufs : bool;
  target_lufs : Q;
  threads : Z;
  custom_args : option string;
  video_codec : option string;
  video_bitrate : option string;
  video_quality : option string;
  resolution : option string;
  fps : option string;
  extract_audio_only : bool;
  reduce_size : bool;
  size_reduction_factor : option Q;
  use_hevc : bool;
  two_pass : bool;
  subtitle_track : option Z;
  trim_start : option Q;
  trim_end : option Q;
  fade_in : option Q;
  fade_out : option Q;
  video_trim_start : option Q;
  video_trim_end : option Q;
  crop_x : option Z;
  crop_y : option Z;
  crop_width : option Z;
  crop_height : option Z;
  video_quality_preset : option string;
  audio_track : option Z;
  delete_original : bool;
}.

(** [job.threads = v] *)
Definition set_threads (v : Z) (j : Job) : Job :=
  mkJob (src j) (dst_dir j) (format j) (mode j) (bitrate j) (vbrq j)
    (sample_rate j) (channels j) (meta_title j) (meta_artist j)
    (meta_album j) (meta_year j) (meta_genre j) (meta_track j)
    (copy_meta j) (strip_meta j) (prefer_external_cover j)
    (normalize_lufs j) (target_lufs j) v (custom_args j) (video_codec j)
    (video_bitrate j) (video_quality j) (resolution j) (fps j)
    (extract_audio_only j) (reduce_size j) (size_reduction_factor j)
    (use_hevc j) (two_pass j) (subtitle_track j) (trim_start j)
    (trim_end j) (fade_in j) (fade_out j) (video_trim_start j)
    (video_trim_end j) (crop_x j) (crop_y j) (crop_width j)
    (crop_height j) (video_quality_preset j) (audio_track j)
    (delete_original j).

(** The defaults of the dataclass: [Job(src, dst_dir, format)]. *)
Definition default_job (s d f : string) : Job :=
  mkJob s d f "CBR" None None None None None None None None None None
    true false false false (-14) 1 None None None None None None
    false false None false false None None None None None None None
    None None None None None None false.

End Models.

(** ** The host: file system, environment and library functions *)

(** The file system as the code observes it: the paths that exist, each
    with the size [os.path.getsize] reports. *)
Abbreviation FS := (gmap string Z).

Module Os.

(** [os.path.exists(p)] *)
Definition path_exists (fs : FS) (p : string) : bool :=
  bool_decide (is_Some (fs !! p)).

(** [os.path.getsize(p)] *)
Definition getsize (fs : FS) (p : string) : result Z :=
  match fs !! p with
  | Some n => Ok n
  | None => Raise (OSError "No such file or directory")
  end.

(** [os.remove(p)] *)
Definition remove (fs : FS) (p : string) : result FS :=
  match fs !! p with
  | Some _ => Ok (delete p fs)
  | None => Raise (OSError "No such file or directory")
  end.

End Os.

(** What the code takes from the machine it runs on and from the Python
    library. A claim proved for every [Host] holds whatever these are. *)
Record Host : Type := mkHost {
  platform_system : string;                  (* platform.system() *)
  environ_HOME : option string;              (* os.environ.get("HOME") *)
  getpwuid_dir : option string;              (* pwd.getpwuid(os.getuid()).pw_dir *)
  getpwnam_dir : string -> option string;    (* pwd.getpwnam(name).pw_dir *)
  which : string -> option string;           (* shutil.which *)
  makedirs : FS -> string -> result FS;      (* os.makedirs(p, exist_ok=True) *)
  shlex_split : string -> result (list string); (* shlex.split *)
  str_float : Q -> string;                   (* str(x) for a float *)
  unbound_local_msg : string -> string;      (* str(UnboundLocalError) for a name *)
}.

Module OsPathEnv.
Import PyStr.

(** [os.path.expanduser] *)
Definition expanduser (h : Host) (path : string) : string :=
  if negb (startswith "~" path) then path
  else
    let i := find_from "/" path 1 in
    let i := if i <? 0 then len path else i in
    let userhome :=
      if i =? 1 then
        match environ_HOME h with
        | None => getpwuid_dir h
        | Some home => Some home
        end
      else getpwnam_dir h (String.substring 1 (Z.to_nat i - 1) path) in
    match userhome with
    | None => path
    | Some userhome =>
        let userhome := rstrip_char "/" userhome in
        let r := userhome +:+ slice_from i path in
        if truthy r then r else "/"
    end.

End OsPathEnv.

(** ** Python list operations on an argument vector *)

Module PyList.

(** [x in l] *)
Definition mem (x : string) (l : list string) : bool :=
  existsb (String.eqb x) l.

Fixpoint index_go (x : string) (l : list string) (i : nat) : option nat :=
  match l with
  | [] => None
  | y :: l' => if String.eqb y x then Some i else index_go x l' (S i)
  end.

(** [l.index(x)]: the first position of [x], or [ValueError] *)
Definition index (x : string) (l : list string) : result nat :=
  match index_go x l 0 with
  | Some i => Ok i
  | None => Raise (ValueError (x +:+ " is not in list"))
  end.

(** [l.pop(i)] for [0 <= i], keeping the list only *)
Definition pop (i : nat) (l : list string) : result (list string) :=
  if bool_decide (i < length l)%nat then Ok (delete i l)
  else Raise (IndexError "pop index out of range").

(** [l[i] = v] for [0 <= i] *)
Definition set_item (i : nat) (v : string) (l : list string)
  : result (list string) :=
  if bool_decide (i < length l)%nat then Ok (<[i:=v]> l)
  else Raise (IndexError "list assignment index out of range").

(** [l[i]] for [0 <= i] *)
Definition get_item (i : nat) (l : list string) : result string :=
  match l !! i with
  | Some v => Ok v
  | None => Raise (IndexError "list index out of range")
  end.

(** [l.insert(i, v)]: a negative [i] counts from the end, and the
    position is clipped to the list *)
Definition insert (i : Z) (v : string) (l : list string) : list string :=
  let n := Z.of_nat (length l) in
  let i := if i <? 0 then Z.max 0 (i + n) else Z.min i n in
  take (Z.to_nat i) l ++ v :: drop (Z.to_nat i) l.

End PyList.

(** ** The command builder ([handforge/util/ffmpeg.py]) *)

Module Ffmpeg.
Import PyStr.

(** [d.get(k, default)] for a dictionary literal *)
Definition dict_get (d : gmap string string) (k default : string) : string :=
  match d !! k with Some v => v | None => default end.

(** [bool(x)] for an optional number: [None] and zero are false *)
Definition truthy_Q (o : option Q) : bool :=
  match o with Some q => negb (Qeq_bool q 0) | None => false end.
Definition truthy_Z (o : option Z) : bool :=
  match o with Some z => negb (z =? 0) | None => false end.

Definition is_Some_b {A} (o : option A) : bool :=
  match o with Some _ => true | None => false end.

(** [find_ffmpeg] *)
Definition find_ffmpeg (h : Host) (fs : FS) : option string :=
  let ffmpeg := which h "ffmpeg" in
  if truthy_opt ffmpeg then ffmpeg
  else
    let common_paths :=
      [ "C:\ffmpeg\bin\ffmpeg.exe";
        "C:\Program Files\ffmpeg\bin\ffmpeg.exe";
        "/usr/bin/ffmpeg";
        "/usr/local/bin/ffmpeg" ] in
    List.find (Os.path_exists fs) common_paths.

(** [is_video_file] *)
Definition is_video_file (path : string) : bool :=
  let ext := lower (snd (OsPath.splitext path)) in
  let video_exts :=
    [ ".mp4"; ".mkv"; ".avi"; ".mov"; ".wmv"; ".flv"; ".webm"; ".m4v";
      ".3gp"; ".3g2"; ".asf"; ".rm"; ".rmvb"; ".vob"; ".ogv"; ".mts";
      ".m2ts"; ".ts"; ".divx"; ".f4v"; ".mxf"; ".mpg"; ".mpeg"; ".m2v" ] in
  PyList.mem ext video_exts.

(** [is_audio_file] *)
Definition is_audio_file (path : string) : bool :=
  let ext := lower (snd (OsPath.splitext path)) in
  let audio_exts :=
    [ ".mp3"; ".aac"; ".m4a"; ".flac"; ".wav"; ".ogg"; ".opus";
      ".wma"; ".ac3"; ".eac3"; ".ape"; ".tta"; ".wv"; ".mp2";
      ".amr"; ".caf"; ".au"; ".mka"; ".aiff" ] in
  PyList.mem ext audio_exts.

(** [find_external_cover] *)
Definition find_external_cover (fs : FS) (src : string) : option string :=
  let src_dir := OsPath.dirname src in
  let cover_names :=
    [ "cover.jpg"; "folder.jpg"; "cover.png"; "folder.png";
      "cover.jpeg"; "folder.jpeg" ] in
  List.find (Os.path_exists fs) (map (OsPath.join src_dir) cover_names).

(** The parameters of [build_ffmpeg_cmd]. *)
Record Args : Type := mkArgs {
  src : string;
  dst : string;
  fmt : string;
  mode : string;
  bitrate : option string;
  vbrq : option string;
  sample_rate : option string;
  channels : option string;
  metadata : list (string * option string);
  copy_meta : bool;
  strip_meta : bool;
  prefer_external_cover : bool;
  normalize_lufs : bool;
  target_lufs : Q;
  threads : Z;
  custom_args : option string;
  video_codec : option string;
  video_bitrate : option string;
  video_quality : option string;
  resolution : option string;
  fps : option string;
  extract_audio_only : bool;
  reduce_size : bool;
  size_reduction_factor : option Q;
  use_hevc : bool;
  two_pass : bool;
  subtitle_track : option Z;
  trim_start : option Q;
  trim_end : option Q;
  fade_in : option Q;
  fade_out : option Q;
  video_trim_start : option Q;
  video_trim_end : option Q;
  crop_x : option Z;
  crop_y : option Z;
  crop_width : option Z;
  crop_height : option Z;
  video_quality_preset : option string;
  audio_track : option Z;
}.

Definition audio_codec_map : gmap string string :=
  list_to_map
    [ ("mp3", "libmp3lame"); ("aac", "aac"); ("m4a", "aac");
      ("opus", "libopus"); ("ogg", "libvorbis"); ("flac", "flac");
      ("wav", "pcm_s16le"); ("aiff", "pcm_s16be"); ("wma", "wmav2");
      ("ac3", "ac3"); ("eac3", "eac3"); ("ape", "ape"); ("tta", "tta");
      ("wv", "wavpack"); ("mp2", "mp2"); ("amr", "amr_nb");
      ("caf", "pcm_s16be"); ("au", "pcm_s16be"); ("mka", "copy") ].

Definition video_codec_map : gmap string string :=
  list_to_map
    [ ("mp4", "libx264"); ("mkv", "libx264"); ("webm", "libvpx-vp9");
      ("avi", "libx264"); ("mov", "libx264"); ("wmv", "wmv2");
      ("flv", "libx264"); ("m4v", "libx264"); ("3gp", "libx264");
      ("ogv", "libtheora") ].

Definition video_audio_codec_map : gmap string string :=
  list_to_map
    [ ("mp4", "aac"); ("mkv", "aac"); ("webm", "libopus"); ("avi", "aac");
      ("mov", "aac"); ("wmv", "wmav2"); ("flv", "aac"); ("m4v", "aac");
      ("3gp", "aac"); ("ogv", "libvorbis") ].

Definition format_map : gmap string string :=
  list_to_map
    [ ("mp4", "mp4"); ("mkv", "matroska"); ("webm", "webm"); ("avi", "avi");
      ("mov", "mov"); ("wmv", "asf"); ("flv", "flv"); ("m4v", "mp4");
      ("3gp", "3gp"); ("ogv", "ogg"); ("mp3", "mp3"); ("aac", "adts");
      ("m4a", "mp4"); ("flac", "flac"); ("wav", "wav"); ("ogg", "ogg");
      ("opus", "ogg") ].

(** the pairs of [quality_map]: (crf, preset) *)
Definition quality_map : gmap string (string * string) :=
  list_to_map
    [ ("low", ("32", "fast")); ("medium", ("28", "medium"));
      ("high", ("23", "slow")); ("ultra", ("18", "veryslow")) ].

(** The arguments for sample rate and channels, shared by the three
    branches. *)
Definition rate_channel_args (a : Args) : list string :=
  (if truthy_opt (sample_rate a)
   then ["-ar"; default "" (sample_rate a)] else []) ++
  (if truthy_opt (channels a)
   then ["-ac"; default "" (channels a)] else []).

(** "Audio trimming": [start] is the integer 0 when [trim_start] is absent. *)
Definition audio_trim_args (h : Host) (a : Args) : list string :=
  if is_Some_b (trim_start a) || is_Some_b (trim_end a) then
    let start := match trim_start a with Some t => t | None => 0%Q end in
    let str_start :=
      match trim_start a with
      | Some t => str_float h t
      | None => str_int 0
      end in
    match trim_end a with
    | Some e =>
        let duration := (e - start)%Q in
        ["-ss"; str_start; "-t"; str_float h duration]
    | None => ["-ss"; str_start]
    end
  else [].

(** "Audio effects" and "Loudness normalization": one [-af] argument. *)
Definition audio_filter_args (h : Host) (a : Args) : list string :=
  let audio_filters :=
    (if truthy_Q (fade_in a)
     then ["afade=t=in:ss=0:d=" +:+ str_float h (default 0%Q (fade_in a))]
     else []) ++
    (if truthy_Q (fade_out a)
     then ["afade=t=out:st=0:d=" +:+ str_float h (default 0%Q (fade_out a))]
     else []) ++
    (if normalize_lufs a
     then ["loudnorm=I=" +:+ str_float h (target_lufs a) +:+ ":TP=-1.5:LRA=11"]
     else []) in
  match audio_filters with
  | [] => []
  | _ => ["-af"; join "," audio_filters]
  end.

(** The VBR and lossless arguments, the same in both audio branches. *)
Definition vbr_args (a : Args) : list string :=
  let q := default "" (vbrq a) in
  let f := lower (fmt a) in
  if String.eqb f "mp3" then ["-q:a"; q]
  else if PyList.mem f ["aac"; "m4a"] then ["-q:a"; q]
  else if String.eqb f "opus"
  then ["-b:a"; "0"; "-vbr"; "on"; "-compression_level"; q]
  else if String.eqb f "ogg" then ["-q:a"; q]
  else [].

Definition lossless_args (a : Args) : list string :=
  if String.eqb (lower (fmt a)) "flac" then ["-compression_level"; "12"]
  else [].

(** The branch "Video to audio extraction". *)
Definition extraction_branch (h : Host) (a : Args) (cmd : list string)
  : list string :=
  let cmd := cmd ++ ["-vn"] in
  let codec := dict_get audio_codec_map (lower (fmt a)) "copy" in
  let cmd := cmd ++ ["-c:a"; codec] in
  let cmd :=
    if String.eqb (mode a) "CBR" && truthy_opt (bitrate a)
    then cmd ++ ["-b:a"; default "" (bitrate a) +:+ "k"]
    else if String.eqb (mode a) "VBR" && truthy_opt (vbrq a)
    then cmd ++ vbr_args a
    else if String.eqb (mode a) "Lossless"
    then cmd ++ lossless_args a
    else cmd in
  let cmd := cmd ++ rate_channel_args a in
  let cmd := cmd ++ audio_trim_args h a in
  cmd ++ audio_filter_args h a.

(** The branch "Audio to audio conversion". *)
Definition audio_branch (h : Host) (a : Args) (cmd : list string)
  : list string :=
  let codec := dict_get audio_codec_map (lower (fmt a)) "copy" in
  let cmd := cmd ++ ["-c:a"; codec] in
  let cmd :=
    if String.eqb (mode a) "CBR" && truthy_opt (bitrate a)
    then
      let f := lower (fmt a) in
      if PyList.mem f ["mp3"; "aac"; "m4a"]
      then cmd ++ ["-b:a"; default "" (bitrate a) +:+ "k"]
      else if String.eqb f "opus"
      then cmd ++ ["-b:a"; default "" (bitrate a) +:+ "k"]
      else if String.eqb f "ogg"
      then cmd ++ ["-b:a"; default "" (bitrate a) +:+ "k"]
      else cmd
    else if String.eqb (mode a) "VBR" && truthy_opt (vbrq a)
    then cmd ++ vbr_args a
    else if String.eqb (mode a) "Lossless"
    then cmd ++ lossless_args a
    else cmd in
  let cmd := cmd ++ rate_channel_args a in
  let cmd := cmd ++ audio_trim_args h a in
  cmd ++ audio_filter_args h a.

(** [cmd[vf_idx + 1] += "," + f] when "-vf" is present, else
    [cmd.extend(["-vf", f])] *)
Definition add_video_filter (f : string) (cmd : list string)
  : result (list string) :=
  if PyList.mem "-vf" cmd then
    vf_idx ← PyList.index "-vf" cmd;
    old ← PyList.get_item (vf_idx + 1) cmd;
    PyList.set_item (vf_idx + 1) (old +:+ "," +:+ f) cmd
  else Ok (cmd ++ ["-vf"; f]).

(** [idx = cmd.index(flag); cmd.pop(idx); cmd.pop(idx)] when the flag is
    present *)
Definition remove_flag (flag : string) (cmd : list string)
  : result (list string) :=
  if PyList.mem flag cmd then
    idx ← PyList.index flag cmd;
    cmd ← PyList.pop idx cmd;
    PyList.pop idx cmd
  else Ok cmd.

Definition is_x26x (vcodec : string) : bool :=
  PyList.mem vcodec ["libx264"; "libx265"].

(** The branch "Video conversion". *)
Definition video_branch (a : Args) (cmd : list string)
  : result (list string) :=
  let f := lower (fmt a) in
  let vcodec :=
    if reduce_size a && use_hevc a then
      if PyList.mem f ["mp4"; "mkv"; "m4v"] then "libx265" else "libx264"
    else if truthy_opt (video_codec a) then default "" (video_codec a)
    else dict_get video_codec_map f "libx264" in
  let cmd := cmd ++ ["-c:v"; vcodec] in
  let audio_map :=
    match audio_track a with
    | Some t => if 0 <=? t then "0:a:" +:+ str_int t else "0:a:0"
    | None => "0:a:0"
    end in
  let cmd :=
    match subtitle_track a with
    | Some t =>
        if 0 <=? t then
          let cmd := cmd ++ ["-map"; "0:v:0"; "-map"; audio_map;
                             "-map"; "0:" +:+ str_int t] in
          if PyList.mem f ["mp4"; "m4v"] then cmd ++ ["-c:s"; "mov_text"]
          else if String.eqb f "mkv" then cmd ++ ["-c:s"; "copy"]
          else cmd ++ ["-c:s"; "mov_text"]
        else cmd ++ ["-map"; "0:v:0"; "-map"; audio_map]
    | None => cmd ++ ["-map"; "0:v:0"; "-map"; audio_map]
    end in
  let cmd :=
    if reduce_size a then
      let crf_value :=
        if truthy_Q (size_reduction_factor a) then
          let factor := default 0%Q (size_reduction_factor a) in
          if Qle_bool 8 factor then "30"
          else if Qle_bool 5 factor then "28"
          else "26"
        else "28" in
      if is_x26x vcodec then
        let cmd := cmd ++ ["-preset"; "slow"] in
        if two_pass a then
          let pass_logfile := dst a +:+ ".ffmpeg2pass" in
          let cmd := cmd ++ ["-pass"; "1"] in
          cmd ++ ["-passlogfile"; pass_logfile]
        else cmd ++ ["-crf"; crf_value]
      else if String.eqb vcodec "libvpx-vp9"
      then cmd ++ ["-crf"; crf_value; "-b:v"; "0"]
      else cmd
    else
      if truthy_opt (video_bitrate a)
      then cmd ++ ["-b:v"; default "" (video_bitrate a) +:+ "k"]
      else if truthy_opt (video_quality a) then
        if is_x26x vcodec
        then cmd ++ ["-crf"; default "" (video_quality a)]
        else if String.eqb vcodec "libvpx-vp9"
        then cmd ++ ["-crf"; default "" (video_quality a); "-b:v"; "0"]
        else cmd
      else cmd in
  cmd ←
    (if truthy_opt (video_quality_preset a) && negb (reduce_size a) then
       match quality_map !! lower (default "" (video_quality_preset a)) with
       | Some (q_crf, q_preset) =>
           if is_x26x vcodec then
             cmd ← remove_flag "-crf" cmd;
             cmd ← remove_flag "-preset" cmd;
             Ok (cmd ++ ["-crf"; q_crf; "-preset"; q_preset])
           else if String.eqb vcodec "libvpx-vp9" then
             cmd ← remove_flag "-crf" cmd;
             Ok (cmd ++ ["-crf"; q_crf; "-b:v"; "0"])
           else Ok cmd
       | None => Ok cmd
       end
     else Ok cmd);
  cmd ←
    (if truthy_Z (crop_width a) && truthy_Z (crop_height a) then
       let crop_filter :=
         "crop=" +:+ str_int (default 0 (crop_width a)) +:+ ":" +:+
         str_int (default 0 (crop_height a)) in
       let crop_filter :=
         match crop_x a, crop_y a with
         | Some x, Some y =>
             crop_filter +:+ ":" +:+ str_int x +:+ ":" +:+ str_int y
         | _, _ => crop_filter
         end in
       add_video_filter crop_filter cmd
     else Ok cmd);
  cmd ←
    (if truthy_opt (resolution a) then
       add_video_filter
         ("scale=" +:+ replace_char "x" ":" (default "" (resolution a))) cmd
     else Ok cmd);
  let cmd :=
    if truthy_opt (fps a) then cmd ++ ["-r"; default "" (fps a)] else cmd in
  let acodec := dict_get video_audio_codec_map f "aac" in
  let cmd := cmd ++ ["-c:a"; acodec] in
  let cmd :=
    if truthy_opt (bitrate a)
    then cmd ++ ["-b:a"; default "" (bitrate a) +:+ "k"]
    else if negb (truthy_opt (bitrate a)) && String.eqb acodec "aac"
    then cmd ++ ["-b:a"; "192k"]
    else cmd in
  let cmd := cmd ++ rate_channel_args a in
  let cmd :=
    if is_x26x vcodec && negb (reduce_size a)
    then cmd ++ ["-preset"; "medium"] else cmd in
  Ok cmd.

Definition is_null_sink (dst : string) : bool :=
  PyList.mem dst ["NUL"; "/dev/null"].

(** The arguments appended after the three branches: metadata, cover
    art, threads, custom arguments, the container format of a null
    sink, and the output. *)
Definition metadata_args (a : Args) : list string :=
  if negb (strip_meta a) then
    (if copy_meta a then ["-map_metadata"; "0"] else []) ++
    flat_map (fun kv : string * option string =>
                if truthy_opt (snd kv)
                then ["-metadata"; fst kv +:+ "=" +:+ default "" (snd kv)]
                else [])
             (metadata a)
  else [].

Definition cover_args (fs : FS) (a : Args) (dst_is_video : bool)
  : list string :=
  if negb dst_is_video && prefer_external_cover a then
    match find_external_cover fs (src a) with
    | Some cover_path =>
        if truthy cover_path && Os.path_exists fs cover_path
        then ["-i"; cover_path; "-map"; "0"; "-map"; "1"; "-c:v"; "copy";
              "-disposition:v"; "attached_pic"]
        else []
    | None => []
    end
  else [].

(** [build_ffmpeg_cmd] *)
Definition build_ffmpeg_cmd (h : Host) (fs : FS) (a : Args)
  : result (list string) :=
  match find_ffmpeg h fs with
  | None =>
      Raise (RuntimeError
        "FFmpeg not found. Please install FFmpeg and ensure it's on PATH.")
  | Some ffmpeg =>
      let src_is_video := is_video_file (src a) in
      let dst_is_video :=
        if is_null_sink (dst a) then src_is_video
        else is_video_file (dst a) in
      let cmd := [ffmpeg] in
      let cmd :=
        match video_trim_start a with
        | Some t => cmd ++ ["-ss"; str_float h t]
        | None => cmd
        end in
      let cmd := cmd ++ ["-i"; src a] in
      let cmd :=
        match video_trim_end a, video_trim_start a with
        | Some e, Some t =>
            let duration := (e - t)%Q in
            cmd ++ ["-t"; str_float h duration]
        | Some e, None => cmd ++ ["-t"; str_float h e]
        | None, _ => cmd
        end in
      cmd ←
        (if extract_audio_only a || (src_is_video && negb dst_is_video)
         then Ok (extraction_branch h a cmd)
         else if dst_is_video then video_branch a cmd
         else Ok (audio_branch h a cmd));
      let cmd := cmd ++ metadata_args a in
      let cmd := cmd ++ cover_args fs a dst_is_video in
      let cmd :=
        if 1 <? threads a then cmd ++ ["-threads"; str_int (threads a)]
        else cmd in
      cmd ←
        (if truthy_opt (custom_args a) then
           extra ← shlex_split h (default "" (custom_args a));
           Ok (cmd ++ extra)
         else Ok cmd);
      let cmd :=
        if is_null_sink (dst a) then
          let ffmpeg_format :=
            dict_get format_map (lower (fmt a)) (lower (fmt a)) in
          cmd ++ ["-f"; ffmpeg_format]
        else cmd in
      Ok (cmd ++ ["-y"; dst a])
  end.

Definition ext_map : gmap string string :=
  list_to_map
    [ ("mp3", ".mp3"); ("aac", ".aac"); ("m4a", ".m4a"); ("opus", ".opus");
      ("ogg", ".ogg"); ("flac", ".flac"); ("wav", ".wav"); ("aiff", ".aiff");
      ("wma", ".wma"); ("ac3", ".ac3"); ("eac3", ".eac3"); ("ape", ".ape");
      ("tta", ".tta"); ("wv", ".wv"); ("mp2", ".mp2"); ("amr", ".amr");
      ("caf", ".caf"); ("au", ".au"); ("mka", ".mka");
      ("mp4", ".mp4"); ("mkv", ".mkv"); ("avi", ".avi"); ("mov", ".mov");
      ("wmv", ".wmv"); ("flv", ".flv"); ("webm", ".webm"); ("m4v", ".m4v");
      ("3gp", ".3gp"); ("ogv", ".ogv") ].

(** [out_path]: the destination path, and the file system after
    [os.makedirs] *)
Definition out_path (h : Host) (fs : FS) (dst_dir src fmt : string)
  : result (FS * string) :=
  let dst_dir := OsPathEnv.expanduser h dst_dir in
  fs ← makedirs h fs dst_dir;
  let src_basename := OsPath.basename src in
  let '(src_name, _) := OsPath.splitext src_basename in
  let ext := dict_get ext_map (lower fmt) ("." +:+ fmt) in
  Ok (fs, OsPath.join dst_dir (src_name +:+ ext)).

End Ffmpeg.

(** ** The regular expressions of the progress reader *)

Module Re.
Import PyStr.

(** two digits, as [int] *)
Definition two_digits (s : string) : option (Z * string) :=
  match s with
  | String a (String b r) =>
      if is_digit a && is_digit b
      then Some (10 * digit_val a + digit_val b, r)
      else None
  | _ => None
  end.

Definition expect (c : ascii) (s : string) : option string :=
  match s with
  | String a r => if Ascii.eqb a c then Some r else None
  | EmptyString => None
  end.

(** \d\d:\d\d:\d\d\.\d\d at the head of [s]: the four groups as [int] *)
Definition match_hms (s : string) : option (Z * Z * Z * Z) :=
  '(h, s) ← two_digits s;
  s ← expect ":" s;
  '(m, s) ← two_digits s;
  s ← expect ":" s;
  '(sec, s) ← two_digits s;
  s ← expect "." s;
  '(ms, _) ← two_digits s;
  Some (h, m, sec, ms).

(** [re.search(label + pattern, s)]: the leftmost position where [at_head]
    accepts what follows [label] *)
Fixpoint search {A} (label : string) (at_head : string -> option A)
    (s : string) : option A :=
  let here :=
    if startswith label s
    then at_head (String.substring (String.length label)
                    (String.length s - String.length label) s)
    else None in
  match here with
  | Some r => Some r
  | None =>
      match s with
      | EmptyString => None
      | String _ s' => search label at_head s'
      end
  end.

(** [re.search(r'Duration: (\d{2}):(\d{2}):(\d{2})\.(\d{2})', s)] *)
Definition search_duration (s : string) : option (Z * Z * Z * Z) :=
  search "Duration: " match_hms s.

(** [re.search(r'time=(\d{2}):(\d{2}):(\d{2})\.(\d{2})', s)] *)
Definition search_time (s : string) : option (Z * Z * Z * Z) :=
  search "time=" match_hms s.

(** the longest prefix of [s] in a character class, and the rest *)
Fixpoint span (cls : ascii -> bool) (s : string) : string * string :=
  match s with
  | String a r =>
      if cls a then let '(p, q) := span cls r in (String a p, q)
      else (EmptyString, s)
  | EmptyString => (EmptyString, EmptyString)
  end.

Definition is_digit_or_dot (c : ascii) : bool :=
  is_digit c || Ascii.eqb c ".".

(** \s*([\d.]+)x at the head of [s] *)
Definition match_speed (s : string) : option string :=
  let '(_, s) := span is_space s in
  let '(g, s) := span is_digit_or_dot s in
  if truthy g then
    match expect "x" s with Some _ => Some g | None => None end
  else None.

(** [re.search(r'speed=\s*([\d.]+)x', s)] *)
Definition search_speed (s : string) : option string :=
  search "speed=" match_speed s.

(** \s*(\d+) at the head of [s] *)
Definition match_frame (s : string) : option string :=
  let '(_, s) := span is_space s in
  let '(g, _) := span is_digit s in
  if truthy g then Some g else None.

(** [re.search(r'frame=\s*(\d+)', s)] *)
Definition search_frame (s : string) : option string :=
  search "frame=" match_frame s.

End Re.

(** ** The worker ([Worker] in [handforge/core/orchestrator.py]) *)

(** The settings dictionary: the keys the core reads; [None] is an
    absent key. *)
Record Settings : Type := mkSettings {
  parallel : option Z;
  on_exists : option string;
  codec_threads : option (gmap string Z);
}.

Module Worker.
Import PyStr.

(** What a worker does that is visible from outside: the three signals,
    and the calls of [run_ffmpeg]. *)
Inductive Event : Type :=
| sig_progress (wid : Z) (progress elapsed eta : Q)
    (speed peak true_peak : string)
| sig_done (wid : Z) (success : bool) (message output_path : string)
| sig_log (wid : Z) (line : string)
| run_ffmpeg (cmd : list string).

(** One observation of a running encoder, in temporal order. The reader
    thread contributes the first three, the run loop the last. *)
Inductive Step : Type :=
| ReaderLine (t_check t_read : Q) (line : string)
    (* [readline()] returned this line *)
| ReaderNoData (t_check : Q)
    (* [readline()] returned nothing *)
| ReaderError (t_check : Q) (e : string)
    (* [readline()] raised an exception with this [str(e)] *)
| MainPoll (current_time : Q) (stopped : bool).
    (* an iteration of the run loop; [stopped] is [self._stopped] once
       the wait on the pause condition is over *)

(** The first encoder process, as the worker observes it. *)
Record Proc : Type := mkProc {
  started : bool;
    (* [run_ffmpeg] returned a process *)
  exited_immediately : option (list string);
    (* [Some out]: [poll()] is not [None] after 0.1 s, and [out] are the
       lines of [proc.stderr.read()] ([[]] for empty output) *)
  steps : list Step;
  exit_code : option Z;
    (* [proc.wait(timeout=3600)]: [None] is [TimeoutExpired] *)
  tail_reader : list string;
    (* the lines the reader thread gets from its final [read()] *)
  tail_main : list string;
    (* the lines left for the first [proc.stderr.read()] of [run] *)
  fs_after : FS;
    (* the file system once the process has exited *)
}.

(** The second encoder process of a two-pass job. *)
Record Proc2 : Type := mkProc2 {
  started2 : bool;
  stopped2 : bool;
    (* [self._stopped] is seen by the loop before the process exits *)
  exit_code2 : Z;
  end_time2 : Q;
  fs_after2 : FS;
}.

(** Everything outside the worker that decides one execution of [run]. *)
Record World : Type := mkWorld {
  stopped_at_start : bool;
    (* [self._stopped] once the initial wait on the pause condition is over *)
  start_time : Q;
  loop_start_time : Q;
    (* [time.time()] when the run loop is entered *)
  pass1 : Proc;
  pass2 : Proc2;
}.

(** *** The monad of [run]: file system state, emitted events, and the
    three ways a statement ends *)

Inductive outcome (A : Type) : Type :=
| Value (a : A)
| Returned          (* a [return] statement of [run] was executed *)
| Raised (e : exn).
Arguments Value {A} a.
Arguments Returned {A}.
Arguments Raised {A} e.

Definition M (A : Type) : Type := FS -> list Event * FS * outcome A.

Definition ret {A} (a : A) : M A := fun fs => ([], fs, Value a).

Definition bind {A B} (m : M A) (k : A -> M B) : M B := fun fs =>
  let '(t1, fs1, o) := m fs in
  match o with
  | Value a => let '(t2, fs2, o2) := k a fs1 in (t1 ++ t2, fs2, o2)
  | Returned => (t1, fs1, Returned)
  | Raised e => (t1, fs1, Raised e)
  end.

#[global] Instance M_ret : MRet M := @ret.
#[global] Instance M_bind : MBind M := fun A B k m => bind m k.

Definition emit (e : Event) : M unit := fun fs => ([e], fs, Value tt).
Definition return_ {A} : M A := fun fs => ([], fs, Returned).
Definition raise {A} (e : exn) : M A := fun fs => ([], fs, Raised e).
Definition get_fs : M FS := fun fs => ([], fs, Value fs).
Definition put_fs (fs : FS) : M unit := fun _ => ([], fs, Value tt).

Definition lift {A} (r : result A) : M A :=
  match r with Ok a => ret a | Raise e => raise e end.

(** [try: m except: handler] *)
Definition try_except {A} (m : M A) (handler : exn -> M A) : M A := fun fs =>
  let '(t1, fs1, o) := m fs in
  match o with
  | Raised e => let '(t2, fs2, o2) := handler e fs1 in (t1 ++ t2, fs2, o2)
  | _ => (t1, fs1, o)
  end.

Fixpoint emit_all (l : list Event) : M unit :=
  match l with
  | [] => ret tt
  | e :: l' => _ ← emit e; emit_all l'
  end.

(** *** The progress reader ([read_stderr]) *)

Definition nl : string := String (ascii_of_nat 10) EmptyString.

(** [a < b] on floats *)
Definition Qlt_bool (a b : Q) : bool := negb (Qle_bool b a).

(** [h * 3600 + m * 60 + s + ms / 100.0] *)
Definition hms_seconds (g : Z * Z * Z * Z) : Q :=
  let '(h, m, s, ms) := g in
  (inject_Z (h * 3600 + m * 60 + s) + inject_Z ms / 100)%Q.

(** [f"{x:.2f}"] for [x = hms_seconds g] *)
Definition hms_2f (g : Z * Z * Z * Z) : string :=
  let '(h, m, s, ms) := g in
  str_int (h * 3600 + m * 60 + s) +:+ "." +:+
  (if ms <? 10 then "0" else "") +:+ str_int ms.

(** [min(99.0, (current_seconds / duration_seconds) * 100.0)] *)
Definition progress_of (current_seconds duration_seconds : Q) : Q :=
  Qmin 99 (current_seconds / duration_seconds * 100).

(** The variables of [read_stderr] that live across iterations. *)
Record Reader : Type := mkReader {
  duration_seconds : option Q;
  last_progress_time : Q;
  stderr_buffer : list string;
}.

(** The check at the head of each iteration of the reader. *)
Definition watchdog (wid : Z) (r : Reader) (t_check : Q) : list Event :=
  let no_output_timeout := 30%Q in
  if Qlt_bool no_output_timeout (t_check - last_progress_time r)
     && negb (Ffmpeg.is_Some_b (duration_seconds r))
  then [sig_log wid
          "Warning: No output from FFmpeg for 30.0s. Process may be stuck."]
  else [].

(** The body of [if line_str:] for one stripped, non-empty line. *)
Definition reader_parse (wid : Z) (start_time : Q) (r : Reader)
    (t_read : Q) (line_str : string) : list Event * Reader :=
  let ev_line := [sig_log wid line_str] in
  let '(duration, ev_duration) :=
    match duration_seconds r with
    | None =>
        match Re.search_duration line_str with
        | Some g =>
            (Some (hms_seconds g),
             [sig_log wid ("Detected duration: " +:+ hms_2f g +:+ "s")])
        | None => (None, [])
        end
    | Some d => (Some d, [])
    end in
  let ev_frame :=
    if contains "frame=" line_str && negb (Ffmpeg.is_Some_b duration) then
      match Re.search_frame line_str with
      | Some g =>
          [sig_log wid ("Processing frames... (frame " +:+ g +:+ ")")]
      | None => []
      end
    else [] in
  let ev_progress :=
    match Re.search_time line_str with
    | Some g =>
        if Ffmpeg.truthy_Q duration then
          let d := default 0%Q duration in
          let current_seconds := hms_seconds g in
          if Qlt_bool 0 d then
            let progress := progress_of current_seconds d in
            let elapsed := (t_read - start_time)%Q in
            let remaining :=
              if Qlt_bool current_seconds d
              then (d - current_seconds)%Q else 0%Q in
            let speed_str :=
              match Re.search_speed line_str with
              | Some g => g +:+ "x"
              | None => "1.0x"
              end in
            [sig_progress wid progress elapsed remaining speed_str "" ""]
          else []
        else ev_frame
    | None => ev_frame
    end in
  (ev_line ++ ev_duration ++ ev_progress,
   mkReader duration t_read (stderr_buffer r ++ [line_str])).

(** One iteration of [while proc.poll() is None] in [read_stderr]. *)
Definition reader_step (wid : Z) (start_time : Q) (r : Reader) (s : Step)
  : list Event * Reader :=
  match s with
  | ReaderLine t_check t_read line =>
      let ev_w := watchdog wid r t_check in
      if truthy line then
        let line_str := strip line in
        if truthy line_str then
          let '(ev, r') := reader_parse wid start_time r t_read line_str in
          (ev_w ++ ev, r')
        else (ev_w, r)
      else (ev_w, r)
  | ReaderNoData t_check => (watchdog wid r t_check, r)
  | ReaderError t_check e =>
      (watchdog wid r t_check ++
       (if negb (contains "peek" (lower e))
        then [sig_log wid ("Read error: " +:+ e)] else []),
       r)
  | MainPoll _ _ => ([], r)
  end.

(** The percentages of the progress events of a trace. *)
Definition percentages (t : list Event) : list Q :=
  flat_map (fun e =>
              match e with
              | sig_progress _ p _ _ _ _ _ => [p]
              | _ => []
              end) t.

(** The events of the reader thread alone. *)
Fixpoint reader_events (wid : Z) (start_time : Q) (r : Reader)
    (ss : list Step) : list Event :=
  match ss with
  | [] => []
  | s :: ss' =>
      let '(e, r') := reader_step wid start_time r s in
      e ++ reader_events wid start_time r' ss'
  end.

(** The position, in seconds, that a line of the encoder reports: what
    the pattern of [progress_match] finds in it. *)
Definition position_of (s : Step) : list Q :=
  match s with
  | ReaderLine _ _ line =>
      if truthy line && truthy (strip line) then
        match Re.search_time (strip line) with
        | Some g => [hms_seconds g]
        | None => []
        end
      else []
  | _ => []
  end.

Definition positions (ss : list Step) : list Q := flat_map position_of ss.

(** "Read remaining": the lines of the final [read()] are logged, not
    parsed. *)
Definition reader_tail (wid : Z) (lines : list string) : list Event :=
  flat_map (fun line =>
              let line_str := strip line in
              if truthy line_str then [sig_log wid line_str] else [])
           lines.

(** *** The run loop *)

(** The variables of [run] that the loop changes. [elapsed] is [None]
    until the first assignment to it; [left] records that the loop was
    left through [break]. *)
Record Loop : Type := mkLoop {
  last_check_time : Q;
  elapsed : option Q;
  left : bool;
}.

(** One iteration of [while proc.poll() is None] in [run]. *)
Definition main_step (wid : Z) (start_time : Q) (l : Loop) (s : Step)
  : list Event * Loop :=
  match s with
  | MainPoll current_time stopped =>
      if left l then ([], l)
      else if stopped then ([], mkLoop (last_check_time l) (elapsed l) true)
      else if Qlt_bool 5 (current_time - last_check_time l) then
        let elapsed := (current_time - start_time)%Q in
        ([sig_progress wid (1 # 10) elapsed 0 "?" "" ""],
         mkLoop current_time (Some elapsed) false)
      else ([], l)
  | _ => ([], l)
  end.

(** The reader thread and the run loop, interleaved as the steps say. *)
Fixpoint monitor (wid : Z) (start_time : Q) (r : Reader) (l : Loop)
    (ss : list Step) : list Event * Reader * Loop :=
  match ss with
  | [] => ([], r, l)
  | s :: ss' =>
      let '(e1, r') := reader_step wid start_time r s in
      let '(e2, l') := main_step wid start_time l s in
      let '(es, r'', l'') := monitor wid start_time r' l' ss' in
      (e1 ++ e2 ++ es, r'', l'')
  end.

(** *** [run] *)

(** [f"{base} ({counter}){ext}"] *)
Definition candidate (base ext : string) (counter : Z) : string :=
  base +:+ " (" +:+ str_int counter +:+ ")" +:+ ext.

(** The [while os.path.exists(dst)] loop of the rename policy. *)
Fixpoint rename_loop (fuel : nat) (fs : FS) (base ext dst : string)
    (counter : Z) : option string :=
  match fuel with
  | O => None
  | S fuel' =>
      if Os.path_exists fs dst
      then rename_loop fuel' fs base ext (candidate base ext counter)
             (counter + 1)
      else Some dst
  end.

(** The rename policy: the loop cannot test more names than the file
    system holds, so the default is never taken. *)
Definition rename (fs : FS) (dst : string) : string :=
  let '(base, ext) := OsPath.splitext dst in
  let counter := 1 in
  default dst (rename_loop (S (S (size fs))) fs base ext dst counter).

(** "Check if output exists" *)
Definition resolve_existing (wid : Z) (settings : Settings) (dst : string)
  : M string :=
  fs ← get_fs;
  if Os.path_exists fs dst then
    let on_exists := default "overwrite" (on_exists settings) in
    if String.eqb on_exists "skip" then
      _ ← emit (sig_done wid true "Skipped (file exists)" dst);
      return_
    else if String.eqb on_exists "rename" then ret (rename fs dst)
    else ret dst
  else ret dst.

(** [self.job.two_pass and self.job.reduce_size and not
    self.job.extract_audio_only] *)
Definition two_pass_applies (job : Models.Job) : bool :=
  Models.two_pass job && Models.reduce_size job
  && negb (Models.extract_audio_only job).

Definition null_sink (h : Host) : string :=
  if String.eqb (platform_system h) "Windows" then "NUL" else "/dev/null".

Definition first_pass_dst (h : Host) (job : Models.Job) (dst : string)
  : string :=
  if two_pass_applies job then null_sink h else dst.

Definition job_metadata (job : Models.Job) : list (string * option string) :=
  if negb (Models.strip_meta job) then
    [ ("title", Models.meta_title job); ("artist", Models.meta_artist job);
      ("album", Models.meta_album job); ("year", Models.meta_year job);
      ("genre", Models.meta_genre job); ("track", Models.meta_track job) ]
  else [].

(** The arguments of the first call of [build_ffmpeg_cmd]. *)
Definition build_args (job : Models.Job) (dst : string) : Ffmpeg.Args :=
  {| Ffmpeg.src := Models.src job;
     Ffmpeg.dst := dst;
     Ffmpeg.fmt := Models.format job;
     Ffmpeg.mode := Models.mode job;
     Ffmpeg.bitrate := Models.bitrate job;
     Ffmpeg.vbrq := Models.vbrq job;
     Ffmpeg.sample_rate := Models.sample_rate job;
     Ffmpeg.channels := Models.channels job;
     Ffmpeg.metadata := job_metadata job;
     Ffmpeg.copy_meta := Models.copy_meta job && negb (Models.strip_meta job);
     Ffmpeg.strip_meta := false;
     Ffmpeg.prefer_external_cover := Models.prefer_external_cover job;
     Ffmpeg.normalize_lufs := Models.normalize_lufs job;
     Ffmpeg.target_lufs := Models.target_lufs job;
     Ffmpeg.threads := Models.threads job;
     Ffmpeg.custom_args := Models.custom_args job;
     Ffmpeg.video_codec := Models.video_codec job;
     Ffmpeg.video_bitrate := Models.video_bitrate job;
     Ffmpeg.video_quality := Models.video_quality job;
     Ffmpeg.resolution := Models.resolution job;
     Ffmpeg.fps := Models.fps job;
     Ffmpeg.extract_audio_only := Models.extract_audio_only job;
     Ffmpeg.reduce_size := Models.reduce_size job;
     Ffmpeg.size_reduction_factor := Models.size_reduction_factor job;
     Ffmpeg.use_hevc := Models.use_hevc job;
     Ffmpeg.two_pass := Models.two_pass job;
     Ffmpeg.subtitle_track := Models.subtitle_track job;
     Ffmpeg.trim_start := Models.trim_start job;
     Ffmpeg.trim_end := Models.trim_end job;
     Ffmpeg.fade_in := Models.fade_in job;
     Ffmpeg.fade_out := Models.fade_out job;
     Ffmpeg.video_trim_start := Models.video_trim_start job;
     Ffmpeg.video_trim_end := Models.video_trim_end job;
     Ffmpeg.crop_x := Models.crop_x job;
     Ffmpeg.crop_y := Models.crop_y job;
     Ffmpeg.crop_width := Models.crop_width job;
     Ffmpeg.crop_height := Models.crop_height job;
     Ffmpeg.video_quality_preset := Models.video_quality_preset job;
     Ffmpeg.audio_track := Models.audio_track job |}.

(** The arguments of the call in the fallback of the second pass:
    [two_pass=False], and the parameters after it left at their
    defaults. *)
Definition rebuild_args (job : Models.Job) (dst : string) : Ffmpeg.Args :=
  {| Ffmpeg.src := Models.src job;
     Ffmpeg.dst := dst;
     Ffmpeg.fmt := Models.format job;
     Ffmpeg.mode := Models.mode job;
     Ffmpeg.bitrate := Models.bitrate job;
     Ffmpeg.vbrq := Models.vbrq job;
     Ffmpeg.sample_rate := Models.sample_rate job;
     Ffmpeg.channels := Models.channels job;
     Ffmpeg.metadata := job_metadata job;
     Ffmpeg.copy_meta := Models.copy_meta job && negb (Models.strip_meta job);
     Ffmpeg.strip_meta := false;
     Ffmpeg.prefer_external_cover := Models.prefer_external_cover job;
     Ffmpeg.normalize_lufs := Models.normalize_lufs job;
     Ffmpeg.target_lufs := Models.target_lufs job;
     Ffmpeg.threads := Models.threads job;
     Ffmpeg.custom_args := Models.custom_args job;
     Ffmpeg.video_codec := Models.video_codec job;
     Ffmpeg.video_bitrate := Models.video_bitrate job;
     Ffmpeg.video_quality := Models.video_quality job;
     Ffmpeg.resolution := Models.resolution job;
     Ffmpeg.fps := Models.fps job;
     Ffmpeg.extract_audio_only := Models.extract_audio_only job;
     Ffmpeg.reduce_size := Models.reduce_size job;
     Ffmpeg.size_reduction_factor := Models.size_reduction_factor job;
     Ffmpeg.use_hevc := Models.use_hevc job;
     Ffmpeg.two_pass := false;
     Ffmpeg.subtitle_track := None;
     Ffmpeg.trim_start := None;
     Ffmpeg.trim_end := None;
     Ffmpeg.fade_in := None;
     Ffmpeg.fade_out := None;
     Ffmpeg.video_trim_start := None;
     Ffmpeg.video_trim_end := None;
     Ffmpeg.crop_x := None;
     Ffmpeg.crop_y := None;
     Ffmpeg.crop_width := None;
     Ffmpeg.crop_height := None;
     Ffmpeg.video_quality_preset := None;
     Ffmpeg.audio_track := None |}.

(** The lines of a diagnostic text that contain one of the words. *)
Definition error_lines (words : list string) (lines : list string)
  : list string :=
  List.filter (fun l => truthy (strip l)
                        && existsb (fun w => contains w (lower l)) words)
              lines.

(** "Process finished immediately": the message from the diagnostic
    output. *)
Definition immediate_exit_message (stderr_output : list string) : string :=
  match stderr_output with
  | [] => "FFmpeg process exited immediately"
  | _ =>
      match error_lines ["error"; "failed"; "invalid"] stderr_output with
      | [] => slice_to 300 (join nl (last_n 3 stderr_output))
      | ls => slice_to 300 (List.last ls "")
      end
  end.

(** The message of the branch [return_code != 0], from the text that
    [proc.stderr.read()] returns there. *)
Definition failure_message (return_code : Z) (stderr_text : list string)
  : string :=
  match stderr_text with
  | [] => "Conversion failed with exit code " +:+ str_int return_code
  | _ =>
      match error_lines ["error"; "failed"] stderr_text with
      | [] =>
          let text := join nl stderr_text in
          if (200 <? String.length text)%nat then slice_last 200 text
          else text
      | ls => slice_to 200 (List.last ls "")
      end
  end.

(** [pipe.read()]: all that is left in the pipe of a process that has
    exited, and the pipe at its end. *)
Definition read (pipe : list string) : list string * list string :=
  (pipe, []).

(** The name [elapsed] in [run]: a local variable, bound by the
    heartbeat or by the second pass. *)
Definition load_elapsed (h : Host) (elapsed : option Q) : M Q :=
  match elapsed with
  | Some e => ret e
  | None => raise (UnboundLocalError (unbound_local_msg h "elapsed"))
  end.

(** The name [speed_str] in [run]. Its only assignment is in
    [read_stderr], which makes it a local variable of that function; in
    [run] the name is looked up among the globals of the module, where
    it is not defined. *)
Definition load_speed_str : M string :=
  raise (NameError "name 'speed_str' is not defined").

(** [self.sig_progress.emit(self.wid, 100.0, elapsed, 0.0, speed_str,
    peak, true_peak)]: the arguments are evaluated from left to right. *)
Definition emit_final_progress (h : Host) (wid : Z) (elapsed : option Q)
  : M unit :=
  elapsed ← load_elapsed h elapsed;
  speed_str ← load_speed_str;
  emit (sig_progress wid 100 elapsed 0 speed_str "" "").

(** "Update command for second pass", with its fallback. *)
Definition second_pass_cmd (h : Host) (fs : FS) (job : Models.Job)
    (cmd : list string) (first_pass_dst dst : string)
  : result (list string) :=
  let patched :=
    pass_idx ← PyList.index "-pass" cmd;
    cmd ← PyList.set_item (pass_idx + 1) "2" cmd;
    output_idx ← PyList.index first_pass_dst cmd;
    PyList.set_item output_idx dst cmd in
  let fallback :=
    cmd ← Ffmpeg.build_ffmpeg_cmd h fs (rebuild_args job dst);
    match PyList.index "-passlogfile" cmd with
    | Ok passlog_idx =>
        let i := Z.of_nat passlog_idx + 2 in
        let cmd := PyList.insert i "2" cmd in
        Ok (PyList.insert i "-pass" cmd)
    | Raise (ValueError _) =>
        let pass_logfile := dst +:+ ".ffmpeg2pass" in
        output_idx ← PyList.index dst cmd;
        let i := Z.of_nat output_idx - 1 in
        let cmd := PyList.insert i pass_logfile cmd in
        let cmd := PyList.insert i "-passlogfile" cmd in
        let cmd := PyList.insert i "2" cmd in
        Ok (PyList.insert i "-pass" cmd)
    | Raise e => Raise e
    end in
  match patched with
  | Ok cmd => Ok cmd
  | Raise (ValueError _) | Raise (IndexError _) => fallback
  | Raise e => Raise e
  end.

(** [if os.path.exists(p): os.remove(p)] *)
Definition remove_if_exists (p : string) : M unit :=
  fs ← get_fs;
  if Os.path_exists fs p then
    fs ← lift (Os.remove fs p);
    put_fs fs
  else ret tt.

(** "Clean up two-pass log file" *)
Definition cleanup_pass_logs (dst : string) : M unit :=
  try_except
    (_ ← remove_if_exists (dst +:+ ".ffmpeg2pass-0.log");
     remove_if_exists (dst +:+ ".ffmpeg2pass-0.log.mbtree"))
    (fun _ => ret tt).

(** "Handle two-pass encoding if enabled (second pass)": the new
    [return_code] and the value of [elapsed]. *)
Definition second_pass (h : Host) (w : World) (wid : Z) (job : Models.Job)
    (cmd : list string) (first_pass_dst dst : string)
    (return_code : Z) (elapsed : option Q) : M (Z * option Q) :=
  if two_pass_applies job && (return_code =? 0) then
    fs ← get_fs;
    cmd ← lift (second_pass_cmd h fs job cmd first_pass_dst dst);
    let p2 := pass2 w in
    _ ← emit (run_ffmpeg cmd);
    if started2 p2 then
      _ ← put_fs (fs_after2 p2);
      '(return_code, elapsed) ←
        (if stopped2 p2 then ret (1, elapsed)
         else
           let return_code := exit_code2 p2 in
           let elapsed := Some (end_time2 p2 - start_time w)%Q in
           _ ← emit_final_progress h wid elapsed;
           ret (return_code, elapsed));
      _ ← cleanup_pass_logs dst;
      ret (return_code, elapsed)
    else ret (1, elapsed)
  else ret (return_code, elapsed).

(** The branch [return_code == 0] after the final progress event. *)
Definition finish_success (wid : Z) (job : Models.Job) (dst : string)
  : M unit :=
  fs ← get_fs;
  if negb (Os.path_exists fs dst) then
    _ ← emit (sig_done wid false
                ("Conversion completed but output file not found: " +:+ dst)
                "");
    return_
  else
    _ ← try_except
          (output_size ← lift (Os.getsize fs dst);
           if output_size <? 1024 then
             _ ← emit (sig_done wid false
                         ("Output file is too small (" +:+
                          str_int output_size +:+
                          " bytes) - conversion may have failed") dst);
             return_
           else ret tt)
          (fun _ => ret tt);
    if Models.delete_original job && Os.path_exists fs (Models.src job) then
      try_except
        (fs ← lift (Os.remove fs (Models.src job));
         _ ← put_fs fs;
         emit (sig_done wid true
                 ("Conversion completed, original file deleted" +:+ nl +:+
                  "Saved to: " +:+ dst) dst))
        (fun e =>
           emit (sig_done wid true
                   ("Conversion completed, but failed to delete original: "
                    +:+ str_exn e +:+ nl +:+ "Saved to: " +:+ dst) dst))
    else
      emit (sig_done wid true
              ("Conversion completed successfully" +:+ nl +:+
               "Saved to: " +:+ dst) dst).

(** The branch [return_code != 0]. *)
Definition finish_failure (wid : Z) (return_code : Z) (pipe : list string)
  : M unit :=
  let '(stderr_text, _) := read pipe in
  emit (sig_done wid false (failure_message return_code stderr_text) "").

(** "Read any remaining stderr output": the last five lines are logged. *)
Definition log_remaining (wid : Z) (remaining_stderr : list string)
  : list Event :=
  flat_map (fun line =>
              if truthy (strip line) then [sig_log wid (strip line)] else [])
           (last_n 5 remaining_stderr).

(** The first part of the body of [run], up to the command of the first
    pass: the destination, the destination of the first pass and the
    command. *)
Definition run_prepare (h : Host) (w : World) (wid : Z) (job : Models.Job)
    (settings : Settings) : M (string * string * list string) :=
  if stopped_at_start w then
    _ ← emit (sig_done wid false "Stopped by user" "");
    return_
  else
  fs ← get_fs;
  if negb (Os.path_exists fs (Models.src job)) then
    _ ← emit (sig_done wid false
                ("Source file not found: " +:+ Models.src job) "");
    return_
  else
  '(fs, dst) ← lift (Ffmpeg.out_path h fs (Models.dst_dir job)
                        (Models.src job) (Models.format job));
  _ ← put_fs fs;
  dst ← resolve_existing wid settings dst;
  let first_pass_dst := first_pass_dst h job dst in
  fs ← get_fs;
  cmd ← lift (Ffmpeg.build_ffmpeg_cmd h fs (build_args job first_pass_dst));
  ret (dst, first_pass_dst, cmd).

(** The second part: the encoder processes and the completion event. *)
Definition run_encode (h : Host) (w : World) (wid : Z) (job : Models.Job)
    (dst first_pass_dst : string) (cmd : list string) : M unit :=
  let start_time := start_time w in
  _ ← emit (sig_log wid ("Starting conversion: " +:+
                         OsPath.basename (Models.src job)));
  _ ← emit (sig_log wid ("Format: " +:+ Models.format job +:+ ", Mode: " +:+
                         Models.mode job));
  _ ← emit (sig_log wid ("Output: " +:+ dst));
  _ ← emit (sig_log wid ("FFmpeg command: " +:+ join " " (take 10 cmd) +:+
                         "..."));
  let proc := pass1 w in
  _ ← emit (run_ffmpeg cmd);
  if negb (started proc) then
    _ ← emit (sig_done wid false
                "Failed to start FFmpeg - check if FFmpeg is installed and on PATH"
                "");
    return_
  else
  match exited_immediately proc with
  | Some stderr_output =>
      let error_msg := immediate_exit_message stderr_output in
      _ ← emit (sig_log wid ("Error: " +:+ error_msg));
      _ ← emit (sig_done wid false error_msg "");
      return_
  | None =>
      _ ← emit (sig_log wid "Reading FFmpeg output...");
      let '(events, reader, loop) :=
        monitor wid start_time (mkReader None start_time [])
          (mkLoop (loop_start_time w) None false) (steps proc) in
      _ ← emit_all events;
      match exit_code proc with
      | None =>
          _ ← emit (sig_done wid false "Conversion timed out after 1 hour" "");
          return_
      | Some return_code =>
          _ ← put_fs (fs_after proc);
          _ ← emit_all (reader_tail wid (tail_reader proc));
          '(return_code, elapsed) ←
            second_pass h w wid job cmd first_pass_dst dst return_code
              (elapsed loop);
          let '(remaining_stderr, pipe) := read (tail_main proc) in
          _ ← emit_all (log_remaining wid remaining_stderr);
          if return_code =? 0 then
            _ ← emit_final_progress h wid elapsed;
            finish_success wid job dst
          else finish_failure wid return_code pipe
      end
  end.

(** The body of the [try] statement of [run]. *)
Definition run_body (h : Host) (w : World) (wid : Z) (job : Models.Job)
    (settings : Settings) : M unit :=
  '(dst, first_pass_dst, cmd) ← run_prepare h w wid job settings;
  run_encode h w wid job dst first_pass_dst cmd.

(** [Worker.run]: the events of one execution, and the file system it
    leaves. An exception that leaves the body is reported by a
    completion event. *)
Definition run (h : Host) (w : World) (wid : Z) (job : Models.Job)
    (settings : Settings) (fs : FS) : list Event * FS :=
  let '(events, fs, o) := run_body h w wid job settings fs in
  match o with
  | Raised e =>
      (events ++ [sig_done wid false ("Error: " +:+ str_exn e) ""], fs)
  | _ => (events, fs)
  end.

(** The calls of [run_ffmpeg] in a trace, and its completion events. *)
Definition invocations (t : list Event) : list (list string) :=
  flat_map (fun e => match e with run_ffmpeg cmd => [cmd] | _ => [] end) t.

(** A computation that never calls [run_ffmpeg]. *)
Definition quiet {A} (m : M A) : Prop :=
  forall fs, invocations (m fs).1.1 = [].

Definition completions (t : list Event) : list (bool * string * string) :=
  flat_map (fun e =>
              match e with
              | sig_done _ ok msg out => [(ok, msg, out)]
              | _ => []
              end) t.


End Worker.

(** ** The orchestrator ([Orchestrator] in [handforge/core/orchestrator.py]) *)

Module Orchestrator.

(** A [Job] is a Python object: the queue and the workers hold
    references to it, and [job.threads = v] changes the object itself.
    [loc] names an object and [Heap] holds the objects. *)
Definition loc : Type := nat.
Definition Heap : Type := loc -> Models.Job.

(** [h[l].threads = v] *)
Definition heap_set_threads (l : loc) (v : Z) (h : Heap) : Heap :=
  fun l' => if Nat.eqb l' l then Models.set_threads v (h l') else h l'.

(** What the orchestrator keeps of a [Worker]: the arguments of its
    constructor and its two flags. *)
Record worker : Type := mkWorker {
  w_wid : Z;
  w_job : loc;
  w_settings : Settings;
  w_paused : bool;
  w_stopped : bool;
}.

(** [Worker.pause], [Worker.resume], [Worker.stop] *)
Definition pause (w : worker) : worker :=
  mkWorker (w_wid w) (w_job w) (w_settings w) true (w_stopped w).
Definition resume (w : worker) : worker :=
  mkWorker (w_wid w) (w_job w) (w_settings w) false (w_stopped w).
Definition stop (w : worker) : worker :=
  mkWorker (w_wid w) (w_job w) (w_settings w) false true.

(** The attributes of the orchestrator, and the heap of jobs. *)
Record State : Type := mkState {
  threads_per_job : Z;
  max_parallel : Z;
  workers : gmap Z worker;
  job_queue : list loc;
  settings : Settings;
  next_wid : Z;
  jobs : Heap;
}.

(** The signals of the orchestrator that the two operations below emit,
    the assignments to [job.threads] and the calls of [worker.start()]. *)
Inductive Event : Type :=
| sig_worker_started (wid : Z) (file_path : string)
| sig_worker_done (wid : Z) (success : bool) (message output_path : string)
| assign_threads (job : loc) (v : Z)
| worker_start (wid : Z) (job : loc).

(** [Orchestrator.__init__] *)
Definition init (threads_per_job max_parallel : Z) (jobs : Heap) : State :=
  mkState threads_per_job max_parallel ∅ [] (mkSettings None None None) 1 jobs.

(** [set_settings] *)
Definition set_settings (s : Settings) (st : State) : State :=
  mkState (threads_per_job st) (default 2 (parallel s)) (workers st)
    (job_queue st) s (next_wid st) (jobs st).

(** [len(self.workers) < self.max_parallel and self.job_queue] *)
Definition guard (st : State) : bool :=
  (Z.of_nat (size (workers st)) <? max_parallel st)
  && negb (bool_decide (job_queue st = [])).

(** [codec_threads.get(job.format, 1)] with
    [codec_threads = self.settings.get("codec_threads", {})] *)
Definition thread_count (s : Settings) (fmt : string) : Z :=
  let codec_threads := default ∅ (codec_threads s) in
  default 1 (codec_threads !! fmt).

(** One iteration of the loop of [_process_queue]: [None] when the
    condition of the loop is false. *)
Definition admit_one (st : State) : option (list Event * State) :=
  if guard st then
    match job_queue st with
    | [] => None
    | job :: rest =>
        let wid := next_wid st in
        let v := thread_count (settings st) (Models.format (jobs st job)) in
        let jobs' := heap_set_threads job v (jobs st) in
        let w := mkWorker wid job (settings st) false false in
        Some ([ assign_threads job v;
                sig_worker_started wid (Models.src (jobs' job));
                worker_start wid job ],
              mkState (threads_per_job st) (max_parallel st)
                (<[wid := w]> (workers st)) rest (settings st) (wid + 1)
                jobs')
    end
  else None.

(** The loop of [_process_queue]; every iteration pops a job, so the
    length of the queue bounds the number of iterations. *)
Fixpoint process_queue_loop (fuel : nat) (st : State) : list Event * State :=
  match fuel with
  | O => ([], st)
  | S fuel' =>
      match admit_one st with
      | Some (e, st') =>
          let '(es, st'') := process_queue_loop fuel' st' in (e ++ es, st'')
      | None => ([], st)
      end
  end.

(** [_process_queue] *)
Definition process_queue (st : State) : list Event * State :=
  process_queue_loop (length (job_queue st)) st.

(** [enqueue] *)
Definition enqueue (js : list loc) (st : State) : list Event * State :=
  process_queue
    (mkState (threads_per_job st) (max_parallel st) (workers st)
       (job_queue st ++ js) (settings st) (next_wid st) (jobs st)).

(** [_on_worker_done] *)
Definition on_worker_done (wid : Z) (success : bool)
    (message output_path : string) (st : State) : list Event * State :=
  let st1 :=
    mkState (threads_per_job st) (max_parallel st) (delete wid (workers st))
      (job_queue st) (settings st) (next_wid st) (jobs st) in
  let '(es, st2) := process_queue st1 in
  (sig_worker_done wid success message output_path :: es, st2).

Definition with_workers (ws : gmap Z worker) (st : State) : State :=
  mkState (threads_per_job st) (max_parallel st) ws (job_queue st)
    (settings st) (next_wid st) (jobs st).

(** [pause_worker], [resume_worker], [stop_worker] *)
Definition pause_worker (wid : Z) (st : State) : State :=
  with_workers (alter pause wid (workers st)) st.
Definition resume_worker (wid : Z) (st : State) : State :=
  with_workers (alter resume wid (workers st)) st.
Definition stop_worker (wid : Z) (st : State) : State :=
  with_workers (alter stop wid (workers st)) st.

(** [pause_all], [resume_all] *)
Definition pause_all (st : State) : State :=
  with_workers (pause <$> workers st) st.
Definition resume_all (st : State) : State :=
  with_workers (resume <$> workers st) st.

(** [stop_all]: once every worker has stopped, both containers are
    cleared. *)
Definition stop_all (st : State) : State :=
  mkState (threads_per_job st) (max_parallel st) ∅ [] (settings st)
    (next_wid st) (jobs st).

(** The calls a client and the workers make on the orchestrator. *)
Inductive Op : Type :=
| Enqueue (js : list loc)
| WorkerDone (wid : Z) (success : bool) (message output_path : string)
| SetSettings (s : Settings)
| PauseWorker (wid : Z)
| ResumeWorker (wid : Z)
| StopWorker (wid : Z)
| PauseAll
| ResumeAll
| StopAll.

Definition step (op : Op) (st : State) : list Event * State :=
  match op with
  | Enqueue js => enqueue js st
  | WorkerDone wid ok msg out => on_worker_done wid ok msg out st
  | SetSettings s => ([], set_settings s st)
  | PauseWorker wid => ([], pause_worker wid st)
  | ResumeWorker wid => ([], resume_worker wid st)
  | StopWorker wid => ([], stop_worker wid st)
  | PauseAll => ([], pause_all st)
  | ResumeAll => ([], resume_all st)
  | StopAll => ([], stop_all st)
  end.

(** A sequence of calls, in order. *)
Fixpoint steps (ops : list Op) (st : State) : list Event * State :=
  match ops with
  | [] => ([], st)
  | op :: ops' =>
      let '(e, st') := step op st in
      let '(es, st'') := steps ops' st' in
      (e ++ es, st'')
  end.

(** A call that leaves [max_parallel] as it is. *)
Definition keeps_bound (op : Op) : Prop :=
  match op with SetSettings _ => False | _ => True end.

(** The number of active workers is within the bound. *)
Definition bounded (st : State) : Prop :=
  Z.of_nat (size (workers st)) <= max_parallel st.

(** Worker ids in use are below the next id. *)
Definition fresh (st : State) : Prop :=
  forall wid, is_Some (workers st !! wid) -> wid < next_wid st.




(** The jobs submitted by a sequence of calls. *)
Definition submitted (ops : list Op) : list loc :=
  flat_map (fun op => match op with Enqueue js => js | _ => [] end) ops.

End Orchestrator.

(** ** Observations on the traces of the orchestrator and of a run *)

Module Schedule.
Import Orchestrator.

(** The jobs on which workers were started, and the ids of these workers,
    in the order of a trace. *)
Definition started_jobs (t : list Event) : list loc :=
  flat_map (fun e => match e with worker_start _ l => [l] | _ => [] end) t.

Definition started_wids (t : list Event) : list Z :=
  flat_map (fun e => match e with worker_start wid _ => [wid] | _ => [] end) t.

(** The ids [first, first + 1, ..., first + n - 1]. *)
Definition consecutive (first : Z) (n : nat) : list Z :=
  map (fun i => first + Z.of_nat i) (seq 0 n).

Definition is_enqueue (op : Op) : bool :=
  match op with Enqueue _ => true | _ => false end.

Definition is_stop_all (op : Op) : bool :=
  match op with StopAll => true | _ => false end.

(** The worker [w0], stopped, is still the worker of the id [wid] and
    still stopped, or the id has no worker. *)
Definition stopped_or_gone (w0 : worker) (wid : Z) (s : State) : Prop :=
  match workers s !! wid with
  | Some w => w_stopped w = true /\ w_job w = w_job w0 /\ w_wid w = w_wid w0
  | None => True
  end.

End Schedule.

Module Trace.
Import Worker.

(** A trace without a completion event, and a trace whose last event is
    its only completion event. *)
Definition no_done (t : list Event) : Prop := completions t = [].

Definition ends_with_done (wid : Z) (t : list Event) : Prop :=
  exists t' ok msg out,
    t = t' ++ [sig_done wid ok msg out] /\ completions t' = [].

(** A part of [run] after which [run] goes on: it has emitted the
    completion event exactly when it has executed [return]. *)
Definition pending {A} (wid : Z) (m : M A) : Prop :=
  forall fs,
    match (m fs).2 with
    | Returned => ends_with_done wid (m fs).1.1
    | _ => no_done (m fs).1.1
    end.

(** A part of [run] that ends the body of [run]: it has emitted the
    completion event unless it has raised. *)
Definition finishing {A} (wid : Z) (m : M A) : Prop :=
  forall fs,
    match (m fs).2 with
    | Raised _ => no_done (m fs).1.1
    | _ => ends_with_done wid (m fs).1.1
    end.

(** An event that is not a report of success, the skip apart. *)
Definition skip_or_failure (e : Event) : Prop :=
  match e with
  | sig_done _ true msg _ => msg = "Skipped (file exists)"
  | _ => True
  end.

Definition honest {A} (m : M A) : Prop :=
  forall fs, Forall skip_or_failure (m fs).1.1.

(** An event that is not a report of success. *)
Definition no_success (e : Event) : Prop :=
  match e with
  | sig_done _ true _ _ => False
  | _ => True
  end.

Definition unsuccessful {A} (m : M A) : Prop :=
  forall fs, Forall no_success (m fs).1.1.

(** A computation that raises or returns from [run], every time. *)
Definition never_value {A} (m : M A) : Prop :=
  forall fs, match (m fs).2 with Value _ => False | _ => True end.

End Trace.

(** ** Observations on the progress reader and the run loop *)

Module Reading.
Import PyStr Worker.

(** A step of the reader whose line carries a duration. *)
Definition reports_duration (s : Step) : bool :=
  match s with
  | ReaderLine _ _ line =>
      truthy line && truthy (strip line)
      && Ffmpeg.is_Some_b (Re.search_duration (strip line))
  | _ => false
  end.

(** The elapsed times of the heartbeat events of a trace: the progress
    events whose speed is "?". *)
Definition heartbeats (t : list Event) : list Q :=
  flat_map (fun e =>
              match e with
              | sig_progress _ _ elapsed _ speed _ _ =>
                  if String.eqb speed "?" then [elapsed] else []
              | _ => []
              end) t.

(** Two elapsed times more than five seconds apart. *)
Definition apart (a b : Q) : Prop := (a + 5 < b)%Q.

End Reading.

(** ** Concrete inputs *)

Module Examples.
Import Worker.

(** A POSIX machine with FFmpeg on the search path and [HOME=/home/u]. *)
Definition example_host : Host :=
  mkHost "Linux" (Some "/home/u") None (fun _ => None)
    (fun name => if String.eqb name "ffmpeg" then Some "/usr/bin/ffmpeg"
                 else None)
    (fun fs d => if PyStr.truthy d then Ok (<[d := 4096]> fs)
                 else Raise (OSError "No such file or directory: ''"))
    (fun s => Ok (String.words s))
    (fun _ => "0.0")
    (fun name => "cannot access local variable '" +:+ name +:+
                 "' where it is not associated with a value").

Definition example_fs : FS :=
  list_to_map [("/in/a.wav", 50000); ("/in/a.mkv", 900000); ("/out", 4096)].

(** The same with an earlier output in place. *)
Definition example_fs_taken : FS :=
  <["/out/a.mp3" := 30000]> example_fs.

Definition rename_witness_fs : FS :=
  list_to_map [("out.mp3", 4096); ("out (1).mp3", 4096)].

(** An audio job, and a video job with two-pass size reduction. *)
Definition audio_job : Models.Job :=
  Models.default_job "/in/a.wav" "/out" "mp3".

Definition two_pass_job : Models.Job :=
  Models.mkJob "/in/a.mkv" "/out" "mp4" "CBR" None None None None
    None None None None None None true false false false (-14) 1 None
    None None None None None false
    true (Some 8%Q) false true
    None None None None None None None None None None None None None false.

(** The same video job with [two_pass] set and [reduce_size] not. *)
Definition one_pass_job : Models.Job :=
  Models.mkJob "/in/a.mkv" "/out" "mp4" "CBR" None None None None
    None None None None None None true false false false (-14) 1 None
    None None None None None false
    false None false true
    None None None None None None None None None None None None None false.

Definition overwrite : Settings := mkSettings (Some 2) None None.
Definition skip : Settings := mkSettings (Some 2) (Some "skip") None.

(** An encoder that reports a duration of 10 s and the positions 5 s
    and 7 s. *)
Definition rising_steps : list Step :=
  [ ReaderLine 1 1 "  Duration: 00:00:10.00, start: 0.000000, bitrate: 1411 kb/s";
    ReaderLine 2 2 "size=     256kB time=00:00:05.00 bitrate= 419.4kbits/s speed=2.5x";
    ReaderLine 3 3 "size=     384kB time=00:00:07.00 bitrate= 449.4kbits/s speed=2.3x" ].


(** An encoder that runs for seven seconds, reports an error and exits
    with code 1. *)
Definition failing_steps : list Step :=
  [ ReaderLine 1 1 "  Duration: 00:00:10.00, start: 0.000000, bitrate: 1411 kb/s";
    MainPoll 1 false;
    ReaderLine 2 2 "size=     256kB time=00:00:05.00 bitrate= 419.4kbits/s speed=2.5x";
    MainPoll 6 false;
    ReaderLine 7 7 "Error while decoding stream #0:0: Invalid data found when processing input" ].

Definition no_second_pass : Proc2 := mkProc2 false false 0 0 ∅.

Definition world_of (p : Proc) (p2 : Proc2) : World := mkWorld false 0 0 p p2.

(** The first process exits with code 1. *)
Definition failing_world : World :=
  world_of (mkProc true None failing_steps (Some 1) [] [] example_fs)
    no_second_pass.


(** The process exits with code 0 and leaves an output of 512 bytes. *)
Definition small_output_world : World :=
  world_of (mkProc true None
              [ MainPoll 1 false; MainPoll 6 false ] (Some 0) [] []
              (<["/out/a.mp3" := 512]> example_fs))
    no_second_pass.

(** The process exits with code 0 and leaves no output. *)
Definition missing_output_world : World :=
  world_of (mkProc true None
              [ MainPoll 1 false; MainPoll 6 false ] (Some 0) [] []
              example_fs)
    no_second_pass.

(** Both passes of a two-pass job exit with code 0. *)
Definition two_pass_world : World :=
  world_of (mkProc true None [] (Some 0) [] [] example_fs)
    (mkProc2 true false 0 9 (<["/out/a.mp4" := 400000]> example_fs)).

Definition example_heap : Orchestrator.Heap :=
  fun _ => audio_job.

Definition example_ops : list Orchestrator.Op :=
  [ Orchestrator.Enqueue [0; 1; 2]%nat;
    Orchestrator.WorkerDone 2 false "Conversion failed with exit code 1" "";
    Orchestrator.Enqueue [3]%nat;
    Orchestrator.WorkerDone 1 true "Skipped (file exists)" "/out/a.mp3" ].

End Examples.

(** ** More concrete inputs *)

Module Samples.
Import Examples.

(** Two workers run, a third job waits, and the first worker was stopped. *)
Definition stopped_state : Orchestrator.State :=
  (Orchestrator.steps
     [Orchestrator.Enqueue [0; 1; 2]%nat; Orchestrator.StopWorker 1]
     (Orchestrator.init 1 2 example_heap)).2.

Definition stopped_worker : Orchestrator.worker :=
  Orchestrator.mkWorker 1 0%nat (mkSettings None None None) false true.

(** A machine without FFmpeg. *)
Definition bare_host : Host :=
  mkHost "Linux" (Some "/home/u") None (fun _ => None) (fun _ => None)
    (makedirs example_host) (shlex_split example_host)
    (str_float example_host) (unbound_local_msg example_host).

(** The diagnostic output of an encoder that exits at once. *)
Definition immediate_output : list string :=
  [ "ffmpeg version 6.0";
    "/in/a.wav: Invalid data found when processing input";
    "Conversion failed!";
    "" ].

(** An encoder that is polled every three seconds for twelve seconds. *)
Definition polled_steps : list Worker.Step :=
  [ Worker.MainPoll 3 false; Worker.MainPoll 6 false;
    Worker.ReaderNoData 7; Worker.MainPoll 9 false;
    Worker.MainPoll 12 false ].

(** The encoder exits at once with that output. *)
Definition immediate_world : Worker.World :=
  world_of (Worker.mkProc true (Some immediate_output) [] None [] []
              example_fs)
    no_second_pass.

(** A file system with the pass logs of an earlier two-pass job. *)
Definition logs_fs : FS :=
  <["/out/a.mp4.ffmpeg2pass-0.log" := 2048]> example_fs.

End Samples.

(** * Properties *)

(** ** Decimal numerals *)

Section Numerals.
Import PyStr.

Lemma pretty_N_char_digit (x : N) : is_digit (pretty_N_char x) = true.
Proof.
  unfold pretty_N_char.
  repeat (match goal with |- context [match ?v with _ => _ end] =>
                            destruct v end; try reflexivity).
Qed.

Lemma pretty_N_go_digits (x : N) (s : string) :
  digits_only s = true -> digits_only (pretty_N_go x s) = true.
Proof.
  revert s. induction (N.lt_wf_0 x) as [x _ IH]. intros s Hs.
  destruct (decide (x = 0)%N) as [->|Hx].
  - by rewrite pretty_N_go_0.
  - rewrite pretty_N_go_step by lia.
    apply IH.
    + apply N.div_lt; lia.
    + simpl. by rewrite pretty_N_char_digit, Hs.
Qed.

Lemma str_int_digits (n : Z) : 0 <= n -> digits_only (str_int n) = true.
Proof.
  intros Hn. unfold str_int, pretty, pretty_Z.
  destruct n as [|p|p]; [reflexivity | | lia].
  unfold pretty, pretty_positive, pretty, pretty_N.
  case_decide; [reflexivity|]. by apply pretty_N_go_digits.
Qed.

(** Two numerals followed by the same non-digit are equal. *)
Lemma digits_cancel (c : ascii) (s1 s2 r1 r2 : string) :
  is_digit c = false ->
  digits_only s1 = true -> digits_only s2 = true ->
  s1 +:+ String c r1 = s2 +:+ String c r2 -> s1 = s2.
Proof.
  intros Hc. revert s2.
  induction s1 as [|a s1 IH]; intros [|b s2] H1 H2 Heq; simpl in *.
  - reflexivity.
  - injection Heq as -> _. apply andb_prop in H2 as [H2 _]. congruence.
  - injection Heq as -> _. apply andb_prop in H1 as [H1 _]. congruence.
  - injection Heq as -> Heq.
    apply andb_prop in H1 as [_ H1]. apply andb_prop in H2 as [_ H2].
    f_equal. by apply IH.
Qed.

End Numerals.

(** ** The rename policy *)

Section Rename.
Import PyStr Worker Examples.

Lemma candidate_inj (base ext : string) (n m : Z) :
  0 <= n -> 0 <= m ->
  candidate base ext n = candidate base ext m -> n = m.
Proof.
  intros Hn Hm. unfold candidate. intros H.
  apply (inj (String.app base)) in H.
  apply (inj (String.app " (")) in H.
  change (")" +:+ ext) with (String ")" ext) in H.
  apply digits_cancel in H; auto using str_int_digits.
  by apply (inj pretty) in H.
Qed.

Lemma path_exists_dom (fs : FS) (p : string) :
  Os.path_exists fs p = true <-> p ∈ dom fs.
Proof.
  unfold Os.path_exists. rewrite bool_decide_eq_true. by rewrite elem_of_dom.
Qed.

(** The loop ends once it has gone through the names that exist: its
    result is the first free candidate. *)
Lemma rename_loop_spec (fs : FS) (base ext : string) :
  forall (fuel : nat) (X : gset string) (d : string) (c : Z),
    1 <= c ->
    (forall m, c <= m -> Os.path_exists fs (candidate base ext m) = true ->
               candidate base ext m ∈ X) ->
    (S (size X) < fuel)%nat ->
    Os.path_exists fs d = true ->
    exists n, c <= n
      /\ rename_loop fuel fs base ext d c = Some (candidate base ext n)
      /\ Os.path_exists fs (candidate base ext n) = false
      /\ forall m, c <= m < n ->
           Os.path_exists fs (candidate base ext m) = true.
Proof.
  induction fuel as [|fuel IH]; intros X d c Hc HX Hfuel Hd; [lia|].
  simpl. rewrite Hd.
  destruct (Os.path_exists fs (candidate base ext c)) eqn:Hcand.
  - destruct (IH (X ∖ {[candidate base ext c]}) (candidate base ext c) (c + 1))
      as (n & Hn & Hloop & Hfree & Hleast); auto; try lia.
    + intros m Hm Hex. apply elem_of_difference. split.
      * apply HX; [lia | done].
      * rewrite elem_of_singleton. intros Heq.
        apply candidate_inj in Heq; lia.
    + assert (candidate base ext c ∈ X) as Hin by (apply HX; [lia | done]).
      assert (size X = S (size (X ∖ {[candidate base ext c]}))) as Hsz.
      { assert ({[candidate base ext c]} ⊆ X) as Hsub.
        { intros x Hx. apply elem_of_singleton in Hx. by subst. }
        rewrite (union_difference_L _ _ Hsub) at 1.
        rewrite size_union.
        - by rewrite size_singleton.
        - intros x Hx Hx'. apply elem_of_difference in Hx' as [_ Hx'].
          contradiction. }
      lia.
    + exists n. repeat split; auto; try lia.
      intros m Hm. destruct (decide (m = c)) as [->|]; [done|].
      apply Hleast. lia.
  - exists c. repeat split; try lia.
    + destruct fuel as [|fuel]; [lia|]. simpl. by rewrite Hcand.
    + done.
Qed.

Lemma rename_spec (fs : FS) (dst : string) :
  Os.path_exists fs dst = true ->
  exists n, 1 <= n
    /\ rename fs dst
       = candidate (OsPath.splitext dst).1 (OsPath.splitext dst).2 n
    /\ Os.path_exists fs
         (candidate (OsPath.splitext dst).1 (OsPath.splitext dst).2 n) = false
    /\ forall m, 1 <= m < n ->
         Os.path_exists fs
           (candidate (OsPath.splitext dst).1 (OsPath.splitext dst).2 m)
         = true.
Proof.
  intros Hd. unfold rename.
  destruct (OsPath.splitext dst) as [base ext]. cbn [fst snd].
  destruct (rename_loop_spec fs base ext (S (S (size fs))) (dom fs) dst 1)
    as (n & Hn & Hloop & Hfree & Hleast); auto; try lia.
  - intros m _ Hex. by apply path_exists_dom.
  - rewrite size_dom. lia.
  - exists n. rewrite Hloop. cbn [default]. auto.
Qed.

(** C6. Under the duplicate policy "rename", when the computed
    destination exists, the resolved path is the destination with
    " (n)" put before its extension, for the smallest [n >= 1] whose path
    does not exist; the worker emits nothing and goes on with that path.
    In particular, when [out.mp3] and [out (1).mp3] exist and
    [out (2).mp3] does not, the resolved path is [out (2).mp3]. *)
Theorem rename_appends_smallest_free_counter
    (wid : Z) (settings : Settings) (fs : FS) (dst : string) :
  Os.path_exists fs dst = true ->
  on_exists settings = Some "rename" ->
  exists n, 1 <= n
    /\ resolve_existing wid settings dst fs
       = ([], fs,
          Value (candidate (OsPath.splitext dst).1 (OsPath.splitext dst).2 n))
    /\ Os.path_exists fs
         (candidate (OsPath.splitext dst).1 (OsPath.splitext dst).2 n) = false
    /\ (forall m, 1 <= m < n ->
           Os.path_exists fs
             (candidate (OsPath.splitext dst).1 (OsPath.splitext dst).2 m)
           = true)
    /\ (dst = "out.mp3" ->
        Os.path_exists fs "out (1).mp3" = true ->
        Os.path_exists fs "out (2).mp3" = false ->
        candidate (OsPath.splitext dst).1 (OsPath.splitext dst).2 n
        = "out (2).mp3").
Proof.
  intros Hd Hpol.
  destruct (rename_spec fs dst Hd) as (n & Hn & Hren & Hfree & Hleast).
  exists n. split; [done|]. split; [|split; [done|split; [done|]]].
  - unfold resolve_existing, mbind, M_bind, bind, get_fs, ret.
    rewrite Hd, Hpol. cbn [default]. by rewrite <- Hren.
  - intros -> H1 H2.
    change (OsPath.splitext "out.mp3") with ("out", ".mp3") in *.
    cbn [fst snd] in *.
    assert (n = 1 \/ n = 2 \/ 2 < n) as [->|[->|Hlt]] by lia.
    + change (candidate "out" ".mp3" 1) with "out (1).mp3" in Hfree.
      congruence.
    + reflexivity.
    + specialize (Hleast 2 ltac:(lia)).
      change (candidate "out" ".mp3" 2) with "out (2).mp3" in Hleast.
      congruence.
Qed.

Lemma rename_appends_smallest_free_counter_witness :
  exists n, 1 <= n
    /\ resolve_existing 1 (mkSettings None (Some "rename") None) "out.mp3"
         rename_witness_fs
       = ([], rename_witness_fs, Value (candidate "out" ".mp3" n))
    /\ Os.path_exists rename_witness_fs (candidate "out" ".mp3" n) = false
    /\ (forall m, 1 <= m < n ->
           Os.path_exists rename_witness_fs (candidate "out" ".mp3" m) = true)
    /\ ("out.mp3" = "out.mp3" ->
        Os.path_exists rename_witness_fs "out (1).mp3" = true ->
        Os.path_exists rename_witness_fs "out (2).mp3" = false ->
        candidate "out" ".mp3" n = "out (2).mp3").
Proof.
  apply (rename_appends_smallest_free_counter 1
           (mkSettings None (Some "rename") None) rename_witness_fs "out.mp3").
  - vm_compute. reflexivity.
  - reflexivity.
Defined.

End Rename.

(** ** The destination path *)

Section Destination.
Import PyStr Worker Examples.

Lemma expanduser_no_tilde (h : Host) (path : string) :
  startswith "~" path = false -> OsPathEnv.expanduser h path = path.
Proof. intros H. unfold OsPathEnv.expanduser. by rewrite H. Qed.

(** C8, as the code has it. When the destination directory can be
    created, the destination path is the directory, with a leading [~]
    or [~user] replaced by that user's home directory and unchanged when
    it does not start with [~], joined with the base name of the source
    without its extension followed by the extension of the format. The
    extension is looked up under the lower-cased format, and is "."
    followed by the format itself when the table has no such key. *)
Theorem out_path_joins_expanded_directory
    (h : Host) (fs fs' : FS) (dst_dir src fmt : string) :
  makedirs h fs (OsPathEnv.expanduser h dst_dir) = Ok fs' ->
  exists ext,
    Ffmpeg.out_path h fs dst_dir src fmt
    = Ok (fs', OsPath.join (OsPathEnv.expanduser h dst_dir)
                 ((OsPath.splitext (OsPath.basename src)).1 +:+ ext))
    /\ (forall e, Ffmpeg.ext_map !! lower fmt = Some e -> ext = e)
    /\ (Ffmpeg.ext_map !! lower fmt = None -> ext = "." +:+ fmt)
    /\ (startswith "~" dst_dir = false ->
        OsPathEnv.expanduser h dst_dir = dst_dir).
Proof.
  intros Hmk.
  exists (Ffmpeg.dict_get Ffmpeg.ext_map (lower fmt) ("." +:+ fmt)).
  split; [|split; [|split]].
  - unfold Ffmpeg.out_path. rewrite Hmk.
    unfold mbind, result_bind.
    by destruct (OsPath.splitext (OsPath.basename src)).
  - intros e He. unfold Ffmpeg.dict_get. by rewrite He.
  - intros He. unfold Ffmpeg.dict_get. by rewrite He.
  - apply expanduser_no_tilde.
Qed.

Lemma out_path_joins_expanded_directory_witness :
  exists ext,
    Ffmpeg.out_path example_host example_fs "/out" "/in/a.wav" "xyz"
    = Ok (<["/out" := 4096]> example_fs,
          OsPath.join (OsPathEnv.expanduser example_host "/out")
            ((OsPath.splitext (OsPath.basename "/in/a.wav")).1 +:+ ext))
    /\ (forall e, Ffmpeg.ext_map !! lower "xyz" = Some e -> ext = e)
    /\ (Ffmpeg.ext_map !! lower "xyz" = None -> ext = "." +:+ "xyz")
    /\ (startswith "~" "/out" = false ->
        OsPathEnv.expanduser example_host "/out" = "/out").
Proof.
  apply (out_path_joins_expanded_directory example_host example_fs
           (<["/out" := 4096]> example_fs) "/out" "/in/a.wav" "xyz").
  reflexivity.
Defined.

(** C8, as the claim states it, fails: the directory [~/out] is expanded
    before the join, so the destination is not [~/out] joined with the
    file name. *)
Lemma out_path_not_joined_with_given_directory :
  exists fs' p,
    Ffmpeg.out_path example_host example_fs "~/out" "/in/a.wav" "mp3"
    = Ok (fs', p)
    /\ p = "/home/u/out/a.mp3"
    /\ p <> OsPath.join "~/out"
              ((OsPath.splitext (OsPath.basename "/in/a.wav")).1 +:+ ".mp3").
Proof.
  eexists _, _. split; [reflexivity|]. split; [reflexivity|].
  vm_compute. discriminate.
Qed.

End Destination.

(** ** The skip policy *)

Section Skip.
Import PyStr Worker Examples.

(** C7. Under the duplicate policy "skip", when the computed destination
    exists, the worker emits one event, the completion event with
    success and the message "Skipped (file exists)", and calls
    [run_ffmpeg] not once. *)
Theorem skip_policy_succeeds_without_encoder
    (h : Host) (w : World) (wid : Z) (job : Models.Job)
    (settings : Settings) (fs fs' : FS) (dst : string) :
  stopped_at_start w = false ->
  Os.path_exists fs (Models.src job) = true ->
  Ffmpeg.out_path h fs (Models.dst_dir job) (Models.src job)
    (Models.format job) = Ok (fs', dst) ->
  Os.path_exists fs' dst = true ->
  on_exists settings = Some "skip" ->
  run h w wid job settings fs
  = ([sig_done wid true "Skipped (file exists)" dst], fs')
  /\ invocations (run h w wid job settings fs).1 = [].
Proof.
  intros Hstop Hsrc Hout Hdst Hpol.
  assert (run h w wid job settings fs
          = ([sig_done wid true "Skipped (file exists)" dst], fs')) as ->.
  { unfold run, run_body, run_prepare.
    rewrite Hstop.
    unfold mbind, M_bind, bind, get_fs.
    rewrite Hsrc. cbn [negb]. rewrite Hout.
    unfold lift, ret, put_fs, resolve_existing, mbind, M_bind, bind, get_fs.
    rewrite Hdst, Hpol. reflexivity. }
  split; reflexivity.
Qed.

Lemma skip_policy_succeeds_without_encoder_witness :
  run example_host failing_world 1 audio_job skip example_fs_taken
  = ([sig_done 1 true "Skipped (file exists)" "/out/a.mp3"],
     <["/out" := 4096]> example_fs_taken)
  /\ invocations
       (run example_host failing_world 1 audio_job skip example_fs_taken).1
     = [].
Proof.
  apply (skip_policy_succeeds_without_encoder example_host failing_world 1
           audio_job skip example_fs_taken
           (<["/out" := 4096]> example_fs_taken) "/out/a.mp3").
  - reflexivity.
  - vm_compute. reflexivity.
  - vm_compute. reflexivity.
  - vm_compute. reflexivity.
  - reflexivity.
Defined.

End Skip.

(** ** The orchestrator *)

Section Scheduling.
Import Orchestrator Examples.

Lemma admit_one_inv (s s' : State) (e : list Event) :
  admit_one s = Some (e, s') ->
  Z.of_nat (size (workers s)) < max_parallel s
  /\ exists job rest,
      job_queue s = job :: rest
      /\ e = [ assign_threads job
                 (thread_count (settings s) (Models.format (jobs s job)));
               sig_worker_started (next_wid s) (Models.src (jobs s job));
               worker_start (next_wid s) job ]
      /\ s' = mkState (threads_per_job s) (max_parallel s)
                (<[next_wid s :=
                     mkWorker (next_wid s) job (settings s) false false]>
                   (workers s))
                rest (settings s) (next_wid s + 1)
                (heap_set_threads job
                   (thread_count (settings s) (Models.format (jobs s job)))
                   (jobs s)).
Proof.
  unfold admit_one. destruct (guard s) eqn:Hg; [|discriminate].
  apply andb_prop in Hg as [Hlt _]. apply Z.ltb_lt in Hlt.
  destruct (job_queue s) as [|job rest]; [discriminate|].
  intros [= <- <-]. split; [done|]. exists job, rest.
  split; [done|]. split; [|done].
  unfold heap_set_threads. rewrite Nat.eqb_refl. by destruct (jobs s job).
Qed.

Lemma admit_one_guard (s : State) :
  guard s = false -> admit_one s = None.
Proof. intros H. unfold admit_one. by rewrite H. Qed.

Lemma admit_one_bounded (s s' : State) (e : list Event) :
  admit_one s = Some (e, s') -> bounded s'.
Proof.
  intros H. apply admit_one_inv in H as (Hlt & job & rest & _ & _ & ->).
  unfold bounded. cbn [workers max_parallel].
  pose proof (map_size_insert (next_wid s)
                (mkWorker (next_wid s) job (settings s) false false)
                (workers s)) as Hsz.
  destruct (workers s !! next_wid s); unfold id in Hsz; lia.
Qed.

Lemma admit_one_fresh (s s' : State) (e : list Event) :
  fresh s -> admit_one s = Some (e, s') -> fresh s'.
Proof.
  intros Hf H. apply admit_one_inv in H as (_ & job & rest & _ & _ & ->).
  intros wid. cbn [workers next_wid].
  destruct (decide (next_wid s = wid)) as [<-|Hne].
  - intros _. lia.
  - rewrite lookup_insert_ne by done. intros Hw. apply Hf in Hw. lia.
Qed.

Lemma process_queue_loop_inv (fuel : nat) (s : State) :
  bounded s ->
  bounded (process_queue_loop fuel s).2
  /\ (fresh s -> fresh (process_queue_loop fuel s).2)
  /\ max_parallel (process_queue_loop fuel s).2 = max_parallel s.
Proof.
  revert s. induction fuel as [|fuel IH]; intros s Hb; [done|].
  simpl. destruct (admit_one s) as [[e s']|] eqn:Ha; [|done].
  destruct (IH s' (admit_one_bounded _ _ _ Ha)) as (Hb' & Hf' & Hm').
  destruct (process_queue_loop fuel s') as [es s''].
  cbn [snd] in *. split; [done|]. split.
  - intros Hf. eauto using admit_one_fresh.
  - rewrite Hm'.
    by apply admit_one_inv in Ha as (_ & job & rest & _ & _ & ->).
Qed.

(** When the loop of [_process_queue] is over its condition is false:
    the queue is empty or no slot is free. *)
Lemma process_queue_loop_done (fuel : nat) (s : State) :
  (length (job_queue s) <= fuel)%nat ->
  guard (process_queue_loop fuel s).2 = false.
Proof.
  revert s. induction fuel as [|fuel IH]; intros s Hlen.
  - simpl. unfold guard. destruct (job_queue s); [|simpl in Hlen; lia].
    rewrite bool_decide_eq_true_2 by done. apply andb_false_r.
  - simpl. destruct (admit_one s) as [[e s']|] eqn:Ha.
    + specialize (IH s').
      destruct (process_queue_loop fuel s') as [es s'']. cbn [snd] in *.
      apply IH.
      apply admit_one_inv in Ha as (_ & job & rest & Hq & _ & ->).
      rewrite Hq in Hlen. simpl in *. lia.
    + unfold admit_one in Ha. destruct (guard s) eqn:Hg; [|done].
      destruct (job_queue s) eqn:Hq; [|discriminate].
      unfold guard in Hg. rewrite Hq in Hg.
      rewrite bool_decide_eq_true_2 in Hg by done.
      by rewrite andb_false_r in Hg.
Qed.

Lemma step_inv (op : Op) (s : State) :
  keeps_bound op -> bounded s ->
  bounded (step op s).2 /\ (fresh s -> fresh (step op s).2).
Proof.
  intros Hk Hb. destruct op; cbn [step snd]; try done.
  - (* enqueue *)
    unfold enqueue, process_queue.
    match goal with |- context [process_queue_loop ?f ?s0] =>
      destruct (process_queue_loop_inv f s0 Hb) as (? & ? & _) end.
    auto.
  - (* on_worker_done *)
    unfold on_worker_done, process_queue.
    match goal with |- context [process_queue_loop ?f ?s0] =>
      assert (bounded s0) as Hb0;
      [|destruct (process_queue_loop_inv f s0 Hb0) as (? & Hf0 & _);
        destruct (process_queue_loop f s0) as [es s2] eqn:Hloop]
    end.
    + unfold bounded in *. cbn [workers max_parallel].
      pose proof (map_size_delete wid (workers s)) as Hsz.
      destruct (workers s !! wid); unfold id in Hsz; lia.
    + cbn [snd] in *. split; [done|]. intros Hf. apply Hf0.
      intros k. cbn [workers next_wid]. intros Hk'. apply Hf.
      destruct (decide (wid = k)) as [->|Hne].
      * rewrite lookup_delete_eq in Hk'. by destruct Hk'.
      * by rewrite lookup_delete_ne in Hk'.
  - (* pause_worker *)
    unfold pause_worker, with_workers, bounded, fresh in *.
    cbn [workers max_parallel next_wid]. split.
    + by rewrite <- size_dom, dom_alter_L, size_dom.
    + intros Hf k. rewrite lookup_alter. case_decide; [|apply Hf].
      subst. rewrite fmap_is_Some. apply Hf.
  - (* resume_worker *)
    unfold resume_worker, with_workers, bounded, fresh in *.
    cbn [workers max_parallel next_wid]. split.
    + by rewrite <- size_dom, dom_alter_L, size_dom.
    + intros Hf k. rewrite lookup_alter. case_decide; [|apply Hf].
      subst. rewrite fmap_is_Some. apply Hf.
  - (* stop_worker *)
    unfold stop_worker, with_workers, bounded, fresh in *.
    cbn [workers max_parallel next_wid]. split.
    + by rewrite <- size_dom, dom_alter_L, size_dom.
    + intros Hf k. rewrite lookup_alter. case_decide; [|apply Hf].
      subst. rewrite fmap_is_Some. apply Hf.
  - (* pause_all *)
    unfold pause_all, with_workers, bounded, fresh in *.
    cbn [workers max_parallel next_wid]. split.
    + by rewrite map_size_fmap.
    + intros Hf k. rewrite lookup_fmap, fmap_is_Some. apply Hf.
  - (* resume_all *)
    unfold resume_all, with_workers, bounded, fresh in *.
    cbn [workers max_parallel next_wid]. split.
    + by rewrite map_size_fmap.
    + intros Hf k. rewrite lookup_fmap, fmap_is_Some. apply Hf.
  - (* stop_all *)
    unfold stop_all, bounded, fresh in *.
    cbn [workers max_parallel next_wid]. split.
    + rewrite map_size_empty. lia.
    + intros _ k. rewrite lookup_empty. by intros [? ?].
Qed.

Lemma steps_inv (ops : list Op) (s : State) :
  Forall keeps_bound ops -> bounded s ->
  bounded (steps ops s).2 /\ (fresh s -> fresh (steps ops s).2).
Proof.
  revert s. induction ops as [|op ops IH]; intros s Hk Hb; [done|].
  apply Forall_cons in Hk as [Hk1 Hk2]. simpl.
  destruct (step_inv op s Hk1 Hb) as [Hb1 Hf1].
  destruct (step op s) as [e s1]. cbn [snd] in *.
  destruct (IH s1 Hk2 Hb1) as [Hb2 Hf2].
  destruct (steps ops s1) as [es s2]. cbn [snd] in *. auto.
Qed.

(** A completion in a full pool with a pending job: the slot goes to
    the head of the queue, and to it only. *)
Lemma on_worker_done_refills
    (s : State) (wid : Z) (ok : bool) (msg out : string)
    (job : loc) (rest : list loc) :
  fresh s ->
  is_Some (workers s !! wid) ->
  Z.of_nat (size (workers s)) = max_parallel s ->
  job_queue s = job :: rest ->
  workers (on_worker_done wid ok msg out s).2
  = <[next_wid s := mkWorker (next_wid s) job (settings s) false false]>
      (delete wid (workers s))
  /\ job_queue (on_worker_done wid ok msg out s).2 = rest.
Proof.
  intros Hf [w Hw] Hfull Hq.
  assert (size (delete wid (workers s)) = pred (size (workers s))) as Hdel.
  { rewrite map_size_delete, Hw. done. }
  assert (size (workers s) <> 0%nat) as Hne.
  { intros H0. apply map_size_empty_inv in H0. rewrite H0 in Hw.
    by rewrite lookup_empty in Hw. }
  assert (delete wid (workers s) !! next_wid s = None) as Hfresh.
  { destruct (delete wid (workers s) !! next_wid s) eqn:E; [|done].
    assert (is_Some (workers s !! next_wid s)) as Hin.
    { destruct (decide (wid = next_wid s)) as [->|Hd].
      - by rewrite lookup_delete_eq in E.
      - rewrite lookup_delete_ne in E by done. eauto. }
    apply Hf in Hin. lia. }
  assert ((on_worker_done wid ok msg out s).2
          = mkState (threads_per_job s) (max_parallel s)
              (<[next_wid s :=
                   mkWorker (next_wid s) job (settings s) false false]>
                 (delete wid (workers s)))
              rest (settings s) (next_wid s + 1)
              (heap_set_threads job
                 (thread_count (settings s) (Models.format (jobs s job)))
                 (jobs s))) as ->; [|done].
  unfold on_worker_done, process_queue. cbn [job_queue].
  rewrite Hq. cbn [length process_queue_loop].
  unfold admit_one at 1. unfold guard at 1.
  cbn [workers max_parallel job_queue settings next_wid jobs threads_per_job].
  rewrite Hdel.
  replace (Z.of_nat (pred (size (workers s))) <? max_parallel s) with true
    by (symmetry; apply Z.ltb_lt; lia).
  rewrite bool_decide_eq_false_2 by done. cbn [andb negb].
  match goal with |- context [process_queue_loop _ ?s2] =>
    assert (guard s2 = false) as Hg end.
  { unfold guard. cbn [workers max_parallel].
    rewrite map_size_insert, Hfresh, Hdel.
    replace (Z.of_nat (S (pred (size (workers s)))) <? max_parallel s)
      with false by (symmetry; apply Z.ltb_ge; lia).
    done. }
  destruct (length rest); cbn [process_queue_loop];
    [|rewrite (admit_one_guard _ Hg)]; reflexivity.
Qed.

(** C1. From a state within the bound, after any sequence of [enqueue]
    calls and worker completions (and of pause, resume and stop calls),
    the number of active workers is at most [max_parallel]. An admission
    happens only below the bound, takes the head of the pending queue
    and keeps the bound; [_process_queue] stops only when the queue is
    empty or no slot is free; and a completion in a full pool hands the
    freed slot to the head of the queue. *)
Theorem workers_never_exceed_max_parallel (st : State) (ops : list Op) :
  bounded st -> fresh st -> Forall keeps_bound ops ->
  bounded (steps ops st).2
  /\ (forall s e s',
        admit_one s = Some (e, s') ->
        Z.of_nat (size (workers s)) < max_parallel s
        /\ bounded s'
        /\ exists job,
            job_queue s = job :: job_queue s'
            /\ workers s'
               = <[next_wid s :=
                     mkWorker (next_wid s) job (settings s) false false]>
                   (workers s))
  /\ (forall s, guard (process_queue s).2 = false)
  /\ (forall wid ok msg out job rest,
        is_Some (workers (steps ops st).2 !! wid) ->
        Z.of_nat (size (workers (steps ops st).2))
        = max_parallel (steps ops st).2 ->
        job_queue (steps ops st).2 = job :: rest ->
        workers (on_worker_done wid ok msg out (steps ops st).2).2
        = <[next_wid (steps ops st).2 :=
              mkWorker (next_wid (steps ops st).2) job
                (settings (steps ops st).2) false false]>
            (delete wid (workers (steps ops st).2))
        /\ job_queue (on_worker_done wid ok msg out (steps ops st).2).2
           = rest).
Proof.
  intros Hb Hf Hk.
  destruct (steps_inv ops st Hk Hb) as [Hb' Hf'].
  split; [done|]. split; [|split].
  - intros s e s' Ha. pose proof (admit_one_bounded _ _ _ Ha) as Hbs.
    apply admit_one_inv in Ha as (Hlt & job & rest & Hq & _ & ->).
    split; [done|]. split; [done|]. exists job. by rewrite Hq.
  - intros s. by apply process_queue_loop_done.
  - intros wid ok msg out job rest. apply on_worker_done_refills. auto.
Qed.

Lemma workers_never_exceed_max_parallel_witness :
  bounded (init 1 2 example_heap)
  /\ fresh (init 1 2 example_heap)
  /\ Forall keeps_bound example_ops
  /\ bounded (steps example_ops (init 1 2 example_heap)).2.
Proof.
  assert (bounded (init 1 2 example_heap)) as Hb.
  { unfold bounded. cbn [init workers max_parallel].
    rewrite map_size_empty. lia. }
  assert (fresh (init 1 2 example_heap)) as Hf.
  { intros wid. cbn [init workers]. rewrite lookup_empty. by intros [? ?]. }
  assert (Forall keeps_bound example_ops) as Hk.
  { unfold example_ops. repeat constructor. }
  repeat split; try assumption.
  apply (workers_never_exceed_max_parallel (init 1 2 example_heap)
           example_ops Hb Hf Hk).
Defined.

End Scheduling.

(** ** The jobs under the orchestrator *)

Section JobFrame.
Import Orchestrator.

Lemma set_threads_twice (u v : Z) (j : Models.Job) :
  Models.set_threads v (Models.set_threads u j) = Models.set_threads v j.
Proof. reflexivity. Qed.








Lemma submitted_cons (op : Op) (ops : list Op) :
  submitted (op :: ops) = submitted [op] ++ submitted ops.
Proof. unfold submitted. cbn [flat_map]. by rewrite app_nil_r. Qed.



End JobFrame.

(** ** Progress events *)

Section Progress.
Import PyStr Worker Examples.

Lemma percentages_app (t1 t2 : list Event) :
  percentages (t1 ++ t2) = percentages t1 ++ percentages t2.
Proof. unfold percentages. apply flat_map_app. Qed.

Lemma percentages_watchdog (wid : Z) (r : Reader) (t : Q) :
  percentages (watchdog wid r t) = [].
Proof. unfold watchdog. by case_match. Qed.

(** What the reader makes of one line, by the duration it knows. *)
Lemma reader_parse_percentages
    (wid : Z) (start_time : Q) (r : Reader) (t_read : Q) (line_str : string) :
  let pos :=
    match Re.search_time line_str with
    | Some g => [hms_seconds g]
    | None => []
    end in
  let d' := duration_seconds (reader_parse wid start_time r t_read line_str).2 in
  percentages (reader_parse wid start_time r t_read line_str).1
  = (if Ffmpeg.truthy_Q d' && Qlt_bool 0 (default 0%Q d')
     then map (fun c => progress_of c (default 0%Q d')) pos else [])
  /\ (forall d, duration_seconds r = Some d -> d' = Some d).
Proof.
  unfold reader_parse.
  destruct (duration_seconds r) as [d|].
  - cbn [fst snd duration_seconds]. split; [|done].
    rewrite !percentages_app. cbn [percentages flat_map app].
    destruct (Re.search_time line_str) as [g|].
    + destruct (Ffmpeg.truthy_Q (Some d)); cbn [andb].
      * cbn [default]. unfold id. by destruct (Qlt_bool 0 d).
      * repeat case_match; done.
    + repeat case_match; done.
  - destruct (Re.search_duration line_str) as [g0|];
      cbn [fst snd duration_seconds]; (split; [|done]);
      rewrite !percentages_app; cbn [percentages flat_map app].
    + destruct (Re.search_time line_str) as [g|].
      * destruct (Ffmpeg.truthy_Q (Some (hms_seconds g0))); cbn [andb].
        -- cbn [default]. unfold id. by destruct (Qlt_bool 0 (hms_seconds g0)).
        -- repeat case_match; done.
      * repeat case_match; done.
    + cbn [Ffmpeg.truthy_Q andb]. repeat case_match; done.
Qed.

Lemma reader_step_percentages
    (wid : Z) (start_time : Q) (r : Reader) (s : Step) :
  let d' := duration_seconds (reader_step wid start_time r s).2 in
  percentages (reader_step wid start_time r s).1
  = (if Ffmpeg.truthy_Q d' && Qlt_bool 0 (default 0%Q d')
     then map (fun c => progress_of c (default 0%Q d')) (position_of s)
     else [])
  /\ (forall d, duration_seconds r = Some d -> d' = Some d).
Proof.
  destruct s as [t_check t_read line|t_check|t_check e|t b];
    cbn [reader_step position_of].
  - destruct (truthy line); cbn [andb]; [|].
    + destruct (truthy (strip line)).
      * pose proof (reader_parse_percentages wid start_time r t_read
                      (strip line)) as [Hp Hd].
        destruct (reader_parse wid start_time r t_read (strip line))
          as [ev r'].
        cbn [fst snd] in *.
        by rewrite percentages_app, percentages_watchdog.
      * cbn [fst snd map]. rewrite percentages_watchdog.
        split; [by case_match|done].
    + cbn [fst snd map]. rewrite percentages_watchdog.
      split; [by case_match|done].
  - cbn [fst snd map]. rewrite percentages_watchdog.
    split; [by case_match|done].
  - cbn [fst snd map]. rewrite percentages_app, percentages_watchdog.
    split; [by repeat case_match|done].
  - cbn [fst snd map]. split; [by case_match|done].
Qed.

Lemma reader_events_known
    (wid : Z) (start_time : Q) (ss : list Step) (r : Reader) (d : Q) :
  duration_seconds r = Some d ->
  percentages (reader_events wid start_time r ss)
  = if Ffmpeg.truthy_Q (Some d) && Qlt_bool 0 d
    then map (fun c => progress_of c d) (positions ss) else [].
Proof.
  revert r. induction ss as [|s ss IH]; intros r Hr.
  - cbn. by case_match.
  - cbn [reader_events positions flat_map].
    pose proof (reader_step_percentages wid start_time r s) as [Hp Hd].
    specialize (Hd d Hr).
    destruct (reader_step wid start_time r s) as [e r'].
    cbn [fst snd] in *.
    rewrite percentages_app, Hp, Hd, (IH r' Hd). cbn [default]. unfold id.
    fold (positions ss).
    destruct (Ffmpeg.truthy_Q (Some d) && Qlt_bool 0 d); [|done].
    by rewrite map_app.
Qed.













End Progress.

(** ** The encoder invocations of a run *)

Section Invocations.
Import PyStr Worker Examples.

Lemma invocations_app (t1 t2 : list Event) :
  invocations (t1 ++ t2) = invocations t1 ++ invocations t2.
Proof. unfold invocations. apply flat_map_app. Qed.

Lemma bind_trace {A B} (m : M A) (k : A -> M B) (fs : FS) :
  (bind m k fs).1.1
  = (m fs).1.1 ++
    match (m fs).2 with
    | Value a => (k a (m fs).1.2).1.1
    | _ => []
    end.
Proof.
  unfold bind. destruct (m fs) as [[t1 fs1] [a| |e]]; cbn [fst snd].
  - by destruct (k a fs1) as [[t2 fs2] o2].
  - by rewrite app_nil_r.
  - by rewrite app_nil_r.
Qed.

Lemma quiet_bind {A B} (m : M A) (k : A -> M B) :
  quiet m -> (forall a, quiet (k a)) -> quiet (bind m k).
Proof.
  intros Hm Hk fs. rewrite bind_trace, invocations_app, Hm.
  destruct ((m fs).2); [apply Hk|done..].
Qed.

Lemma quiet_mbind {A B} (m : M A) (k : A -> M B) :
  quiet m -> (forall a, quiet (k a)) -> quiet (mbind k m).
Proof. apply quiet_bind. Qed.

Lemma quiet_ret {A} (a : A) : quiet (ret a).
Proof. done. Qed.

Lemma quiet_return {A} : quiet (@return_ A).
Proof. done. Qed.

Lemma quiet_raise {A} (e : exn) : quiet (@raise A e).
Proof. done. Qed.

Lemma quiet_get_fs : quiet get_fs.
Proof. done. Qed.

Lemma quiet_put_fs (fs : FS) : quiet (put_fs fs).
Proof. done. Qed.

Lemma quiet_lift {A} (r : result A) : quiet (lift r).
Proof. by destruct r. Qed.

Lemma quiet_sig_done (wid : Z) (ok : bool) (msg out : string) :
  quiet (emit (sig_done wid ok msg out)).
Proof. done. Qed.

Lemma quiet_sig_log (wid : Z) (line : string) : quiet (emit (sig_log wid line)).
Proof. done. Qed.

Lemma quiet_sig_progress (wid : Z) (p e r : Q) (s1 s2 s3 : string) :
  quiet (emit (sig_progress wid p e r s1 s2 s3)).
Proof. done. Qed.

Lemma quiet_try_except {A} (m : M A) (handler : exn -> M A) :
  quiet m -> (forall e, quiet (handler e)) -> quiet (try_except m handler).
Proof.
  intros Hm Hh fs. unfold try_except.
  specialize (Hm fs). destruct (m fs) as [[t1 fs1] [a| |e]]; cbn [fst] in *;
    try done.
  specialize (Hh e fs1). destruct (handler e fs1) as [[t2 fs2] o2].
  cbn [fst] in *. by rewrite invocations_app, Hm, Hh.
Qed.

Lemma emit_all_run (l : list Event) (fs : FS) :
  emit_all l fs = (l, fs, Value tt).
Proof.
  induction l as [|e l IH]; [done|].
  cbn [emit_all]. unfold mbind, M_bind, bind, emit. by rewrite IH.
Qed.

Create HintDb quiet.
#[local] Hint Resolve quiet_ret quiet_return quiet_raise quiet_get_fs quiet_put_fs
  quiet_lift quiet_sig_done quiet_sig_log quiet_sig_progress : quiet.

Ltac quiet_auto :=
  repeat first
    [ match goal with |- forall _, _ => intro end
    | solve [auto with quiet]
    | progress cbv zeta
    | apply quiet_mbind
    | apply quiet_bind
    | apply quiet_try_except
    | match goal with
      | |- quiet (if ?b then _ else _) => destruct b
      | |- quiet (match ?x with _ => _ end) => destruct x
      end ].

Lemma quiet_emit_final_progress (h : Host) (wid : Z) (elapsed : option Q) :
  quiet (emit_final_progress h wid elapsed).
Proof. unfold emit_final_progress, load_elapsed, load_speed_str. quiet_auto. Qed.

Lemma quiet_cleanup_pass_logs (dst : string) : quiet (cleanup_pass_logs dst).
Proof. unfold cleanup_pass_logs, remove_if_exists. quiet_auto. Qed.

Lemma quiet_finish_success (wid : Z) (job : Models.Job) (dst : string) :
  quiet (finish_success wid job dst).
Proof. unfold finish_success. quiet_auto. Qed.

Lemma quiet_finish_failure (wid : Z) (return_code : Z) (pipe : list string) :
  quiet (finish_failure wid return_code pipe).
Proof. unfold finish_failure, read. quiet_auto. Qed.

Lemma quiet_resolve_existing (wid : Z) (settings : Settings) (dst : string) :
  quiet (resolve_existing wid settings dst).
Proof. unfold resolve_existing. quiet_auto. Qed.

#[local] Hint Resolve quiet_emit_final_progress quiet_cleanup_pass_logs
  quiet_finish_success quiet_finish_failure quiet_resolve_existing : quiet.

Lemma quiet_run_prepare
    (h : Host) (w : World) (wid : Z) (job : Models.Job) (settings : Settings) :
  quiet (run_prepare h w wid job settings).
Proof. unfold run_prepare. quiet_auto. Qed.

Lemma quiet_emit_all (l : list Event) :
  invocations l = [] -> quiet (emit_all l).
Proof. intros H fs. by rewrite emit_all_run. Qed.

Lemma invocations_reader_step
    (wid : Z) (start_time : Q) (r : Reader) (s : Step) :
  invocations (reader_step wid start_time r s).1 = [].
Proof.
  destruct s; cbn [reader_step]; unfold reader_parse, watchdog;
    repeat case_match; simplify_eq; reflexivity.
Qed.

Lemma invocations_main_step
    (wid : Z) (start_time : Q) (l : Loop) (s : Step) :
  invocations (main_step wid start_time l s).1 = [].
Proof. destruct s; cbn [main_step]; repeat case_match; reflexivity. Qed.

Lemma invocations_monitor
    (wid : Z) (start_time : Q) (ss : list Step) (r : Reader) (l : Loop) :
  invocations (monitor wid start_time r l ss).1.1 = [].
Proof.
  revert r l. induction ss as [|s ss IH]; intros r l; [done|].
  cbn [monitor].
  pose proof (invocations_reader_step wid start_time r s) as H1.
  pose proof (invocations_main_step wid start_time l s) as H2.
  destruct (reader_step wid start_time r s) as [e1 r'].
  destruct (main_step wid start_time l s) as [e2 l'].
  specialize (IH r' l').
  destruct (monitor wid start_time r' l' ss) as [[es r''] l''].
  cbn [fst] in *. by rewrite !invocations_app, H1, H2, IH.
Qed.

Lemma invocations_reader_tail (wid : Z) (lines : list string) :
  invocations (reader_tail wid lines) = [].
Proof.
  unfold reader_tail. induction lines as [|x lines IH]; [done|].
  cbn [flat_map]. rewrite invocations_app, IH. by case_match.
Qed.

Lemma invocations_log_remaining (wid : Z) (lines : list string) :
  invocations (log_remaining wid lines) = [].
Proof.
  unfold log_remaining. induction (last_n 5 lines) as [|x l IH]; [done|].
  cbn [flat_map]. rewrite invocations_app, IH. by case_match.
Qed.

(** A command that was built ends with the overwrite flag and the
    destination. *)
Lemma build_ffmpeg_cmd_ends_with_dst
    (h : Host) (fs : FS) (a : Ffmpeg.Args) (cmd : list string) :
  Ffmpeg.build_ffmpeg_cmd h fs a = Ok cmd ->
  exists pre, cmd = pre ++ ["-y"; Ffmpeg.dst a].
Proof.
  unfold Ffmpeg.build_ffmpeg_cmd. destruct (Ffmpeg.find_ffmpeg h fs); [|done].
  unfold mbind, result_bind.
  repeat match goal with
         | |- context [match ?x with Ok _ => _ | Raise _ => _ end] =>
             destruct x; try discriminate
         end;
    intros [= <-]; eauto.
Qed.

Lemma last_ends_with (pre : list string) (a b : string) :
  last (pre ++ [a; b]) = Some b.
Proof.
  change [a; b] with ([a] ++ [b]). by rewrite app_assoc, last_snoc.
Qed.

Lemma index_go_Some (x : string) (l : list string) (i j : nat) :
  PyList.index_go x l i = Some j ->
  exists k, j = (i + k)%nat /\ l !! k = Some x.
Proof.
  revert i. induction l as [|y l IH]; intros i; cbn; [done|].
  destruct (String.eqb y x) eqn:E.
  - intros [= <-]. exists 0%nat. apply String.eqb_eq in E as ->.
    split; [lia|done].
  - intros H. apply IH in H as (k & -> & Hk). exists (S k). split; [lia|done].
Qed.

Lemma index_go_found (x : string) (l : list string) (i k : nat) :
  l !! k = Some x -> exists j, PyList.index_go x l i = Some j.
Proof.
  revert i k. induction l as [|y l IH]; intros i k H; cbn; [done|].
  destruct (String.eqb y x) eqn:E; [eauto|].
  destruct k as [|k]; cbn in H.
  - injection H as ->. by rewrite String.eqb_refl in E.
  - eauto.
Qed.

Lemma index_Ok (x : string) (l : list string) (i : nat) :
  PyList.index x l = Ok i -> l !! i = Some x.
Proof.
  unfold PyList.index. destruct (PyList.index_go x l 0) as [j|] eqn:E; [|done].
  intros [= ->]. by apply index_go_Some in E as (k & -> & Hk).
Qed.

Lemma index_found (x : string) (l : list string) (k : nat) :
  l !! k = Some x -> exists i, PyList.index x l = Ok i.
Proof.
  intros H. unfold PyList.index.
  destruct (index_go_found x l 0 k H) as [j ->]. eauto.
Qed.

Lemma mem_lookup (x : string) (l : list string) :
  PyList.mem x l = true -> exists k, l !! k = Some x.
Proof.
  unfold PyList.mem. intros H. apply existsb_exists in H as (y & Hy & E).
  apply String.eqb_eq in E as <-.
  apply list_elem_of_In, list_elem_of_lookup in Hy. done.
Qed.

Lemma set_item_Ok (i : nat) (v : string) (l : list string) :
  (i < length l)%nat -> PyList.set_item i v l = Ok (<[i := v]> l).
Proof.
  intros H. unfold PyList.set_item. by rewrite bool_decide_eq_true_2.
Qed.

(** A first-pass command that carries the pass arguments is patched for
    the second pass; no new command is built. *)
Lemma second_pass_cmd_patches
    (h : Host) (fs : FS) (job : Models.Job) (pre : list string)
    (first_pass_dst dst : string) :
  first_pass_dst <> "-pass" ->
  PyList.mem "-pass" (pre ++ ["-y"; first_pass_dst]) = true ->
  exists cmd2,
    second_pass_cmd h fs job (pre ++ ["-y"; first_pass_dst]) first_pass_dst dst
    = Ok cmd2.
Proof.
  intros Hne Hmem. set (cmd := pre ++ ["-y"; first_pass_dst]) in *.
  assert (length cmd = S (S (length pre))) as Hlen.
  { unfold cmd. rewrite length_app. simpl. lia. }
  assert (cmd !! length pre = Some "-y") as Hy.
  { unfold cmd. by rewrite lookup_app_r, Nat.sub_diag by lia. }
  assert (cmd !! S (length pre) = Some first_pass_dst) as Hd.
  { unfold cmd. rewrite lookup_app_r by lia.
    by replace (S (length pre) - length pre)%nat with 1%nat by lia. }
  apply mem_lookup in Hmem as [k Hk].
  destruct (index_found _ _ _ Hk) as [i Hi].
  pose proof (index_Ok _ _ _ Hi) as Hi'.
  assert (i < length pre)%nat as Hlt.
  { pose proof (lookup_lt_Some _ _ _ Hi') as Hb.
    destruct (decide (i = length pre)) as [->|]; [congruence|].
    destruct (decide (i = S (length pre))) as [->|]; [congruence|]. lia. }
  assert (<[(i + 1)%nat := "2"]> cmd !! S (length pre) = Some first_pass_dst)
    as Hd'.
  { rewrite list_lookup_insert_ne by lia. done. }
  destruct (index_found _ _ _ Hd') as [j Hj].
  pose proof (lookup_lt_Some _ _ _ (index_Ok _ _ _ Hj)) as Hjb.
  unfold second_pass_cmd. rewrite Hi. unfold mbind, result_bind.
  rewrite (set_item_Ok (i + 1) "2" cmd) by lia.
  rewrite Hj, set_item_Ok by done. eauto.
Qed.

Lemma null_sink_not_pass (h : Host) : null_sink h <> "-pass".
Proof. unfold null_sink. by case_match. Qed.

#[local] Hint Resolve quiet_emit_all invocations_monitor
  invocations_reader_tail invocations_log_remaining : quiet.

(** Rewrite the invocations of the computation at the head of the goal,
    which calls [run_ffmpeg] not once. *)
Ltac quiet_rest fs :=
  match goal with
  | |- context [invocations ((?m fs).1.1)] =>
      let Hq := fresh "Hq" in
      assert (quiet m) as Hq by (clear; quiet_auto);
      rewrite (Hq fs); clear Hq
  end.

(** The second pass calls [run_ffmpeg] once when it applies, the first
    pass returned 0 and the command is there, and never otherwise. *)
Lemma second_pass_invocations
    (h : Host) (w : World) (wid : Z) (job : Models.Job) (cmd : list string)
    (first_pass_dst dst : string) (return_code : Z) (elapsed : option Q)
    (fs : FS) :
  (invocations
     (second_pass h w wid job cmd first_pass_dst dst return_code elapsed
        fs).1.1 = []
   \/ exists cmd2,
       invocations
         (second_pass h w wid job cmd first_pass_dst dst return_code elapsed
            fs).1.1 = [cmd2]
       /\ two_pass_applies job = true /\ return_code = 0)
  /\ (two_pass_applies job = true -> return_code = 0 ->
      forall c,
        second_pass_cmd h fs job cmd first_pass_dst dst = Ok c ->
        invocations
          (second_pass h w wid job cmd first_pass_dst dst return_code elapsed
             fs).1.1 = [c]).
Proof.
  unfold second_pass.
  destruct (two_pass_applies job) eqn:Htp; cbn [andb].
  - destruct (return_code =? 0) eqn:Hrc.
    + apply Z.eqb_eq in Hrc.
      unfold mbind, M_bind. rewrite bind_trace. cbn [get_fs fst snd app].
      rewrite bind_trace.
      destruct (second_pass_cmd h fs job cmd first_pass_dst dst) as [c|e];
        cbn [lift ret raise fst snd app].
      * rewrite bind_trace. cbn [emit fst snd].
        rewrite invocations_app. quiet_rest fs.
        split; [right; exists c; by repeat split|].
        by intros _ _ c' [= ->].
      * split; [by left|]. by intros _ _ c' [=].
    + split; [by left|]. intros _ ->. done.
  - split; [by left|]. done.
Qed.

(** The second part of [run] calls [run_ffmpeg] on the command it was
    given, and a second time only in the second pass. *)
Lemma run_encode_invocations
    (h : Host) (w : World) (wid : Z) (job : Models.Job)
    (dst first_pass_dst : string) (cmd : list string) (fs : FS) :
  (invocations (run_encode h w wid job dst first_pass_dst cmd fs).1.1 = [cmd]
   \/ exists cmd2,
       invocations (run_encode h w wid job dst first_pass_dst cmd fs).1.1
       = [cmd; cmd2]
       /\ two_pass_applies job = true
       /\ started (pass1 w) = true
       /\ exited_immediately (pass1 w) = None
       /\ exit_code (pass1 w) = Some 0)
  /\ (two_pass_applies job = true ->
      started (pass1 w) = true ->
      exited_immediately (pass1 w) = None ->
      exit_code (pass1 w) = Some 0 ->
      forall c,
        second_pass_cmd h (fs_after (pass1 w)) job cmd first_pass_dst dst
        = Ok c ->
        invocations (run_encode h w wid job dst first_pass_dst cmd fs).1.1
        = [cmd; c]).
Proof.
  unfold run_encode, mbind, M_bind.
  do 5 (rewrite bind_trace; cbn [emit fst snd]; rewrite invocations_app).
  cbn [invocations flat_map app].
  destruct (started (pass1 w)) eqn:Hst; cbn [negb].
  2:{ quiet_rest fs. split; [by left|]. done. }
  destruct (exited_immediately (pass1 w)) as [out|] eqn:Him.
  { quiet_rest fs. split; [by left|]. done. }
  rewrite bind_trace; cbn [emit fst snd]; rewrite invocations_app.
  cbn [invocations flat_map app].
  destruct (monitor wid (start_time w) (mkReader None (start_time w) [])
              (mkLoop (loop_start_time w) None false) (steps (pass1 w)))
    as [[events reader] loop] eqn:Hmon.
  assert (invocations events = []) as Hev.
  { pose proof (invocations_monitor wid (start_time w) (steps (pass1 w))
                  (mkReader None (start_time w) [])
                  (mkLoop (loop_start_time w) None false)) as H.
    by rewrite Hmon in H. }
  rewrite bind_trace, emit_all_run. cbn [fst snd].
  rewrite invocations_app, Hev. cbn [app].
  destruct (exit_code (pass1 w)) as [return_code|] eqn:Hex.
  2:{ quiet_rest fs. split; [by left|]. done. }
  rewrite bind_trace. cbn [put_fs fst snd app].
  rewrite bind_trace, emit_all_run. cbn [fst snd].
  rewrite invocations_app, invocations_reader_tail. cbn [app].
  rewrite bind_trace, invocations_app.
  destruct (second_pass_invocations h w wid job cmd first_pass_dst dst
              return_code (elapsed loop) (fs_after (pass1 w)))
    as [Hsp Hfw].
  set (sp := second_pass h w wid job cmd first_pass_dst dst return_code
               (elapsed loop) (fs_after (pass1 w))) in *.
  assert (match sp.2 with
          | Value a =>
              invocations
                ((let '(return_code0, elapsed0) := a in
                  let '(remaining_stderr, pipe) := read (tail_main (pass1 w)) in
                  bind (emit_all (log_remaining wid remaining_stderr))
                    (fun _ =>
                       if return_code0 =? 0
                       then bind (emit_final_progress h wid elapsed0)
                              (fun _ => finish_success wid job dst)
                       else finish_failure wid return_code0 pipe)) sp.1.2).1.1
          | _ => []
          end = []) as Hrest.
  { destruct (sp.2) as [[rc el]| |]; [|done..].
    unfold read. quiet_rest (sp.1.2). done. }
  split.
  - destruct Hsp as [Hnone|(cmd2 & Hone & Htp & Hrc)].
    + left. rewrite Hnone. cbn [app]. f_equal.
      destruct (sp.2) as [[rc el]| |]; [|done..]. exact Hrest.
    + right. exists cmd2. rewrite Hone. cbn [app].
      split; [|by subst].
      do 2 f_equal. destruct (sp.2) as [[rc el]| |]; [|done..]. exact Hrest.
  - intros Htp _ _ [= ->] c Hc. rewrite (Hfw Htp eq_refl c Hc). cbn [app].
    do 2 f_equal. destruct (sp.2) as [[rc el]| |]; [|done..]. exact Hrest.
Qed.

Lemma resolve_existing_value
    (wid : Z) (settings : Settings) (d0 dst : string) (fs fs' : FS)
    (t : list Event) :
  resolve_existing wid settings d0 fs = (t, fs', Value dst) ->
  t = [] /\ fs' = fs.
Proof.
  unfold resolve_existing, mbind, M_bind, bind, get_fs, emit, return_, ret.
  repeat case_match; intros Hres; simplify_eq; done.
Qed.

(** What the first part of [run] hands to the second. *)
Lemma run_prepare_returns
    (h : Host) (w : World) (wid : Z) (job : Models.Job) (settings : Settings)
    (fs fs' : FS) (t : list Event) (dst first_pass_dst : string)
    (cmd : list string) :
  run_prepare h w wid job settings fs
  = (t, fs', Value (dst, first_pass_dst, cmd)) ->
  exists d0,
    Ffmpeg.out_path h fs (Models.dst_dir job) (Models.src job)
      (Models.format job) = Ok (fs', d0)
    /\ resolve_existing wid settings d0 fs' = ([], fs', Value dst)
    /\ first_pass_dst = Worker.first_pass_dst h job dst
    /\ Ffmpeg.build_ffmpeg_cmd h fs' (build_args job first_pass_dst) = Ok cmd.
Proof.
  unfold run_prepare. destruct (stopped_at_start w); [discriminate|].
  unfold mbind, M_bind, bind at 1. cbn [get_fs].
  destruct (Os.path_exists fs (Models.src job)); cbn [negb]; [|discriminate].
  unfold bind at 1.
  destruct (Ffmpeg.out_path h fs (Models.dst_dir job) (Models.src job)
              (Models.format job)) as [[fs1 d0]|e]; cbn [lift ret raise];
    [|discriminate].
  unfold bind at 1. cbn [put_fs]. unfold bind at 1.
  destruct (resolve_existing wid settings d0 fs1) as [[t1 fs2] [d| |e]] eqn:Hres;
    [|discriminate..].
  apply resolve_existing_value in Hres as Hres'. destruct Hres' as [-> ->].
  unfold bind at 1. cbn [get_fs]. unfold bind at 1.
  destruct (Ffmpeg.build_ffmpeg_cmd h fs1
              (build_args job (Worker.first_pass_dst h job d)))
    as [c|e] eqn:Hb; cbn [lift ret raise fst snd]; [|discriminate].
  intros [= <- <- <- <- <-]. exists d0. by repeat split.
Qed.

Lemma run_invocations
    (h : Host) (w : World) (wid : Z) (job : Models.Job) (settings : Settings)
    (fs : FS) :
  invocations (run h w wid job settings fs).1
  = match (run_prepare h w wid job settings fs).2 with
    | Value (dst, first_pass_dst, cmd) =>
        invocations
          (run_encode h w wid job dst first_pass_dst cmd
             (run_prepare h w wid job settings fs).1.2).1.1
    | _ => []
    end.
Proof.
  assert (invocations (run h w wid job settings fs).1
          = invocations (run_body h w wid job settings fs).1.1) as ->.
  { unfold run. destruct (run_body h w wid job settings fs) as [[t fs'] [?| |e]];
      cbn [fst]; try done.
    rewrite invocations_app. cbn. by rewrite app_nil_r. }
  unfold run_body, mbind, M_bind. rewrite bind_trace, invocations_app.
  rewrite (quiet_run_prepare h w wid job settings fs). cbn [app].
  by destruct ((run_prepare h w wid job settings fs).2) as [[[d f] c]| |].
Qed.

(** The invocations of a run: none, or the command built for the first
    pass destination, or that command and a second one in the conditions
    of the second pass. *)
Lemma run_invocations_cases
    (h : Host) (w : World) (wid : Z) (job : Models.Job) (settings : Settings)
    (fs : FS) :
  invocations (run h w wid job settings fs).1 = []
  \/ exists cmd fs1 d0 dst,
      Ffmpeg.out_path h fs (Models.dst_dir job) (Models.src job)
        (Models.format job) = Ok (fs1, d0)
      /\ resolve_existing wid settings d0 fs1 = ([], fs1, Value dst)
      /\ last cmd = Some (first_pass_dst h job dst)
      /\ (invocations (run h w wid job settings fs).1 = [cmd]
          \/ exists cmd2,
              invocations (run h w wid job settings fs).1 = [cmd; cmd2]
              /\ two_pass_applies job = true
              /\ started (pass1 w) = true
              /\ exited_immediately (pass1 w) = None
              /\ exit_code (pass1 w) = Some 0)
      /\ (two_pass_applies job = true ->
          PyList.mem "-pass" cmd = true ->
          started (pass1 w) = true ->
          exited_immediately (pass1 w) = None ->
          exit_code (pass1 w) = Some 0 ->
          exists cmd2,
            invocations (run h w wid job settings fs).1 = [cmd; cmd2]).
Proof.
  rewrite run_invocations.
  destruct (run_prepare h w wid job settings fs) as [[t fs1] o] eqn:Hp.
  cbn [fst snd]. destruct o as [[[dst fpd] cmd]| |]; [|by left..].
  right.
  apply run_prepare_returns in Hp as (d0 & Hout & Hres & -> & Hb).
  destruct (build_ffmpeg_cmd_ends_with_dst _ _ _ _ Hb) as [pre Hcmd].
  cbn [Ffmpeg.dst build_args] in Hcmd.
  destruct (run_encode_invocations h w wid job dst (first_pass_dst h job dst)
              cmd fs1) as [Hcases Hfw].
  exists cmd, fs1, d0, dst. split; [done|]. split; [done|]. split.
  { rewrite Hcmd. apply last_ends_with. }
  split; [exact Hcases|].
  intros Htp Hmem Hst Him Hex.
  destruct (second_pass_cmd_patches h (fs_after (pass1 w)) job pre
              (first_pass_dst h job dst) dst) as [c Hc].
  - unfold first_pass_dst. rewrite Htp. apply null_sink_not_pass.
  - by rewrite <- Hcmd.
  - exists c. rewrite <- Hcmd in Hc. by apply Hfw.
Qed.

(** C3, as the code has it. For a job with two-pass size reduction, the
    worker calls the encoder at most twice; the destination argument of
    the first call is the null sink of the platform; there is a second
    call only if the first process was started, did not exit at once and
    exited with code 0; and there are exactly two calls when it did so
    and the first command carries the pass arguments. *)
Theorem two_pass_job_invocations
    (h : Host) (w : World) (wid : Z) (job : Models.Job) (settings : Settings)
    (fs : FS) :
  two_pass_applies job = true ->
  (invocations (run h w wid job settings fs).1 = []
   \/ (exists cmd1,
         invocations (run h w wid job settings fs).1 = [cmd1]
         /\ last cmd1 = Some (null_sink h))
   \/ (exists cmd1 cmd2,
         invocations (run h w wid job settings fs).1 = [cmd1; cmd2]
         /\ last cmd1 = Some (null_sink h)
         /\ started (pass1 w) = true
         /\ exited_immediately (pass1 w) = None
         /\ exit_code (pass1 w) = Some 0))
  /\ (forall cmd1 rest,
        invocations (run h w wid job settings fs).1 = cmd1 :: rest ->
        PyList.mem "-pass" cmd1 = true ->
        started (pass1 w) = true ->
        exited_immediately (pass1 w) = None ->
        exit_code (pass1 w) = Some 0 ->
        length (invocations (run h w wid job settings fs).1) = 2%nat).
Proof.
  intros Htp.
  destruct (run_invocations_cases h w wid job settings fs)
    as [Hnone|(cmd & fs1 & d0 & dst & _ & _ & Hlast & Hcases & Hfw)].
  { split; [by left|]. intros cmd1 rest H. by rewrite Hnone in H. }
  unfold first_pass_dst in Hlast. rewrite Htp in Hlast.
  split.
  - right. destruct Hcases as [Hone|(cmd2 & Htwo & _ & Hst & Him & Hex)].
    + left. by exists cmd.
    + right. by exists cmd, cmd2.
  - intros cmd1 rest Hinv Hmem Hst Him Hex.
    assert (cmd1 = cmd) as ->.
    { destruct Hcases as [Hone|(cmd2 & Htwo & _)]; congruence. }
    destruct (Hfw Htp Hmem Hst Him Hex) as [cmd2 ->]. done.
Qed.

Lemma two_pass_job_invocations_witness :
  two_pass_applies two_pass_job = true
  /\ length (invocations
               (run example_host two_pass_world 1 two_pass_job overwrite
                  example_fs).1) = 2%nat.
Proof.
  split; [reflexivity|].
  destruct (two_pass_job_invocations example_host two_pass_world 1
              two_pass_job overwrite example_fs eq_refl) as [_ Hfw].
  eapply Hfw; reflexivity.
Defined.

(** C3, as the claim states it, fails: when the first pass of a two-pass
    job exits with code 1, the worker has called the encoder once and
    reports the failure. *)
Lemma two_pass_job_with_one_invocation :
  two_pass_applies two_pass_job = true
  /\ length (invocations
               (run example_host failing_world 1 two_pass_job overwrite
                  example_fs).1) = 1%nat
  /\ completions
       (run example_host failing_world 1 two_pass_job overwrite example_fs).1
     = [(false, "Conversion failed with exit code 1", "")].
Proof. repeat split; vm_compute; reflexivity. Qed.

(** C10. The first pass goes to the null sink, and there is a second
    call of the encoder, only for a job with [two_pass] and [reduce_size]
    set and [extract_audio_only] not set. For any other job, so for one
    with [two_pass] set and [reduce_size] not set or [extract_audio_only]
    set, the worker calls the encoder at most once, and the destination
    argument of that call is the destination path that [out_path] computed
    and the duplicate policy resolved; the video job of the examples with
    [two_pass] alone is encoded by one call that ends with [/out/a.mp4]. *)
Theorem single_pass_unless_two_pass_applies
    (h : Host) (w : World) (wid : Z) (job : Models.Job) (settings : Settings)
    (fs : FS) :
  (two_pass_applies job = true <->
   Models.two_pass job = true /\ Models.reduce_size job = true
   /\ Models.extract_audio_only job = false)
  /\ (Models.two_pass job = true ->
      Models.reduce_size job = false \/ Models.extract_audio_only job = true ->
      two_pass_applies job = false)
  /\ (forall dst, first_pass_dst h job dst <> dst -> two_pass_applies job = true)
  /\ ((2 <= length (invocations (run h w wid job settings fs).1))%nat ->
      two_pass_applies job = true)
  /\ (two_pass_applies job = false ->
      invocations (run h w wid job settings fs).1 = []
      \/ exists cmd fs1 d0 dst,
          invocations (run h w wid job settings fs).1 = [cmd]
          /\ Ffmpeg.out_path h fs (Models.dst_dir job) (Models.src job)
               (Models.format job) = Ok (fs1, d0)
          /\ resolve_existing wid settings d0 fs1 = ([], fs1, Value dst)
          /\ last cmd = Some dst)
  /\ (two_pass_applies one_pass_job = false
      /\ exists cmd,
          invocations
            (run example_host two_pass_world 1 one_pass_job overwrite
               example_fs).1 = [cmd]
          /\ last cmd = Some "/out/a.mp4").
Proof.
  split; [|split; [|split; [|split; [|split]]]].
  - unfold two_pass_applies.
    destruct (Models.two_pass job), (Models.reduce_size job),
      (Models.extract_audio_only job); cbn; intuition discriminate.
  - unfold two_pass_applies. intros -> [-> | ->]; cbn; [done|].
    by destruct (Models.reduce_size job).
  - intros dst. unfold first_pass_dst.
    by destruct (two_pass_applies job).
  - destruct (run_invocations_cases h w wid job settings fs)
      as [->|(cmd & fs1 & d0 & dst & _ & _ & _ & Hcases & _)]; [cbn; lia|].
    destruct Hcases as [->|(cmd2 & _ & Htp & _)]; [cbn; lia|done].
  - intros Htp.
    destruct (run_invocations_cases h w wid job settings fs)
      as [Hnone|(cmd & fs1 & d0 & dst & Hout & Hres & Hlast & Hcases & _)];
      [by left|].
    right. exists cmd, fs1, d0, dst.
    unfold first_pass_dst in Hlast. rewrite Htp in Hlast.
    destruct Hcases as [Hone|(cmd2 & _ & Htp' & _)]; [done|congruence].
  - split; [reflexivity|]. eexists. split; vm_compute; reflexivity.
Qed.

End Invocations.

(** ** Failure reports *)

Section Failures.
Import PyStr Worker Examples.

(** C4, on the code. The encoder runs for seven seconds, writes the line
    "Error while decoding stream ..." and exits with code 1. The reader
    logs the line; the completion event reports a failure with the
    message "Conversion failed with exit code 1", which does not contain
    the line. Whatever the pipe held, the text read in the failure branch
    is empty, because [run] has read the pipe to its end before. *)
Theorem failure_message_without_diagnostic_line :
  completions
    (run example_host failing_world 1 audio_job overwrite example_fs).1
  = [(false, "Conversion failed with exit code 1", "")]
  /\ In (sig_log 1
           "Error while decoding stream #0:0: Invalid data found when processing input")
        (run example_host failing_world 1 audio_job overwrite example_fs).1
  /\ contains "Error while decoding" "Conversion failed with exit code 1"
     = false
  /\ (forall wid return_code pipe fs,
        finish_failure wid return_code (read pipe).2 fs
        = ([sig_done wid false
              ("Conversion failed with exit code " +:+ str_int return_code)
              ""],
           fs, Value tt)).
Proof.
  split; [vm_compute; reflexivity|].
  split; [vm_compute; tauto|].
  split; [vm_compute; reflexivity|].
  intros wid return_code pipe fs. reflexivity.
Qed.

(** C5, on the code. The encoder exits with code 0 and leaves an output of
    512 bytes, or none. The statement that emits the last progress event
    reads the name [speed_str], which [run] never binds, so it raises
    [NameError]; the handler of [run] reports "Error: name 'speed_str' is
    not defined", and the checks of the output are not reached. The same
    holds on every host and for every value of [elapsed]: the statement
    raises. *)
Theorem output_checks_not_reached :
  completions
    (run example_host small_output_world 1 audio_job overwrite example_fs).1
  = [(false, "Error: name 'speed_str' is not defined", "")]
  /\ completions
       (run example_host missing_output_world 1 audio_job overwrite
          example_fs).1
     = [(false, "Error: name 'speed_str' is not defined", "")]
  /\ Os.getsize (fs_after (pass1 small_output_world)) "/out/a.mp3" = Ok 512
  /\ exit_code (pass1 small_output_world) = Some 0
  /\ (forall h wid elapsed fs,
        exists e, emit_final_progress h wid elapsed fs = ([], fs, Raised e)).
Proof.
  split; [vm_compute; reflexivity|].
  split; [vm_compute; reflexivity|].
  split; [vm_compute; reflexivity|].
  split; [reflexivity|].
  intros h wid [q|] fs; eexists; reflexivity.
Qed.

End Failures.

(** * Further properties *)

(** ** Admission order and worker ids *)

Section Admission.
Import Orchestrator Schedule Examples.

Lemma started_jobs_app (t1 t2 : list Event) :
  started_jobs (t1 ++ t2) = started_jobs t1 ++ started_jobs t2.
Proof. unfold started_jobs. apply flat_map_app. Qed.

Lemma started_wids_app (t1 t2 : list Event) :
  started_wids (t1 ++ t2) = started_wids t1 ++ started_wids t2.
Proof. unfold started_wids. apply flat_map_app. Qed.

Lemma process_queue_loop_fifo (fuel : nat) (s : State) :
  started_jobs (process_queue_loop fuel s).1
    ++ job_queue (process_queue_loop fuel s).2
  = job_queue s.
Proof.
  revert s. induction fuel as [|fuel IH]; intros s; [done|].
  cbn [process_queue_loop].
  destruct (admit_one s) as [[e s']|] eqn:Ha; [|done].
  specialize (IH s').
  apply admit_one_inv in Ha as (_ & job & rest & Hq & -> & ->).
  destruct (process_queue_loop fuel _) as [es s''].
  cbn [fst snd job_queue] in *.
  rewrite started_jobs_app, <- app_assoc, IH, Hq. done.
Qed.

Lemma step_fifo (op : Op) (s : State) :
  is_stop_all op = false ->
  started_jobs (step op s).1 ++ job_queue (step op s).2
  = job_queue s ++ submitted [op].
Proof.
  intros Hop. destruct op; try discriminate;
    cbn [step fst snd submitted flat_map]; rewrite ?app_nil_r; try done.
  - unfold enqueue, process_queue. by rewrite process_queue_loop_fifo.
  - unfold on_worker_done, process_queue.
    match goal with |- context [process_queue_loop ?f ?s0] =>
      pose proof (process_queue_loop_fifo f s0) as H;
      destruct (process_queue_loop f s0) as [es s2] end.
    cbn [fst snd job_queue] in *. exact H.
Qed.

(** X1. As long as [stop_all] is not called, no job is lost, started
    twice or overtaken: the jobs on which workers were started, in the
    order of their start, followed by the pending queue, are the jobs that
    were pending at first followed by the submitted ones in the order of
    submission. *)
Theorem admission_follows_submission_order (st : State) (ops : list Op) :
  Forall (fun op => is_stop_all op = false) ops ->
  started_jobs (steps ops st).1 ++ job_queue (steps ops st).2
  = job_queue st ++ submitted ops.
Proof.
  revert st. induction ops as [|op ops IH]; intros st Hops.
  - cbn. by rewrite app_nil_r.
  - apply Forall_cons in Hops as [Hop Hops]. cbn [steps].
    pose proof (step_fifo op st Hop) as H1. specialize (IH (step op st).2 Hops).
    destruct (step op st) as [e s1]. cbn [fst snd] in *.
    destruct (steps ops s1) as [es s2]. cbn [fst snd] in *.
    rewrite started_jobs_app, <- app_assoc, IH, app_assoc, H1.
    rewrite (submitted_cons op ops). by rewrite app_assoc.
Qed.

Lemma admission_follows_submission_order_witness :
  Forall (fun op => is_stop_all op = false) example_ops
  /\ started_jobs (steps example_ops (init 1 2 example_heap)).1
       ++ job_queue (steps example_ops (init 1 2 example_heap)).2
     = [0; 1; 2; 3]%nat.
Proof.
  assert (Forall (fun op => is_stop_all op = false) example_ops) as H
    by (unfold example_ops; repeat constructor).
  split; [exact H|].
  exact (admission_follows_submission_order (init 1 2 example_heap)
           example_ops H).
Defined.

Lemma consecutive_app (first : Z) (n m : nat) :
  consecutive first (n + m)
  = consecutive first n ++ consecutive (first + Z.of_nat n) m.
Proof.
  unfold consecutive. rewrite seq_app, map_app. f_equal.
  cbn [Nat.add].
  replace (seq n m) with ((fun i => n + i)%nat <$> seq 0 m)
    by (rewrite fmap_add_seq; f_equal; lia).
  rewrite <- list_fmap_compose. apply map_ext. intros i. cbn. lia.
Qed.

Lemma process_queue_loop_wids (fuel : nat) (s : State) :
  started_wids (process_queue_loop fuel s).1
  = consecutive (next_wid s)
      (length (started_wids (process_queue_loop fuel s).1))
  /\ next_wid (process_queue_loop fuel s).2
     = next_wid s
       + Z.of_nat (length (started_wids (process_queue_loop fuel s).1)).
Proof.
  revert s. induction fuel as [|fuel IH]; intros s.
  - cbn. split; [done|lia].
  - cbn [process_queue_loop].
    destruct (admit_one s) as [[e s']|] eqn:Ha; [|cbn; split; [done|lia]].
    destruct (IH s') as [IH1 IH2].
    apply admit_one_inv in Ha as (_ & job & rest & Hq & -> & ->).
    destruct (process_queue_loop fuel _) as [es s''].
    cbn [fst snd next_wid] in *.
    rewrite started_wids_app. cbn [started_wids flat_map app length].
    fold (started_wids es).
    split.
    + change (S (length (started_wids es)))
        with (1 + length (started_wids es))%nat.
      rewrite consecutive_app. cbn [consecutive seq map app].
      rewrite Z.add_0_r. f_equal. exact IH1.
    + rewrite IH2. lia.
Qed.

Lemma step_wids (op : Op) (s : State) :
  started_wids (step op s).1
  = consecutive (next_wid s) (length (started_wids (step op s).1))
  /\ next_wid (step op s).2
     = next_wid s + Z.of_nat (length (started_wids (step op s).1)).
Proof.
  destruct op; cbn [step fst snd]; try (cbn; split; [done|lia]).
  - unfold enqueue, process_queue.
    match goal with |- context [process_queue_loop ?f ?s0] =>
      exact (process_queue_loop_wids f s0) end.
  - unfold on_worker_done, process_queue.
    match goal with |- context [process_queue_loop ?f ?s0] =>
      pose proof (process_queue_loop_wids f s0) as H;
      destruct (process_queue_loop f s0) as [es s2] end.
    exact H.
Qed.

(** X2. Worker ids are never reused: over any sequence of calls, the ids
    of the workers that are started are the consecutive integers from the
    [next_wid] of the first state on, in the order of the starts, and
    [next_wid] ends just above the last of them. *)
Theorem worker_ids_are_consecutive (st : State) (ops : list Op) :
  started_wids (steps ops st).1
  = consecutive (next_wid st) (length (started_wids (steps ops st).1))
  /\ next_wid (steps ops st).2
     = next_wid st + Z.of_nat (length (started_wids (steps ops st).1))
  /\ NoDup (started_wids (steps ops st).1).
Proof.
  assert (started_wids (steps ops st).1
          = consecutive (next_wid st)
              (length (started_wids (steps ops st).1))
          /\ next_wid (steps ops st).2
             = next_wid st
               + Z.of_nat (length (started_wids (steps ops st).1))) as H.
  { revert st. induction ops as [|op ops IH]; intros st.
    - cbn. split; [done|lia].
    - cbn [steps]. destruct (step_wids op st) as [H1 H2].
      destruct (IH (step op st).2) as [IH1 IH2].
      destruct (step op st) as [e s1]. cbn [fst snd] in *.
      destruct (steps ops s1) as [es s2]. cbn [fst snd] in *.
      rewrite started_wids_app, length_app, consecutive_app.
      split.
      + rewrite <- H1, <- H2. by f_equal.
      + rewrite IH2, H2. lia. }
  destruct H as [H1 H2]. split; [done|]. split; [done|].
  rewrite H1. unfold consecutive.
  apply NoDup_fmap_2; [|apply NoDup_seq].
  intros i j Hij. lia.
Qed.

Lemma with_workers_same (st : State) : with_workers (workers st) st = st.
Proof. by destruct st. Qed.

(** X3. Calls for an id that no active worker has are no-ops: pausing,
    resuming or stopping it leaves the orchestrator as it is, and its
    completion is relayed and followed by the usual attempt to admit
    pending jobs, with no worker removed. *)
Theorem calls_on_unknown_id_change_nothing
    (st : State) (wid : Z) (ok : bool) (msg out : string) :
  workers st !! wid = None ->
  pause_worker wid st = st
  /\ resume_worker wid st = st
  /\ stop_worker wid st = st
  /\ on_worker_done wid ok msg out st
     = (sig_worker_done wid ok msg out :: (process_queue st).1,
        (process_queue st).2).
Proof.
  intros Hw. unfold pause_worker, resume_worker, stop_worker.
  assert (forall f, alter f wid (workers st) = workers st) as Halter.
  { intros f. apply map_eq. intros k. rewrite lookup_alter.
    case_decide; [subst; by rewrite Hw|done]. }
  rewrite !Halter, with_workers_same. repeat split.
  unfold on_worker_done. rewrite delete_id by done.
  replace (mkState (threads_per_job st) (max_parallel st) (workers st)
             (job_queue st) (settings st) (next_wid st) (jobs st))
    with st by (by destruct st).
  by destruct (process_queue st).
Qed.

Lemma calls_on_unknown_id_change_nothing_witness :
  workers (init 1 2 example_heap) !! 7 = None
  /\ pause_worker 7 (init 1 2 example_heap) = init 1 2 example_heap
  /\ stop_worker 7 (init 1 2 example_heap) = init 1 2 example_heap.
Proof.
  assert (workers (init 1 2 example_heap) !! 7 = None) as H by reflexivity.
  split; [exact H|].
  destruct (calls_on_unknown_id_change_nothing (init 1 2 example_heap) 7
              false "" "" H) as (H1 & _ & H3 & _).
  split; [exact H1 | exact H3].
Defined.

Lemma step_after_stop_all (op : Op) (s : State) :
  is_enqueue op = false ->
  workers s = ∅ -> job_queue s = [] ->
  (step op s).1
  = match op with
    | WorkerDone wid ok msg out => [sig_worker_done wid ok msg out]
    | _ => []
    end
  /\ workers (step op s).2 = ∅
  /\ job_queue (step op s).2 = []
  /\ jobs (step op s).2 = jobs s.
Proof.
  intros Hop Hw Hq. destruct op; try discriminate; cbn [step fst snd].
  - unfold on_worker_done, process_queue. cbn [job_queue]. rewrite Hq.
    cbn [length process_queue_loop fst snd workers job_queue jobs].
    rewrite Hw, delete_empty. done.
  - done.
  - unfold pause_worker. cbn. by rewrite Hw, alter_empty.
  - unfold resume_worker. cbn. by rewrite Hw, alter_empty.
  - unfold stop_worker. cbn. by rewrite Hw, alter_empty.
  - unfold pause_all. cbn. by rewrite Hw, fmap_empty.
  - unfold resume_all. cbn. by rewrite Hw, fmap_empty.
  - done.
Qed.

(** X4. [stop_all] discards the pending jobs: after it, whatever calls
    follow short of a new [enqueue], also the late completions of the
    stopped workers, no worker is started, both containers stay empty and
    the jobs are left as they were. *)
Theorem stop_all_discards_pending_jobs (st : State) (ops : list Op) :
  Forall (fun op => is_enqueue op = false) ops ->
  started_wids (steps ops (stop_all st)).1 = []
  /\ workers (steps ops (stop_all st)).2 = ∅
  /\ job_queue (steps ops (stop_all st)).2 = []
  /\ jobs (steps ops (stop_all st)).2 = jobs st.
Proof.
  intros Hops.
  assert (forall s, workers s = ∅ -> job_queue s = [] ->
            started_wids (steps ops s).1 = []
            /\ workers (steps ops s).2 = ∅
            /\ job_queue (steps ops s).2 = []
            /\ jobs (steps ops s).2 = jobs s) as H.
  { induction ops as [|op ops IH]; intros s Hw Hq; [done|].
    apply Forall_cons in Hops as [Hop Hops]. cbn [steps].
    destruct (step_after_stop_all op s Hop Hw Hq) as (He & Hw1 & Hq1 & Hj1).
    destruct (step op s) as [e s1]. cbn [fst snd] in *.
    destruct (IH Hops s1 Hw1 Hq1) as (Hes & Hw2 & Hq2 & Hj2).
    destruct (steps ops s1) as [es s2]. cbn [fst snd] in *.
    rewrite started_wids_app, Hes, app_nil_r, He.
    repeat split; try done; [|congruence]. by destruct op. }
  apply (H (stop_all st)); reflexivity.
Qed.

Lemma stop_all_discards_pending_jobs_witness :
  Forall (fun op => is_enqueue op = false)
    [WorkerDone 1 false "Conversion failed with exit code -15" ""; PauseAll]
  /\ started_wids
       (steps [WorkerDone 1 false "Conversion failed with exit code -15" "";
               PauseAll]
          (stop_all (steps example_ops (init 1 2 example_heap)).2)).1 = [].
Proof.
  assert (Forall (fun op => is_enqueue op = false)
            [WorkerDone 1 false "Conversion failed with exit code -15" "";
             PauseAll]) as H by (repeat constructor).
  split; [exact H|].
  exact (proj1 (stop_all_discards_pending_jobs
                  (steps example_ops (init 1 2 example_heap)).2 _ H)).
Defined.

Lemma admit_one_stopped (w0 : worker) (wid : Z) (s s' : State)
    (e : list Event) :
  admit_one s = Some (e, s') ->
  fresh s /\ wid < next_wid s /\ stopped_or_gone w0 wid s ->
  fresh s' /\ wid < next_wid s' /\ stopped_or_gone w0 wid s'.
Proof.
  intros Ha (Hf & Hlt & Hs). split; [eauto using admit_one_fresh|].
  apply admit_one_inv in Ha as (_ & job & rest & _ & _ & ->).
  unfold stopped_or_gone in *. cbn [workers next_wid].
  split; [lia|]. rewrite lookup_insert_ne by lia. done.
Qed.

Lemma process_queue_loop_stopped (w0 : worker) (wid : Z) (fuel : nat)
    (s : State) :
  fresh s /\ wid < next_wid s /\ stopped_or_gone w0 wid s ->
  fresh (process_queue_loop fuel s).2
  /\ wid < next_wid (process_queue_loop fuel s).2
  /\ stopped_or_gone w0 wid (process_queue_loop fuel s).2.
Proof.
  revert s. induction fuel as [|fuel IH]; intros s H; [done|].
  cbn [process_queue_loop].
  destruct (admit_one s) as [[e s']|] eqn:Ha; [|done].
  specialize (IH s' (admit_one_stopped w0 wid s s' e Ha H)).
  by destruct (process_queue_loop fuel s') as [es s''].
Qed.

Lemma step_stopped (w0 : worker) (wid : Z) (op : Op) (s : State) :
  fresh s /\ wid < next_wid s /\ stopped_or_gone w0 wid s ->
  fresh (step op s).2 /\ wid < next_wid (step op s).2
  /\ stopped_or_gone w0 wid (step op s).2.
Proof.
  intros (Hf & Hlt & Hs).
  assert (forall f : worker -> worker,
            (forall w, w_stopped w = true -> w_stopped (f w) = true) ->
            (forall w, w_job (f w) = w_job w /\ w_wid (f w) = w_wid w) ->
            forall k,
              fresh (with_workers (alter f k (workers s)) s)
              /\ wid < next_wid (with_workers (alter f k (workers s)) s)
              /\ stopped_or_gone w0 wid
                   (with_workers (alter f k (workers s)) s)) as Halter.
  { intros f Hst Hid k. unfold fresh, stopped_or_gone in *.
    cbn [with_workers workers next_wid]. split; [|split; [done|]].
    - intros j. rewrite lookup_alter. case_decide; [|apply Hf].
      subst. rewrite fmap_is_Some. apply Hf.
    - rewrite lookup_alter. case_decide; [|done]. subst.
      destruct (workers s !! wid) as [w|]; [|done]. cbn.
      destruct Hs as (H1 & H2 & H3). destruct (Hid w) as [-> ->]. auto. }
  assert (forall f : worker -> worker,
            (forall w, w_stopped w = true -> w_stopped (f w) = true) ->
            (forall w, w_job (f w) = w_job w /\ w_wid (f w) = w_wid w) ->
            fresh (with_workers (f <$> workers s) s)
            /\ wid < next_wid (with_workers (f <$> workers s) s)
            /\ stopped_or_gone w0 wid (with_workers (f <$> workers s) s))
    as Hfmap.
  { intros f Hst Hid. unfold fresh, stopped_or_gone in *.
    cbn [with_workers workers next_wid]. split; [|split; [done|]].
    - intros j. rewrite lookup_fmap, fmap_is_Some. apply Hf.
    - rewrite lookup_fmap.
      destruct (workers s !! wid) as [w|]; [|done]. cbn.
      destruct Hs as (H1 & H2 & H3). destruct (Hid w) as [-> ->]. auto. }
  destruct op; cbn [step snd].
  - unfold enqueue, process_queue.
    match goal with |- context [process_queue_loop ?f ?s0] =>
      apply (process_queue_loop_stopped w0 wid f s0) end.
    done.
  - unfold on_worker_done, process_queue.
    match goal with |- context [process_queue_loop ?f ?s0] =>
      pose proof (process_queue_loop_stopped w0 wid f s0) as H;
      destruct (process_queue_loop f s0) as [es s2] end.
    apply H. unfold fresh, stopped_or_gone in *.
    cbn [workers next_wid]. split; [|split; [done|]].
    + intros j Hj. apply Hf.
      destruct (decide (wid0 = j)) as [->|Hne].
      * rewrite lookup_delete_eq in Hj. by destruct Hj.
      * by rewrite lookup_delete_ne in Hj.
    + destruct (decide (wid0 = wid)) as [->|Hne].
      * by rewrite lookup_delete_eq.
      * by rewrite lookup_delete_ne.
  - done.
  - apply Halter; [done|by intros []].
  - apply Halter; [done|by intros []].
  - apply Halter; [done|by intros []].
  - apply Hfmap; [done|by intros []].
  - apply Hfmap; [done|by intros []].
  - unfold fresh, stopped_or_gone. cbn [stop_all workers next_wid].
    split; [|split; [done|by rewrite lookup_empty]].
    intros j. rewrite lookup_empty. by intros [? ?].
Qed.

(** X5. A stop is never taken back. Once a worker is stopped, through any
    later calls its id either has no worker or has this worker, on the
    same job and still stopped: no call clears the flag, also not
    [resume], and the id is not given to another worker. *)
Theorem stopped_worker_stays_stopped
    (st : State) (ops : list Op) (wid : Z) (w0 : worker) :
  fresh st ->
  workers st !! wid = Some w0 ->
  w_stopped w0 = true ->
  stopped_or_gone w0 wid (steps ops st).2.
Proof.
  intros Hf Hw Hs.
  assert (fresh st /\ wid < next_wid st /\ stopped_or_gone w0 wid st) as H.
  { split; [done|]. split; [apply Hf; eauto|].
    unfold stopped_or_gone. by rewrite Hw. }
  clear Hf Hw Hs. revert st H.
  induction ops as [|op ops IH]; intros st H; [by destruct H as (_ & _ & H)|].
  cbn [steps]. pose proof (step_stopped w0 wid op st H) as H1.
  destruct (step op st) as [e s1]. cbn [snd] in *.
  specialize (IH s1 H1). by destruct (steps ops s1) as [es s2].
Qed.

Lemma stopped_worker_stays_stopped_witness :
  fresh Samples.stopped_state
  /\ workers Samples.stopped_state !! 1 = Some Samples.stopped_worker
  /\ stopped_or_gone Samples.stopped_worker 1
       (steps [ResumeWorker 1; ResumeAll; Enqueue [3]%nat]
          Samples.stopped_state).2.
Proof.
  assert (fresh Samples.stopped_state) as Hf.
  { unfold Samples.stopped_state. apply steps_inv.
    - repeat constructor.
    - unfold bounded. cbn [init workers max_parallel].
      rewrite map_size_empty. lia.
    - intros wid. cbn [init workers]. rewrite lookup_empty. by intros [? ?]. }
  assert (workers Samples.stopped_state !! 1 = Some Samples.stopped_worker)
    as Hw by (vm_compute; reflexivity).
  split; [exact Hf|]. split; [exact Hw|].
  exact (stopped_worker_stays_stopped Samples.stopped_state
           [ResumeWorker 1; ResumeAll; Enqueue [3]%nat] 1
           Samples.stopped_worker Hf Hw eq_refl).
Defined.

End Admission.

(** ** The completion event of a run *)

Section Completion.
Import PyStr Worker Trace Examples.

Lemma completions_app (t1 t2 : list Event) :
  completions (t1 ++ t2) = completions t1 ++ completions t2.
Proof. unfold completions. apply flat_map_app. Qed.

Lemma ends_with_done_app (wid : Z) (t1 t2 : list Event) :
  no_done t1 -> ends_with_done wid t2 -> ends_with_done wid (t1 ++ t2).
Proof.
  intros H1 (t' & ok & msg & out & -> & H2).
  exists (t1 ++ t'), ok, msg, out. split; [by rewrite app_assoc|].
  by rewrite completions_app, H1, H2.
Qed.

Lemma no_done_app (t1 t2 : list Event) :
  no_done t1 -> no_done t2 -> no_done (t1 ++ t2).
Proof. unfold no_done. intros H1 H2. by rewrite completions_app, H1, H2. Qed.

Lemma ends_with_done_single (wid : Z) (ok : bool) (msg out : string) :
  ends_with_done wid [sig_done wid ok msg out].
Proof. by exists [], ok, msg, out. Qed.

Lemma pending_bind {A B} (wid : Z) (m : M A) (k : A -> M B) :
  pending wid m -> (forall a, pending wid (k a)) -> pending wid (mbind k m).
Proof.
  intros Hm Hk fs. specialize (Hm fs).
  unfold mbind, M_bind, bind.
  destruct (m fs) as [[t1 fs1] [a| |e]]; cbn [fst snd] in *; try done.
  specialize (Hk a fs1). destruct (k a fs1) as [[t2 fs2] o2].
  cbn [fst snd] in *.
  destruct o2; auto using no_done_app, ends_with_done_app.
Qed.

Lemma finishing_bind {A B} (wid : Z) (m : M A) (k : A -> M B) :
  pending wid m -> (forall a, finishing wid (k a)) ->
  finishing wid (mbind k m).
Proof.
  intros Hm Hk fs. specialize (Hm fs).
  unfold mbind, M_bind, bind.
  destruct (m fs) as [[t1 fs1] [a| |e]]; cbn [fst snd] in *; try done.
  specialize (Hk a fs1). destruct (k a fs1) as [[t2 fs2] o2].
  cbn [fst snd] in *.
  destruct o2; auto using no_done_app, ends_with_done_app.
Qed.

Lemma pending_try_except {A} (wid : Z) (m : M A) (handler : exn -> M A) :
  pending wid m -> (forall e, pending wid (handler e)) ->
  pending wid (try_except m handler).
Proof.
  intros Hm Hh fs. specialize (Hm fs). unfold try_except.
  destruct (m fs) as [[t1 fs1] [a| |e]]; cbn [fst snd] in *; try done.
  specialize (Hh e fs1). destruct (handler e fs1) as [[t2 fs2] o2].
  cbn [fst snd] in *.
  destruct o2; auto using no_done_app, ends_with_done_app.
Qed.

Lemma finishing_try_except {A} (wid : Z) (m : M A) (handler : exn -> M A) :
  finishing wid m -> (forall e, finishing wid (handler e)) ->
  finishing wid (try_except m handler).
Proof.
  intros Hm Hh fs. specialize (Hm fs). unfold try_except.
  destruct (m fs) as [[t1 fs1] [a| |e]]; cbn [fst snd] in *; try done.
  specialize (Hh e fs1). destruct (handler e fs1) as [[t2 fs2] o2].
  cbn [fst snd] in *.
  destruct o2; auto using no_done_app, ends_with_done_app.
Qed.

Lemma pending_ret {A} (wid : Z) (a : A) : pending wid (ret a).
Proof. done. Qed.

Lemma pending_raise {A} (wid : Z) (e : exn) : pending wid (@raise A e).
Proof. done. Qed.

Lemma pending_get_fs (wid : Z) : pending wid get_fs.
Proof. done. Qed.

Lemma pending_put_fs (wid : Z) (fs : FS) : pending wid (put_fs fs).
Proof. done. Qed.

Lemma pending_lift {A} (wid : Z) (r : result A) : pending wid (lift r).
Proof. by destruct r. Qed.

Lemma pending_sig_log (wid : Z) (line : string) :
  pending wid (emit (sig_log wid line)).
Proof. done. Qed.

Lemma pending_sig_progress (wid : Z) (p e r : Q) (s1 s2 s3 : string) :
  pending wid (emit (sig_progress wid p e r s1 s2 s3)).
Proof. done. Qed.

Lemma pending_run_ffmpeg (wid : Z) (cmd : list string) :
  pending wid (emit (run_ffmpeg cmd)).
Proof. done. Qed.

Lemma pending_emit_all (wid : Z) (l : list Event) :
  completions l = [] -> pending wid (emit_all l).
Proof. intros H fs. by rewrite emit_all_run. Qed.

Lemma pending_done_return {A} (wid : Z) (ok : bool) (msg out : string) :
  pending wid (mbind (fun _ => @return_ A) (emit (sig_done wid ok msg out))).
Proof. intros fs. apply ends_with_done_single. Qed.

Lemma finishing_done_return {A} (wid : Z) (ok : bool) (msg out : string) :
  finishing wid (mbind (fun _ => @return_ A) (emit (sig_done wid ok msg out))).
Proof. intros fs. apply ends_with_done_single. Qed.

Lemma finishing_sig_done (wid : Z) (ok : bool) (msg out : string) :
  finishing wid (emit (sig_done wid ok msg out)).
Proof. intros fs. apply ends_with_done_single. Qed.

Create HintDb ends.
#[local] Hint Resolve pending_ret pending_raise pending_get_fs pending_put_fs
  pending_lift pending_sig_log pending_sig_progress pending_run_ffmpeg
  pending_done_return finishing_done_return finishing_sig_done : ends.

Ltac ends_auto :=
  repeat first
    [ match goal with |- forall _, _ => intro end
    | solve [auto with ends]
    | progress cbv zeta
    | match goal with
      | |- pending _ (mbind _ _) => apply pending_bind
      | |- finishing _ (mbind _ _) => apply finishing_bind
      | |- pending _ (try_except _ _) => apply pending_try_except
      | |- finishing _ (try_except _ _) => apply finishing_try_except
      | |- pending _ (if ?b then _ else _) => destruct b
      | |- finishing _ (if ?b then _ else _) => destruct b
      | |- pending _ (match ?x with _ => _ end) => destruct x
      | |- finishing _ (match ?x with _ => _ end) => destruct x
      end ].

Lemma pending_emit_final_progress (h : Host) (wid : Z) (elapsed : option Q) :
  pending wid (emit_final_progress h wid elapsed).
Proof. unfold emit_final_progress, load_elapsed, load_speed_str. ends_auto. Qed.

Lemma pending_cleanup_pass_logs (wid : Z) (dst : string) :
  pending wid (cleanup_pass_logs dst).
Proof. unfold cleanup_pass_logs, remove_if_exists. ends_auto. Qed.

Lemma pending_resolve_existing (wid : Z) (settings : Settings) (dst : string) :
  pending wid (resolve_existing wid settings dst).
Proof. unfold resolve_existing. ends_auto. Qed.

#[local] Hint Resolve pending_emit_final_progress pending_cleanup_pass_logs
  pending_resolve_existing : ends.

Lemma pending_run_prepare
    (h : Host) (w : World) (wid : Z) (job : Models.Job) (settings : Settings) :
  pending wid (run_prepare h w wid job settings).
Proof. unfold run_prepare. ends_auto. Qed.

Lemma pending_second_pass
    (h : Host) (w : World) (wid : Z) (job : Models.Job) (cmd : list string)
    (first_pass_dst dst : string) (return_code : Z) (elapsed : option Q) :
  pending wid
    (second_pass h w wid job cmd first_pass_dst dst return_code elapsed).
Proof. unfold second_pass. ends_auto. Qed.

Lemma finishing_finish_success (wid : Z) (job : Models.Job) (dst : string) :
  finishing wid (finish_success wid job dst).
Proof. unfold finish_success. ends_auto. Qed.

Lemma finishing_finish_failure (wid : Z) (return_code : Z)
    (pipe : list string) :
  finishing wid (finish_failure wid return_code pipe).
Proof. unfold finish_failure, read. ends_auto. Qed.

Lemma completions_reader_step
    (wid : Z) (start_time : Q) (r : Reader) (s : Step) :
  completions (reader_step wid start_time r s).1 = [].
Proof.
  destruct s; cbn [reader_step]; unfold reader_parse, watchdog;
    repeat case_match; simplify_eq; reflexivity.
Qed.

Lemma completions_main_step
    (wid : Z) (start_time : Q) (l : Loop) (s : Step) :
  completions (main_step wid start_time l s).1 = [].
Proof. destruct s; cbn [main_step]; repeat case_match; reflexivity. Qed.

Lemma completions_monitor
    (wid : Z) (start_time : Q) (ss : list Step) (r : Reader) (l : Loop) :
  completions (monitor wid start_time r l ss).1.1 = [].
Proof.
  revert r l. induction ss as [|s ss IH]; intros r l; [done|].
  cbn [monitor].
  pose proof (completions_reader_step wid start_time r s) as H1.
  pose proof (completions_main_step wid start_time l s) as H2.
  destruct (reader_step wid start_time r s) as [e1 r'].
  destruct (main_step wid start_time l s) as [e2 l'].
  specialize (IH r' l').
  destruct (monitor wid start_time r' l' ss) as [[es r''] l''].
  cbn [fst] in *. by rewrite !completions_app, H1, H2, IH.
Qed.

Lemma completions_logs (wid : Z) (f : string -> bool) (g : string -> string)
    (lines : list string) :
  completions
    (flat_map (fun line => if f line then [sig_log wid (g line)] else [])
       lines) = [].
Proof.
  induction lines as [|x lines IH]; [done|].
  cbn [flat_map]. rewrite completions_app, IH. by destruct (f x).
Qed.

Lemma completions_reader_tail (wid : Z) (lines : list string) :
  completions (reader_tail wid lines) = [].
Proof.
  apply (completions_logs wid (fun l => truthy (strip l)) strip).
Qed.

Lemma completions_log_remaining (wid : Z) (lines : list string) :
  completions (log_remaining wid lines) = [].
Proof.
  apply (completions_logs wid (fun l => truthy (strip l)) strip).
Qed.

#[local] Hint Resolve pending_run_prepare pending_second_pass
  finishing_finish_success finishing_finish_failure : ends.

Lemma finishing_run_encode
    (h : Host) (w : World) (wid : Z) (job : Models.Job)
    (dst first_pass_dst : string) (cmd : list string) :
  finishing wid (run_encode h w wid job dst first_pass_dst cmd).
Proof.
  unfold run_encode.
  pose proof (completions_monitor wid (start_time w) (steps (pass1 w))
                (mkReader None (start_time w) [])
                (mkLoop (loop_start_time w) None false)) as Hmon.
  destruct (monitor wid (start_time w) (mkReader None (start_time w) [])
              (mkLoop (loop_start_time w) None false) (steps (pass1 w)))
    as [[events reader] loop].
  cbn [fst] in Hmon. unfold read.
  pose proof (pending_emit_all wid events Hmon).
  pose proof (pending_emit_all wid _
                (completions_reader_tail wid (tail_reader (pass1 w)))).
  pose proof (pending_emit_all wid _
                (completions_log_remaining wid (tail_main (pass1 w)))).
  ends_auto.
Qed.

Lemma finishing_run_body
    (h : Host) (w : World) (wid : Z) (job : Models.Job) (settings : Settings) :
  finishing wid (run_body h w wid job settings).
Proof.
  unfold run_body. apply finishing_bind; [apply pending_run_prepare|].
  intros [[dst fpd] cmd]. apply finishing_run_encode.
Qed.

(** X6. Every execution of [Worker.run] emits exactly one completion
    event ([sig_done]); it carries the worker's own id, and [run] emits
    nothing after it: whatever the host, the encoder processes, the job,
    the settings and the file system are. *)
Theorem run_reports_completion_once_at_the_end
    (h : Host) (w : World) (wid : Z) (job : Models.Job) (settings : Settings)
    (fs : FS) :
  exists t ok msg out,
    (run h w wid job settings fs).1 = t ++ [sig_done wid ok msg out]
    /\ completions t = []
    /\ completions (run h w wid job settings fs).1 = [(ok, msg, out)].
Proof.
  assert (ends_with_done wid (run h w wid job settings fs).1) as Hend.
  { unfold run. pose proof (finishing_run_body h w wid job settings fs) as Hb.
    destruct (run_body h w wid job settings fs) as [[t fs'] [a| |e]];
      cbn [fst snd] in *; try done.
    exists t, false, ("Error: " +:+ str_exn e), "". done. }
  destruct Hend as (t & ok & msg & out & Ht & Hc).
  exists t, ok, msg, out. split; [done|]. split; [done|].
  by rewrite Ht, completions_app, Hc.
Qed.

End Completion.

(** ** Reports of success *)

Section Success.
Import PyStr Worker Trace Examples.

Lemma unsuccessful_bind {A B} (m : M A) (k : A -> M B) :
  unsuccessful m -> (forall a, unsuccessful (k a)) -> unsuccessful (mbind k m).
Proof.
  intros Hm Hk fs. unfold mbind, M_bind. rewrite bind_trace.
  apply Forall_app. split; [apply Hm|].
  destruct ((m fs).2); [apply Hk|done..].
Qed.

Lemma unsuccessful_bind_never {A B} (m : M A) (k : A -> M B) :
  never_value m -> unsuccessful m -> unsuccessful (mbind k m).
Proof.
  intros Hn Hm fs. unfold mbind, M_bind. rewrite bind_trace.
  apply Forall_app. split; [apply Hm|].
  specialize (Hn fs). by destruct ((m fs).2).
Qed.

Lemma unsuccessful_try_except {A} (m : M A) (handler : exn -> M A) :
  unsuccessful m -> (forall e, unsuccessful (handler e)) ->
  unsuccessful (try_except m handler).
Proof.
  intros Hm Hh fs. unfold try_except.
  specialize (Hm fs). destruct (m fs) as [[t1 fs1] [a| |e]]; cbn [fst] in *;
    try done.
  specialize (Hh e fs1). destruct (handler e fs1) as [[t2 fs2] o2].
  cbn [fst] in *. by apply Forall_app.
Qed.

Lemma unsuccessful_ret {A} (a : A) : unsuccessful (ret a).
Proof. intros fs. constructor. Qed.

Lemma unsuccessful_raise {A} (e : exn) : unsuccessful (@raise A e).
Proof. intros fs. constructor. Qed.

Lemma unsuccessful_return {A} : unsuccessful (@return_ A).
Proof. intros fs. constructor. Qed.

Lemma unsuccessful_get_fs : unsuccessful get_fs.
Proof. intros fs. constructor. Qed.

Lemma unsuccessful_put_fs (fs : FS) : unsuccessful (put_fs fs).
Proof. intros fs'. constructor. Qed.

Lemma unsuccessful_lift {A} (r : result A) : unsuccessful (lift r).
Proof. destruct r; intros fs; constructor. Qed.

Lemma unsuccessful_emit (e : Event) : no_success e -> unsuccessful (emit e).
Proof. intros He fs. by repeat constructor. Qed.

Lemma no_success_of_no_done (t : list Event) :
  completions t = [] -> Forall no_success t.
Proof.
  induction t as [|e t IH]; [constructor|].
  destruct e; cbn; try discriminate; intros H; constructor; auto; exact I.
Qed.

Lemma unsuccessful_emit_all (l : list Event) :
  completions l = [] -> unsuccessful (emit_all l).
Proof.
  intros H fs. rewrite emit_all_run. by apply no_success_of_no_done.
Qed.

Lemma never_value_emit_final_progress
    (h : Host) (wid : Z) (elapsed : option Q) :
  never_value (emit_final_progress h wid elapsed).
Proof. intros fs. by destruct elapsed. Qed.

Create HintDb fails.
#[local] Hint Resolve unsuccessful_ret unsuccessful_raise unsuccessful_return
  unsuccessful_get_fs unsuccessful_put_fs unsuccessful_lift : fails.

Ltac fails_auto :=
  repeat first
    [ match goal with |- forall _, _ => intro end
    | solve [auto with fails]
    | progress cbv zeta
    | match goal with
      | |- unsuccessful (emit _) => apply unsuccessful_emit; exact I
      | |- unsuccessful (mbind _ (emit_final_progress _ _ _)) =>
          apply unsuccessful_bind_never;
          [apply never_value_emit_final_progress|]
      | |- unsuccessful (mbind _ _) => apply unsuccessful_bind
      | |- unsuccessful (try_except _ _) => apply unsuccessful_try_except
      | |- unsuccessful (if ?b then _ else _) => destruct b
      | |- unsuccessful (match ?x with _ => _ end) => destruct x
      end ].

Lemma unsuccessful_emit_final_progress
    (h : Host) (wid : Z) (elapsed : option Q) :
  unsuccessful (emit_final_progress h wid elapsed).
Proof.
  unfold emit_final_progress, load_elapsed, load_speed_str.
  apply unsuccessful_bind; fails_auto.
Qed.

Lemma unsuccessful_cleanup_pass_logs (dst : string) :
  unsuccessful (cleanup_pass_logs dst).
Proof. unfold cleanup_pass_logs, remove_if_exists. fails_auto. Qed.

#[local] Hint Resolve unsuccessful_emit_final_progress
  unsuccessful_cleanup_pass_logs : fails.

Lemma unsuccessful_second_pass
    (h : Host) (w : World) (wid : Z) (job : Models.Job) (cmd : list string)
    (first_pass_dst dst : string) (return_code : Z) (elapsed : option Q) :
  unsuccessful
    (second_pass h w wid job cmd first_pass_dst dst return_code elapsed).
Proof. unfold second_pass. fails_auto. Qed.

Lemma unsuccessful_finish_failure (wid : Z) (return_code : Z)
    (pipe : list string) :
  unsuccessful (finish_failure wid return_code pipe).
Proof. unfold finish_failure, read. fails_auto. Qed.

#[local] Hint Resolve unsuccessful_second_pass unsuccessful_finish_failure
  : fails.

(** The second part of [run] never reports success: the final progress
    event needs the name [speed_str], which [run] does not have. *)
Lemma unsuccessful_run_encode
    (h : Host) (w : World) (wid : Z) (job : Models.Job)
    (dst first_pass_dst : string) (cmd : list string) :
  unsuccessful (run_encode h w wid job dst first_pass_dst cmd).
Proof.
  unfold run_encode.
  pose proof (completions_monitor wid (start_time w) (steps (pass1 w))
                (mkReader None (start_time w) [])
                (mkLoop (loop_start_time w) None false)) as Hmon.
  destruct (monitor wid (start_time w) (mkReader None (start_time w) [])
              (mkLoop (loop_start_time w) None false) (steps (pass1 w)))
    as [[events reader] loop].
  cbn [fst] in Hmon. unfold read.
  pose proof (unsuccessful_emit_all events Hmon).
  pose proof (unsuccessful_emit_all _
                (completions_reader_tail wid (tail_reader (pass1 w)))).
  pose proof (unsuccessful_emit_all _
                (completions_log_remaining wid (tail_main (pass1 w)))).
  fails_auto.
Qed.

Lemma In_sig_done_completions
    (t : list Event) (wid : Z) (ok : bool) (msg out : string) :
  In (sig_done wid ok msg out) t -> completions t <> [].
Proof.
  induction t as [|e t IH]; [done|].
  intros [->|Hin]; [done|].
  cbn. intros [_ H]%app_eq_nil. by apply IH.
Qed.

(** X7. A run reports success only for a skipped job: when the trace of
    [Worker.run] holds a completion event with [success = True], that event
    is the whole trace, its message is "Skipped (file exists)", the policy
    is "skip", and the output it names is the destination [out_path]
    computed, which exists. *)
Theorem success_is_reported_only_for_a_skip
    (h : Host) (w : World) (wid : Z) (job : Models.Job) (settings : Settings)
    (fs : FS) (wid' : Z) (msg out : string) :
  In (sig_done wid' true msg out) (run h w wid job settings fs).1 ->
  (run h w wid job settings fs).1
  = [sig_done wid true "Skipped (file exists)" out]
  /\ on_exists settings = Some "skip"
  /\ exists fs1,
       Ffmpeg.out_path h fs (Models.dst_dir job) (Models.src job)
         (Models.format job) = Ok (fs1, out)
       /\ Os.path_exists fs1 out = true.
Proof.
  remember (run h w wid job settings fs).1 as tr eqn:Htr.
  unfold run, run_body, mbind, M_bind, bind in Htr.
  pose proof (pending_run_prepare h w wid job settings fs) as Hpend.
  destruct (run_prepare h w wid job settings fs) as [[t1 fs1] [x| |e]] eqn:Hp;
    cbn [fst snd] in *.
  - destruct x as [[d f] c].
    pose proof (unsuccessful_run_encode h w wid job d f c fs1) as Hu.
    destruct (run_encode h w wid job d f c fs1) as [[t2 fs2] o2].
    cbn [fst snd] in *. intros Hin.
    assert (In (sig_done wid' true msg out) (t1 ++ t2)) as Hin'.
    { destruct o2; subst tr; cbn [fst] in Hin; try done.
      apply in_app_or in Hin as [Hin|[Hin|[]]]; [done|discriminate]. }
    apply in_app_or in Hin' as [Hin'|Hin'].
    + by apply In_sig_done_completions in Hin'.
    + rewrite List.Forall_forall in Hu. by apply Hu in Hin'.
  - subst tr. intros Hin. clear Hpend.
    unfold run_prepare, resolve_existing, mbind, M_bind, bind, get_fs, put_fs,
      emit, return_, ret, lift, raise in Hp.
    repeat case_match; simplify_eq; cbn in Hin;
      try (destruct Hin as [Hin|Hin]; [discriminate|done]).
    unfold ret in *. simplify_eq. cbn in Hin.
    destruct Hin as [Hin|[]]. simplify_eq. cbn [app].
    split; [done|]. split; [|by eexists].
    destruct (on_exists settings) as [o|]; cbn [default] in *;
      [|discriminate].
    unfold id in *. f_equal. by apply String.eqb_eq.
  - subst tr. intros Hin.
    apply in_app_or in Hin as [Hin|[Hin|[]]]; [|discriminate].
    by apply In_sig_done_completions in Hin.
Qed.

Lemma success_is_reported_only_for_a_skip_witness :
  In (sig_done 1 true "Skipped (file exists)" "/out/a.mp3")
    (run example_host failing_world 1 audio_job skip example_fs_taken).1
  /\ (run example_host failing_world 1 audio_job skip example_fs_taken).1
     = [sig_done 1 true "Skipped (file exists)" "/out/a.mp3"]
  /\ on_exists skip = Some "skip"
  /\ exists fs1,
       Ffmpeg.out_path example_host example_fs_taken
         (Models.dst_dir audio_job) (Models.src audio_job)
         (Models.format audio_job) = Ok (fs1, "/out/a.mp3")
       /\ Os.path_exists fs1 "/out/a.mp3" = true.
Proof.
  assert (In (sig_done 1 true "Skipped (file exists)" "/out/a.mp3")
            (run example_host failing_world 1 audio_job skip
               example_fs_taken).1) as Hin.
  { vm_compute. left. reflexivity. }
  split; [exact Hin|].
  exact (success_is_reported_only_for_a_skip example_host failing_world 1
           audio_job skip example_fs_taken 1 "Skipped (file exists)"
           "/out/a.mp3" Hin).
Defined.

Lemma build_ffmpeg_cmd_Ok
    (h : Host) (fs : FS) (a : Ffmpeg.Args) (cmd : list string) :
  Ffmpeg.build_ffmpeg_cmd h fs a = Ok cmd ->
  exists ffmpeg, Ffmpeg.find_ffmpeg h fs = Some ffmpeg.
Proof.
  unfold Ffmpeg.build_ffmpeg_cmd.
  destruct (Ffmpeg.find_ffmpeg h fs); [eauto|done].
Qed.

(** X8. The encoder is started only after the checks of [run]: when a run
    calls [run_ffmpeg] at all, the worker was not stopped before it began,
    the source file exists, [out_path] returned a destination, that
    destination is free or the duplicate policy is not "skip", and
    [find_ffmpeg] found an executable. *)
Theorem encoder_is_called_only_after_the_checks
    (h : Host) (w : World) (wid : Z) (job : Models.Job) (settings : Settings)
    (fs : FS) :
  invocations (run h w wid job settings fs).1 <> [] ->
  stopped_at_start w = false
  /\ Os.path_exists fs (Models.src job) = true
  /\ exists fs1 d0 ffmpeg,
       Ffmpeg.out_path h fs (Models.dst_dir job) (Models.src job)
         (Models.format job) = Ok (fs1, d0)
       /\ (Os.path_exists fs1 d0 = true -> on_exists settings <> Some "skip")
       /\ Ffmpeg.find_ffmpeg h fs1 = Some ffmpeg.
Proof.
  rewrite run_invocations.
  destruct (run_prepare h w wid job settings fs)
    as [[t fs'] [[[d f] c]| |e]] eqn:Hp; cbn [fst snd]; [|done..].
  intros _.
  unfold run_prepare, resolve_existing, mbind, M_bind, bind, get_fs, put_fs,
    emit, return_, ret, lift, raise in Hp.
  repeat case_match; simplify_eq; unfold ret in *; simplify_eq.
  all: match goal with
       | Hb : Ffmpeg.build_ffmpeg_cmd _ _ _ = Ok _ |- _ =>
           apply build_ffmpeg_cmd_Ok in Hb as [ffmpeg Hff]
       end.
  all: split; [done|]; split; [by apply negb_false_iff|].
  all: eexists _, _, ffmpeg; split; [done|]; split; [|done].
  all: intros Hex Hpol; destruct (on_exists settings); simplify_eq;
    cbn in *; congruence.
Qed.

Lemma encoder_is_called_only_after_the_checks_witness :
  invocations
    (run example_host failing_world 1 audio_job overwrite example_fs).1 <> []
  /\ stopped_at_start failing_world = false
  /\ Os.path_exists example_fs (Models.src audio_job) = true
  /\ exists fs1 d0 ffmpeg,
       Ffmpeg.out_path example_host example_fs (Models.dst_dir audio_job)
         (Models.src audio_job) (Models.format audio_job) = Ok (fs1, d0)
       /\ (Os.path_exists fs1 d0 = true -> on_exists overwrite <> Some "skip")
       /\ Ffmpeg.find_ffmpeg example_host fs1 = Some ffmpeg.
Proof.
  assert (invocations
            (run example_host failing_world 1 audio_job overwrite
               example_fs).1 <> []) as Hne.
  { vm_compute. discriminate. }
  split; [exact Hne|].
  exact (encoder_is_called_only_after_the_checks example_host failing_world 1
           audio_job overwrite example_fs Hne).
Defined.

End Success.

(** ** The progress reader and the heartbeat *)

Section ReaderProperties.
Import PyStr Worker Reading Examples.

Lemma reader_step_keeps_unknown
    (wid : Z) (start_time : Q) (r : Reader) (s : Step) :
  duration_seconds r = None -> reports_duration s = false ->
  duration_seconds (reader_step wid start_time r s).2 = None.
Proof.
  intros Hr Hs. destruct s as [t_check t_read line|t_check|t_check e|t b];
    cbn [reader_step reports_duration] in *; try done.
  destruct (truthy line); [|done].
  destruct (truthy (strip line)); [|done].
  cbn [andb] in Hs. unfold reader_parse. rewrite Hr.
  destruct (Re.search_duration (strip line)); [discriminate|done].
Qed.

(** X9. The reader reports no progress before it has a duration to
    measure against: as long as no line carries a duration, or when the
    duration it detected is zero, the reader emits no progress event,
    whatever positions the lines report. *)
Theorem no_progress_without_a_duration
    (wid : Z) (start_time : Q) (r : Reader) (ss : list Step) :
  (duration_seconds r = None
   /\ Forall (fun s => reports_duration s = false) ss)
  \/ (exists d, duration_seconds r = Some d /\ (d == 0)%Q) ->
  percentages (reader_events wid start_time r ss) = [].
Proof.
  intros [[Hr Hss]|(d & Hr & Hd)].
  - revert r Hr. induction Hss as [|s ss Hs Hss IH]; intros r Hr; [done|].
    cbn [reader_events].
    pose proof (reader_step_percentages wid start_time r s) as [Hp _].
    pose proof (reader_step_keeps_unknown wid start_time r s Hr Hs) as Hn.
    destruct (reader_step wid start_time r s) as [e r']. cbn [fst snd] in *.
    rewrite percentages_app, Hp, Hn, (IH r' Hn). done.
  - rewrite (reader_events_known wid start_time ss r d Hr).
    cbn [Ffmpeg.truthy_Q]. apply Qeq_bool_iff in Hd. by rewrite Hd.
Qed.

Lemma no_progress_without_a_duration_witness :
  percentages
    (reader_events 1 0 (mkReader None 0 [])
       [ ReaderLine 1 1 "size=     256kB time=00:00:05.00 bitrate= 419.4kbits/s speed=2.5x";
         ReaderNoData 2;
         ReaderLine 3 3 "frame=  120 fps= 25 time=00:00:07.00 speed=2.3x" ])
  = [].
Proof.
  apply no_progress_without_a_duration. left. split; [reflexivity|].
  repeat constructor.
Defined.

Lemma monitor_keeps_duration
    (wid : Z) (start_time : Q) (ss : list Step) (r : Reader) (l : Loop) (d : Q) :
  duration_seconds r = Some d ->
  duration_seconds (monitor wid start_time r l ss).1.2 = Some d.
Proof.
  revert r l. induction ss as [|s ss IH]; intros r l Hr; [done|].
  cbn [monitor].
  pose proof (reader_step_percentages wid start_time r s) as [_ Hd].
  specialize (Hd d Hr).
  destruct (reader_step wid start_time r s) as [e1 r'].
  destruct (main_step wid start_time l s) as [e2 l'].
  specialize (IH r' l' Hd).
  destruct (monitor wid start_time r' l' ss) as [[es r''] l''].
  done.
Qed.

(** X10. The first duration wins. Once the reader knows a positive
    duration, no later line changes it, and the percentages it reports
    are exactly [min(99, position / duration * 100)] for the positions
    of the lines, in their order. *)
Theorem first_duration_fixes_the_percentages
    (wid : Z) (start_time : Q) (r : Reader) (l : Loop) (ss : list Step)
    (d : Q) :
  duration_seconds r = Some d -> (0 < d)%Q ->
  duration_seconds (monitor wid start_time r l ss).1.2 = Some d
  /\ percentages (reader_events wid start_time r ss)
     = map (fun c => progress_of c d) (positions ss).
Proof.
  intros Hr Hd. split; [by apply monitor_keeps_duration|].
  rewrite (reader_events_known wid start_time ss r d Hr).
  assert (Ffmpeg.truthy_Q (Some d) && Qlt_bool 0 d = true) as ->; [|done].
  apply andb_true_intro. split.
  - cbn. apply negb_true_iff. destruct (Qeq_bool d 0) eqn:E; [|done].
    apply Qeq_bool_iff in E. lra.
  - unfold Qlt_bool. apply negb_true_iff.
    destruct (Qle_bool d 0) eqn:E; [|done].
    apply Qle_bool_iff in E. lra.
Qed.

Lemma first_duration_fixes_the_percentages_witness :
  duration_seconds
    (monitor 1 0 (mkReader (Some 20%Q) 0 []) (mkLoop 0 None false)
       rising_steps).1.2 = Some 20%Q
  /\ percentages (reader_events 1 0 (mkReader (Some 20%Q) 0 []) rising_steps)
     = map (fun c => progress_of c 20) (positions rising_steps).
Proof.
  apply (first_duration_fixes_the_percentages 1 0 (mkReader (Some 20%Q) 0 [])
           (mkLoop 0 None false) rising_steps 20); [reflexivity|].
  reflexivity.
Defined.

Lemma heartbeats_app (t1 t2 : list Event) :
  heartbeats (t1 ++ t2) = heartbeats t1 ++ heartbeats t2.
Proof. unfold heartbeats. apply flat_map_app. Qed.

Lemma speed_is_not_unknown (g : string) :
  String.eqb (g +:+ "x") "?" = false.
Proof.
  apply String.eqb_neq. destruct g as [|c g]; [done|].
  intros [= _ H]. by destruct g.
Qed.

Lemma heartbeats_reader_step
    (wid : Z) (start_time : Q) (r : Reader) (s : Step) :
  heartbeats (reader_step wid start_time r s).1 = [].
Proof.
  destruct s; cbn [reader_step]; unfold reader_parse, watchdog;
    repeat case_match; simplify_eq; cbn;
    rewrite ?speed_is_not_unknown; reflexivity.
Qed.

Lemma Qlt_bool_true (a b : Q) : Qlt_bool a b = true -> (a < b)%Q.
Proof.
  unfold Qlt_bool. intros H%negb_true_iff. apply Qnot_le_lt. intros Hle.
  apply Qle_bool_iff in Hle. congruence.
Qed.

(** X11. The heartbeat of the run loop is emitted at most once in five
    seconds: in the events of a pass, the elapsed times of two heartbeat
    events (percentage 0.1, speed "?") are more than five seconds apart,
    and the first one comes more than five seconds after the last check
    time the loop starts with. *)
Theorem heartbeats_are_five_seconds_apart
    (wid : Z) (start_time : Q) (ss : list Step) (r : Reader) (l : Loop) :
  StronglySorted apart (heartbeats (monitor wid start_time r l ss).1.1)
  /\ Forall (apart (last_check_time l - start_time))
       (heartbeats (monitor wid start_time r l ss).1.1).
Proof.
  revert r l. induction ss as [|s ss IH]; intros r l.
  - split; constructor.
  - cbn [monitor].
    pose proof (heartbeats_reader_step wid start_time r s) as H1.
    destruct (reader_step wid start_time r s) as [e1 r'].
    destruct (main_step wid start_time l s) as [e2 l'] eqn:Hm.
    specialize (IH r' l').
    destruct (monitor wid start_time r' l' ss) as [[es r''] l''].
    cbn [fst snd] in *. rewrite !heartbeats_app, H1. cbn [app].
    destruct IH as [IHs IHf].
    destruct s as [t_check t_read line|t_check|t_check e|t b];
      cbn [main_step] in Hm; simplify_eq; cbn [heartbeats flat_map app];
      try done.
    repeat case_match; simplify_eq; cbn [heartbeats flat_map app];
      cbn [last_check_time] in *; try done.
    match goal with H : Qlt_bool _ _ = true |- _ =>
      apply Qlt_bool_true in H; rename H into Hgap end.
    cbn. split.
    + constructor; [done|]. eapply Forall_impl; [exact IHf|].
      unfold apart. intros x Hx. lra.
    + constructor; [unfold apart; lra|].
      eapply Forall_impl; [exact IHf|]. unfold apart. intros x Hx. lra.
Qed.

End ReaderProperties.

(** ** Early exits of a run *)

Section EarlyExits.
Import PyStr Worker Examples.

Lemma substring_length_le (n m : nat) (s : string) :
  (String.length (String.substring n m s) <= m)%nat.
Proof.
  revert n m. induction s as [|c s IH]; intros [|n] [|m]; cbn; try lia.
  - specialize (IH 0%nat m). lia.
  - apply (IH n 0%nat).
  - apply (IH n (S m)).
Qed.

Lemma last_In {A} (l : list A) (d : A) : l <> [] -> In (List.last l d) l.
Proof.
  induction l as [|x [|y l] IH]; [done|by left|].
  intros _. right. apply IH. discriminate.
Qed.

Lemma immediate_exit_message_short (out : list string) :
  (String.length (immediate_exit_message out) <= 300)%nat.
Proof.
  unfold immediate_exit_message, slice_to.
  destruct out as [|l0 out]; [vm_compute; lia|].
  change (Z.to_nat 300) with 300%nat.
  destruct (error_lines _ _); apply substring_length_le.
Qed.

Lemma immediate_exit_message_source (out : list string) :
  (out = [] /\ immediate_exit_message out = "FFmpeg process exited immediately")
  \/ (exists l,
        In l out
        /\ existsb (fun w => contains w (lower l)) ["error"; "failed"; "invalid"]
           = true
        /\ immediate_exit_message out = slice_to 300 l)
  \/ (error_lines ["error"; "failed"; "invalid"] out = []
      /\ immediate_exit_message out = slice_to 300 (join nl (last_n 3 out))).
Proof.
  unfold immediate_exit_message.
  destruct out as [|l0 out]; [by left|]. right.
  destruct (error_lines ["error"; "failed"; "invalid"] (l0 :: out))
    as [|e es] eqn:He; [by right|].
  left. exists (List.last (e :: es) "").
  assert (In (List.last (e :: es) "") (e :: es)) as Hin
    by (apply last_In; discriminate).
  remember (List.last (e :: es) "") as x eqn:Hx.
  rewrite <- He in Hin. unfold error_lines in Hin.
  apply filter_In in Hin as [Hin Hp]. apply andb_prop in Hp as [_ Hp].
  done.
Qed.

(** X12. An encoder that has exited a tenth of a second after its start
    ends the run at once: the run logs the error and reports failure with
    the same message, which holds at most 300 characters and is the default
    text, the head of the last output line that mentions an error, or the
    head of the last three lines; no second pass is run and the file
    system is left as it was. *)
Theorem immediate_exit_ends_the_run
    (h : Host) (w : World) (wid : Z) (job : Models.Job)
    (dst first_pass_dst : string) (cmd : list string) (fs : FS)
    (out : list string) :
  started (pass1 w) = true ->
  exited_immediately (pass1 w) = Some out ->
  let msg := immediate_exit_message out in
  (exists logs,
     run_encode h w wid job dst first_pass_dst cmd fs
     = (logs ++ [run_ffmpeg cmd; sig_log wid ("Error: " +:+ msg);
                 sig_done wid false msg ""], fs, Returned)
     /\ invocations logs = [] /\ completions logs = [])
  /\ (String.length msg <= 300)%nat
  /\ ((out = [] /\ msg = "FFmpeg process exited immediately")
      \/ (exists l,
            In l out
            /\ existsb (fun w => contains w (lower l))
                 ["error"; "failed"; "invalid"] = true
            /\ msg = slice_to 300 l)
      \/ (error_lines ["error"; "failed"; "invalid"] out = []
          /\ msg = slice_to 300 (join nl (last_n 3 out)))).
Proof.
  intros Hs He msg. split; [|split].
  - unfold run_encode. rewrite Hs, He. cbn [negb].
    eexists [_; _; _; _]. split; [reflexivity|]. by split.
  - apply immediate_exit_message_short.
  - apply immediate_exit_message_source.
Qed.

Lemma immediate_exit_ends_the_run_witness :
  (exists logs,
     run_encode example_host Samples.immediate_world 1 audio_job
       "/out/a.mp3" "/out/a.mp3" ["ffmpeg"; "-i"; "/in/a.wav"] example_fs
     = (logs ++ [run_ffmpeg ["ffmpeg"; "-i"; "/in/a.wav"];
                 sig_log 1 ("Error: " +:+
                            immediate_exit_message Samples.immediate_output);
                 sig_done 1 false
                   (immediate_exit_message Samples.immediate_output) ""],
        example_fs, Returned)
     /\ invocations logs = [] /\ completions logs = [])
  /\ immediate_exit_message Samples.immediate_output = "Conversion failed!".
Proof.
  destruct (immediate_exit_ends_the_run example_host Samples.immediate_world 1
              audio_job "/out/a.mp3" "/out/a.mp3"
              ["ffmpeg"; "-i"; "/in/a.wav"] example_fs
              Samples.immediate_output eq_refl eq_refl) as [H _].
  split; [exact H|]. vm_compute. reflexivity.
Defined.


End EarlyExits.

(** ** The command builder *)

Section Builder.
Import PyStr Examples.

Lemma index_go_first (x : string) (pre post : list string) (i : nat) :
  PyList.mem x pre = false ->
  PyList.index_go x (pre ++ x :: post) i = Some (i + length pre)%nat.
Proof.
  revert i. induction pre as [|y pre IH]; intros i Hm; cbn.
  - rewrite String.eqb_refl. f_equal. lia.
  - cbn in Hm. apply orb_false_elim in Hm as [Hy Hm].
    rewrite String.eqb_sym, Hy, (IH (S i) Hm). f_equal. lia.
Qed.

Lemma index_first (x : string) (pre post : list string) :
  PyList.mem x pre = false ->
  PyList.index x (pre ++ x :: post) = Ok (length pre).
Proof.
  intros Hm. unfold PyList.index. by rewrite (index_go_first x pre post 0 Hm).
Qed.

Lemma mem_middle (x : string) (pre post : list string) :
  PyList.mem x (pre ++ x :: post) = true.
Proof.
  unfold PyList.mem. rewrite existsb_app. cbn. rewrite String.eqb_refl.
  by rewrite orb_true_r.
Qed.

(** X14. Removing a flag from a command removes its first occurrence
    and the argument after it, and leaves a command without the flag as
    it is; a flag that is the last argument makes the removal raise
    [IndexError], after the flag itself has been popped. *)
Theorem remove_flag_drops_the_flag_and_its_value
    (flag v : string) (pre post : list string) :
  PyList.mem flag pre = false ->
  Ffmpeg.remove_flag flag pre = Ok pre
  /\ Ffmpeg.remove_flag flag (pre ++ flag :: v :: post) = Ok (pre ++ post)
  /\ Ffmpeg.remove_flag flag (pre ++ [flag])
     = Raise (IndexError "pop index out of range").
Proof.
  intros Hm. unfold Ffmpeg.remove_flag. split; [by rewrite Hm|].
  rewrite !mem_middle, !(index_first _ _ _ Hm).
  unfold mbind, result_bind, PyList.pop. split.
  - rewrite bool_decide_eq_true_2
      by (rewrite length_app; cbn; lia).
    rewrite delete_middle.
    rewrite bool_decide_eq_true_2
      by (rewrite length_app; cbn; lia).
    by rewrite delete_middle.
  - rewrite bool_decide_eq_true_2
      by (rewrite length_app; cbn; lia).
    rewrite delete_middle, app_nil_r.
    by rewrite bool_decide_eq_false_2 by lia.
Qed.

Lemma remove_flag_drops_the_flag_and_its_value_witness :
  Ffmpeg.remove_flag "-crf" ["ffmpeg"; "-i"; "a.mkv"]
  = Ok ["ffmpeg"; "-i"; "a.mkv"]
  /\ Ffmpeg.remove_flag "-crf"
       (["ffmpeg"; "-i"; "a.mkv"] ++ "-crf" :: "23" :: ["-c:a"; "aac"])
     = Ok (["ffmpeg"; "-i"; "a.mkv"] ++ ["-c:a"; "aac"])
  /\ Ffmpeg.remove_flag "-crf" (["ffmpeg"; "-i"; "a.mkv"] ++ ["-crf"])
     = Raise (IndexError "pop index out of range").
Proof.
  apply (remove_flag_drops_the_flag_and_its_value "-crf" "23"
           ["ffmpeg"; "-i"; "a.mkv"] ["-c:a"; "aac"]).
  reflexivity.
Defined.

(** X15. Video filters are collected in one [-vf] argument: on a command
    without [-vf] a filter is appended as a new [-vf] argument, and on a
    command that has one the filter is joined to its value with a comma,
    in place; a [-vf] that is the last argument makes the call raise
    [IndexError]. *)
Theorem video_filters_share_one_argument
    (f v : string) (pre post : list string) :
  PyList.mem "-vf" pre = false ->
  Ffmpeg.add_video_filter f pre = Ok (pre ++ ["-vf"; f])
  /\ Ffmpeg.add_video_filter f (pre ++ "-vf" :: v :: post)
     = Ok (pre ++ "-vf" :: (v +:+ "," +:+ f) :: post)
  /\ Ffmpeg.add_video_filter f (pre ++ ["-vf"])
     = Raise (IndexError "list index out of range").
Proof.
  intros Hm. unfold Ffmpeg.add_video_filter. split; [by rewrite Hm|].
  rewrite !mem_middle, !(index_first _ _ _ Hm).
  unfold mbind, result_bind, PyList.get_item. split.
  - assert ((pre ++ "-vf" :: v :: post) !! (length pre + 1)%nat = Some v)
      as ->.
    { rewrite lookup_app_r by lia.
      by replace (length pre + 1 - length pre)%nat with 1%nat by lia. }
    rewrite set_item_Ok by (rewrite length_app; cbn; lia).
    by rewrite (insert_app_r pre _ 1).
  - assert ((pre ++ ["-vf"]) !! (length pre + 1)%nat = None) as ->; [|done].
    apply lookup_ge_None_2. rewrite length_app. cbn. lia.
Qed.

Lemma video_filters_share_one_argument_witness :
  Ffmpeg.add_video_filter "scale=1280:720" ["ffmpeg"; "-i"; "a.mkv"]
  = Ok (["ffmpeg"; "-i"; "a.mkv"] ++ ["-vf"; "scale=1280:720"])
  /\ Ffmpeg.add_video_filter "scale=1280:720"
       (["ffmpeg"; "-i"; "a.mkv"] ++ "-vf" :: "crop=640:480" :: ["-r"; "30"])
     = Ok (["ffmpeg"; "-i"; "a.mkv"] ++
           "-vf" :: ("crop=640:480" +:+ "," +:+ "scale=1280:720") ::
           ["-r"; "30"])
  /\ Ffmpeg.add_video_filter "scale=1280:720"
       (["ffmpeg"; "-i"; "a.mkv"] ++ ["-vf"])
     = Raise (IndexError "list index out of range").
Proof.
  apply (video_filters_share_one_argument "scale=1280:720" "crop=640:480"
           ["ffmpeg"; "-i"; "a.mkv"] ["-r"; "30"]).
  reflexivity.
Defined.

(** X16. Every command that [build_ffmpeg_cmd] returns ends in the same
    way: the thread count when it is above one, then the custom
    arguments as [shlex.split] returns them, then the container format
    when the output is a null sink, then [-y] and the output. *)
Theorem command_ends_with_threads_custom_arguments_and_output
    (h : Host) (fs : FS) (a : Ffmpeg.Args) (cmd : list string) :
  Ffmpeg.build_ffmpeg_cmd h fs a = Ok cmd ->
  exists pre extra,
    (if truthy_opt (Ffmpeg.custom_args a)
     then shlex_split h (default "" (Ffmpeg.custom_args a)) = Ok extra
     else extra = [])
    /\ cmd = pre
             ++ (if 1 <? Ffmpeg.threads a
                 then ["-threads"; str_int (Ffmpeg.threads a)] else [])
             ++ extra
             ++ (if Ffmpeg.is_null_sink (Ffmpeg.dst a)
                 then ["-f"; Ffmpeg.dict_get Ffmpeg.format_map
                               (lower (Ffmpeg.fmt a)) (lower (Ffmpeg.fmt a))]
                 else [])
             ++ ["-y"; Ffmpeg.dst a].
Proof.
  unfold Ffmpeg.build_ffmpeg_cmd.
  destruct (Ffmpeg.find_ffmpeg h fs) as [ffmpeg|]; [|done].
  unfold mbind, result_bind.
  set (v := if Ffmpeg.is_null_sink (Ffmpeg.dst a)
            then Ffmpeg.is_video_file (Ffmpeg.src a)
            else Ffmpeg.is_video_file (Ffmpeg.dst a)).
  match goal with
  | |- context [match ?x with Ok _ => _ | Raise _ => _ end] =>
      destruct x as [c0|]; [|discriminate]
  end.
  destruct (truthy_opt (Ffmpeg.custom_args a)).
  - destruct (shlex_split h (default "" (Ffmpeg.custom_args a))) as [extra|];
      [|discriminate].
    intros [= <-].
    exists (c0 ++ Ffmpeg.metadata_args a ++ Ffmpeg.cover_args fs a v), extra.
    split; [reflexivity|].
    destruct (1 <? Ffmpeg.threads a), (Ffmpeg.is_null_sink (Ffmpeg.dst a));
      rewrite <- ?app_assoc; reflexivity.
  - intros [= <-].
    exists (c0 ++ Ffmpeg.metadata_args a ++ Ffmpeg.cover_args fs a v), [].
    split; [reflexivity|].
    destruct (1 <? Ffmpeg.threads a), (Ffmpeg.is_null_sink (Ffmpeg.dst a));
      rewrite <- ?app_assoc; reflexivity.
Qed.

Lemma command_ends_with_threads_custom_arguments_and_output_witness :
  exists pre extra,
    shlex_split example_host "-ab 128k" = Ok extra
    /\ [ "/usr/bin/ffmpeg"; "-i"; "/in/a.wav"; "-c:a"; "libmp3lame";
         "-map_metadata"; "0"; "-threads"; "4"; "-ab"; "128k";
         "-y"; "/out/a.mp3" ]
       = pre ++ ["-threads"; "4"] ++ extra ++ [] ++ ["-y"; "/out/a.mp3"].
Proof.
  destruct (command_ends_with_threads_custom_arguments_and_output
              example_host example_fs
              (Ffmpeg.mkArgs "/in/a.wav" "/out/a.mp3" "mp3" "CBR" None None
                 None None [] true false false false (-14) 4
                 (Some "-ab 128k") None None None None None false false None
                 false false None None None None None None None None None
                 None None None None)
              [ "/usr/bin/ffmpeg"; "-i"; "/in/a.wav"; "-c:a"; "libmp3lame";
                "-map_metadata"; "0"; "-threads"; "4"; "-ab"; "128k";
                "-y"; "/out/a.mp3" ]) as (pre & extra & H1 & H2).
  { vm_compute. reflexivity. }
  exists pre, extra. split; [exact H1|exact H2].
Defined.

(** X17. No path is classified both as a video file and as an audio
    file: the two lists of extensions share no entry, so the branch of
    the builder is decided by one of them. *)
Theorem video_and_audio_extensions_are_disjoint (path : string) :
  Ffmpeg.is_video_file path && Ffmpeg.is_audio_file path = false.
Proof.
  unfold Ffmpeg.is_video_file, Ffmpeg.is_audio_file.
  generalize (lower (OsPath.splitext path).2). intros ext.
  apply andb_false_iff.
  destruct (PyList.mem ext _) eqn:Hv at 1; [right|by left].
  unfold PyList.mem in Hv. apply existsb_exists in Hv as (x & Hin & Hx).
  apply String.eqb_eq in Hx as <-.
  cbn in Hin. repeat (destruct Hin as [<-|Hin]; [reflexivity|]). done.
Qed.

Lemma find_first_result {A} (f : A -> bool) (l : list A) :
  match List.find f l with
  | Some x => In x l /\ f x = true
  | None => forall x, In x l -> f x = false
  end.
Proof.
  destruct (List.find f l) as [x|] eqn:E.
  - by apply find_some in E.
  - intros x. by apply find_none.
Qed.

(** X18. The external cover that [find_external_cover] returns exists
    and lies in the directory of the source under one of the six
    conventional names, [cover.jpg] first; it returns nothing only when
    none of the six exists. *)
Theorem external_cover_is_an_existing_sibling (fs : FS) (src : string) :
  let names := [ "cover.jpg"; "folder.jpg"; "cover.png"; "folder.png";
                 "cover.jpeg"; "folder.jpeg" ] in
  match Ffmpeg.find_external_cover fs src with
  | Some cover =>
      Os.path_exists fs cover = true
      /\ exists name,
           In name names /\ cover = OsPath.join (OsPath.dirname src) name
  | None =>
      forall name,
        In name names ->
        Os.path_exists fs (OsPath.join (OsPath.dirname src) name) = false
  end
  /\ (Os.path_exists fs (OsPath.join (OsPath.dirname src) "cover.jpg") = true
      -> Ffmpeg.find_external_cover fs src
         = Some (OsPath.join (OsPath.dirname src) "cover.jpg")).
Proof.
  intros names. unfold Ffmpeg.find_external_cover. split.
  - pose proof (find_first_result (Os.path_exists fs)
                  (map (OsPath.join (OsPath.dirname src)) names)) as H.
    fold names.
    destruct (List.find _ _) as [cover|].
    + destruct H as [Hin Hex]. split; [done|].
      apply in_map_iff in Hin as (name & <- & Hin). eauto.
    + intros name Hin. apply H. by apply in_map.
  - intros Hex. cbn [map List.find]. by rewrite Hex.
Qed.

(** X19. For an x264 or x265 codec without size reduction, a command
    that the video branch of the builder returns ends with
    [-preset medium], whatever quality preset the job names. *)
Theorem video_branch_ends_with_the_medium_preset
    (a : Ffmpeg.Args) (cmd r : list string) (vcodec : string) :
  Ffmpeg.reduce_size a = false ->
  Ffmpeg.video_codec a = Some vcodec ->
  Ffmpeg.is_x26x vcodec = true ->
  Ffmpeg.video_branch a cmd = Ok r ->
  exists pre, r = pre ++ ["-preset"; "medium"].
Proof.
  intros Hred Hvc Hx. unfold Ffmpeg.video_branch.
  rewrite Hred, Hvc. cbn [andb negb default]. unfold id.
  assert (truthy_opt (Some vcodec) = true) as ->.
  { destruct vcodec; [discriminate|done]. }
  rewrite Hx. cbn [andb].
  unfold mbind, result_bind.
  repeat match goal with
         | |- context [match ?x with Ok _ => _ | Raise _ => _ end] =>
             destruct x; try discriminate
         end.
  intros [= <-]. eauto.
Qed.

Lemma video_branch_ends_with_the_medium_preset_witness :
  exists pre,
    [ "ffmpeg"; "-i"; "/in/a.mkv"; "-c:v"; "libx264"; "-map"; "0:v:0";
      "-map"; "0:a:0"; "-crf"; "18"; "-preset"; "veryslow"; "-c:a"; "aac";
      "-b:a"; "192k"; "-preset"; "medium" ]
    = pre ++ ["-preset"; "medium"].
Proof.
  apply (video_branch_ends_with_the_medium_preset
           (Ffmpeg.mkArgs "/in/a.mkv" "/out/a.mp4" "mp4" "CBR" None None
              None None [] true false false false (-14) 1 None
              (Some "libx264") None None None None false false None
              false false None None None None None None None None None
              None None (Some "ultra") None)
           ["ffmpeg"; "-i"; "/in/a.mkv"] _ "libx264");
    vm_compute; reflexivity.
Defined.

End Builder.

(** ** A machine without the encoder, and audio commands *)

Section Encoder.
Import PyStr Worker Examples.

Lemma resolve_existing_goes_on
    (wid : Z) (settings : Settings) (d0 : string) (fs : FS) :
  (Os.path_exists fs d0 = true -> on_exists settings <> Some "skip") ->
  exists dst, resolve_existing wid settings d0 fs = ([], fs, Value dst).
Proof.
  intros Hpol. unfold resolve_existing, mbind, M_bind, bind, get_fs.
  destruct (Os.path_exists fs d0); [|by eexists].
  destruct (String.eqb (default "overwrite" (on_exists settings)) "skip")
    eqn:E.
  - apply String.eqb_eq in E. destruct (on_exists settings) as [o|];
      cbn in E; [|discriminate]. subst o. by destruct Hpol.
  - destruct (String.eqb _ "rename"); by eexists.
Qed.

(** X20. On a machine where FFmpeg is neither on the search path nor at
    one of the four common locations, a run that passes its checks
    starts nothing: its only event is the completion event, a failure
    with the message of the [RuntimeError] of the builder, and the only
    change to the file system is the output directory that [out_path]
    made. *)
Theorem missing_encoder_is_reported
    (h : Host) (w : World) (wid : Z) (job : Models.Job) (settings : Settings)
    (fs fs1 : FS) (d0 : string) :
  stopped_at_start w = false ->
  Os.path_exists fs (Models.src job) = true ->
  Ffmpeg.out_path h fs (Models.dst_dir job) (Models.src job)
    (Models.format job) = Ok (fs1, d0) ->
  (Os.path_exists fs1 d0 = true -> on_exists settings <> Some "skip") ->
  truthy_opt (which h "ffmpeg") = false ->
  (forall p,
     In p [ "C:\ffmpeg\bin\ffmpeg.exe";
            "C:\Program Files\ffmpeg\bin\ffmpeg.exe";
            "/usr/bin/ffmpeg"; "/usr/local/bin/ffmpeg" ] ->
     Os.path_exists fs1 p = false) ->
  run h w wid job settings fs
  = ([sig_done wid false
        "Error: FFmpeg not found. Please install FFmpeg and ensure it's on PATH."
        ""], fs1).
Proof.
  intros Hstop Hsrc Hout Hpol Hwhich Hpaths.
  destruct (resolve_existing_goes_on wid settings d0 fs1 Hpol) as [dst Hres].
  assert (Ffmpeg.find_ffmpeg h fs1 = None) as Hff.
  { unfold Ffmpeg.find_ffmpeg. rewrite Hwhich.
    destruct (List.find _ _) as [p|] eqn:E; [|done].
    apply find_some in E as [Hin Hex]. by rewrite (Hpaths p Hin) in Hex. }
  unfold run, run_body, run_prepare. rewrite Hstop.
  unfold mbind, M_bind, bind, get_fs. rewrite Hsrc. cbn [negb]. rewrite Hout.
  unfold lift, ret, put_fs. rewrite Hres.
  unfold Ffmpeg.build_ffmpeg_cmd. rewrite Hff. reflexivity.
Qed.

Lemma missing_encoder_is_reported_witness :
  run Samples.bare_host failing_world 1 audio_job overwrite example_fs
  = ([sig_done 1 false
        "Error: FFmpeg not found. Please install FFmpeg and ensure it's on PATH."
        ""], <["/out" := 4096]> example_fs).
Proof.
  apply (missing_encoder_is_reported Samples.bare_host failing_world 1
           audio_job overwrite example_fs (<["/out" := 4096]> example_fs)
           "/out/a.mp3").
  - reflexivity.
  - vm_compute. reflexivity.
  - vm_compute. reflexivity.
  - vm_compute. discriminate.
  - reflexivity.
  - intros p Hin. cbn in Hin.
    repeat (destruct Hin as [<-|Hin]; [vm_compute; reflexivity|]). done.
Defined.

Lemma extraction_branch_extends (h : Host) (a : Ffmpeg.Args) (cmd : list string) :
  exists r, Ffmpeg.extraction_branch h a cmd = cmd ++ r.
Proof.
  unfold Ffmpeg.extraction_branch.
  repeat match goal with
         | |- context [if ?b then _ else _] => destruct b
         end;
    rewrite <- ?app_assoc; eauto.
Qed.

Lemma audio_branch_extends (h : Host) (a : Ffmpeg.Args) (cmd : list string) :
  exists r, Ffmpeg.audio_branch h a cmd = cmd ++ r.
Proof.
  unfold Ffmpeg.audio_branch.
  repeat match goal with
         | |- context [if ?b then _ else _] => destruct b
         end;
    rewrite <- ?app_assoc; eauto.
Qed.

(** X21. For an output that is not a video file, and without custom
    arguments, the builder cannot fail once FFmpeg is found: it returns a
    command that starts with the executable, the seek position when the
    job has one, and [-i] with the source, and that ends with [-y] and
    the output. *)
Theorem audio_command_is_always_built
    (h : Host) (fs : FS) (a : Ffmpeg.Args) (ffmpeg : string) :
  Ffmpeg.find_ffmpeg h fs = Some ffmpeg ->
  Ffmpeg.is_null_sink (Ffmpeg.dst a) = false ->
  Ffmpeg.is_video_file (Ffmpeg.dst a) = false ->
  truthy_opt (Ffmpeg.custom_args a) = false ->
  exists rest,
    Ffmpeg.build_ffmpeg_cmd h fs a
    = Ok ([ffmpeg]
          ++ match Ffmpeg.video_trim_start a with
             | Some t => ["-ss"; str_float h t]
             | None => []
             end
          ++ ["-i"; Ffmpeg.src a] ++ rest ++ ["-y"; Ffmpeg.dst a]).
Proof.
  intros Hff Hnull Hvid Hcustom. unfold Ffmpeg.build_ffmpeg_cmd.
  rewrite Hff, Hnull, Hvid, Hcustom. cbn [negb andb].
  rewrite andb_true_r.
  set (c1 := match Ffmpeg.video_trim_start a with
             | Some t => [ffmpeg] ++ ["-ss"; str_float h t]
             | None => [ffmpeg]
             end).
  set (c2 := match Ffmpeg.video_trim_end a, Ffmpeg.video_trim_start a with
             | Some e, Some t => _
             | Some e, None => _
             | None, _ => _
             end).
  assert (exists t, c2 = c1 ++ ["-i"; Ffmpeg.src a] ++ t) as [t ->].
  { unfold c2. destruct (Ffmpeg.video_trim_end a), (Ffmpeg.video_trim_start a);
      rewrite <- ?app_assoc; eauto. }
  assert (c1 = [ffmpeg] ++ match Ffmpeg.video_trim_start a with
                           | Some t => ["-ss"; str_float h t]
                           | None => []
                           end) as ->.
  { unfold c1. by destruct (Ffmpeg.video_trim_start a). }
  unfold mbind, result_bind.
  match goal with
  | |- context [Ffmpeg.extraction_branch h a ?c] =>
      destruct (extraction_branch_extends h a c) as [r1 ->];
      destruct (audio_branch_extends h a c) as [r2 ->]
  end.
  destruct (Ffmpeg.extract_audio_only a || Ffmpeg.is_video_file (Ffmpeg.src a)).
  - destruct (1 <? Ffmpeg.threads a).
    + eexists (t ++ r1 ++ Ffmpeg.metadata_args a ++ Ffmpeg.cover_args fs a false
                 ++ ["-threads"; str_int (Ffmpeg.threads a)]).
      by rewrite <- !app_assoc.
    + eexists (t ++ r1 ++ Ffmpeg.metadata_args a ++ Ffmpeg.cover_args fs a false).
      by rewrite <- !app_assoc.
  - destruct (1 <? Ffmpeg.threads a).
    + eexists (t ++ r2 ++ Ffmpeg.metadata_args a ++ Ffmpeg.cover_args fs a false
                 ++ ["-threads"; str_int (Ffmpeg.threads a)]).
      by rewrite <- !app_assoc.
    + eexists (t ++ r2 ++ Ffmpeg.metadata_args a ++ Ffmpeg.cover_args fs a false).
      by rewrite <- !app_assoc.
Qed.

Lemma audio_command_is_always_built_witness :
  exists rest,
    Ffmpeg.build_ffmpeg_cmd example_host example_fs
      (build_args audio_job "/out/a.mp3")
    = Ok (["/usr/bin/ffmpeg"] ++ [] ++ ["-i"; "/in/a.wav"] ++ rest
          ++ ["-y"; "/out/a.mp3"]).
Proof.
  apply (audio_command_is_always_built example_host example_fs
           (build_args audio_job "/out/a.mp3") "/usr/bin/ffmpeg");
    vm_compute; reflexivity.
Defined.

End Encoder.
